(** * The quiz-creation state manager ([useQuizCreation])

    A shallow embedding of the composable that holds the quiz being
    authored: its sections and questions, the exercise cache, the selection,
    and the operations that edit them and save the quiz. *)

From stdpp Require Import gmap strings list fin_maps.
From Stdlib Require Import ZArith Lia.

Open Scope string_scope.
Open Scope list_scope.

(** ** JavaScript values and arrays *)

(** The values held by the plain properties of a quiz or of a section
    (title, collection, draft, assignments and so on). *)
Inductive value :=
| VUndefined
| VNull
| VBool (b : bool)
| VNum (n : Z)
| VStr (s : string)
| VStrs (l : list string).

#[global] Instance value_eq_dec : EqDecision value.
Proof. solve_decision. Defined.

(** Truthiness, as tested by [if (v)]. *)
Definition truthy (v : value) : bool :=
  match v with
  | VUndefined | VNull => false
  | VBool b => b
  | VNum n => negb (n =? 0)%Z
  | VStr s => negb (String.eqb s "")
  | VStrs _ => true
  end.

(** [o[k]]: reading a property that is absent gives [undefined]. *)
Definition prop (o : gmap string value) (k : string) : value :=
  default VUndefined (o !! k).

(** [l[i]] for an integer [i]: [undefined] out of range. *)
Definition js_index {A} (l : list A) (i : Z) : option A :=
  if (i <? 0)%Z then None else l !! Z.to_nat i.

(** The relative index of [Array.prototype.slice]. *)
Definition rel_index (len i : Z) : Z :=
  (if i <? 0 then Z.max (len + i) 0 else Z.min i len)%Z.

(** [l.slice(start, end)]. *)
Definition slice {A} (l : list A) (start end_ : Z) : list A :=
  let len := Z.of_nat (length l) in
  let k := rel_index len start in
  let f := rel_index len end_ in
  take (Z.to_nat (f - k)%Z) (drop (Z.to_nat k) l).

(** [l.slice(start)]. *)
Definition slice_from {A} (l : list A) (start : Z) : list A :=
  slice l start (Z.of_nat (length l)).

(** [l.includes(x)]. *)
Definition includes `{EqDecision A} (l : list A) (x : A) : bool :=
  bool_decide (x ∈ l).

(** [l.find(p)]. *)
Fixpoint find {A} (p : A → bool) (l : list A) : option A :=
  match l with
  | [] => None
  | x :: l' => if p x then Some x else find p l'
  end.

(** lodash [uniq]: the first occurrence of every element, in order. *)
Fixpoint uniq_from `{EqDecision A} (seen l : list A) : list A :=
  match l with
  | [] => []
  | x :: l' =>
      if includes seen x then uniq_from seen l'
      else x :: uniq_from (x :: seen) l'
  end.

Definition uniq `{EqDecision A} (l : list A) : list A := uniq_from [] l.

(** ** The data model *)

(** A question of a quiz: a reference to one assessment item of an
    exercise.  [item] is the key the quiz identifies the question by. *)
Record QuizQuestion := {
  exercise_id : string;
  question_id : string;
  title : string;
  counter_in_exercise : Z;
  item : string;
}.

#[global] Instance QuizQuestion_eq_dec : EqDecision QuizQuestion.
Proof. solve_decision. Defined.

(** An exercise as fetched: [ex_id] is its [id], [assessment_item_ids] is
    [assessmentmetadata.assessment_item_ids]. *)
Record Exercise := {
  ex_id : string;
  assessment_item_ids : list string;
}.

#[global] Instance Exercise_eq_dec : EqDecision Exercise.
Proof. solve_decision. Defined.

(** What the [questions] property of a section holds: an array of
    questions, or [null] ([updateSection] stores a falsy value as it is). *)
Inductive questions_value :=
| QArray (qs : list QuizQuestion)
| QNull.

#[global] Instance questions_value_eq_dec : EqDecision questions_value.
Proof. solve_decision. Defined.

(** A section: its [questions] and its other properties ([section_id],
    [section_title], [description], ...) by name. *)
Record QuizSection := {
  questions : questions_value;
  section_props : gmap string value;
}.

#[global] Instance QuizSection_eq_dec : EqDecision QuizSection.
Proof. solve_decision. Defined.

(** The quiz: its sections ([question_sources]) and its other properties
    ([id], [title], [collection], [draft], ...) by name. *)
Record Quiz := {
  question_sources : list QuizSection;
  quiz_props : gmap string value;
}.

(** An object given to [updateQuiz]: the properties to overwrite. *)
Record QuizUpdates := {
  qupd_question_sources : option (list QuizSection);
  qupd_props : gmap string value;
}.

(** The [questions] entry of the object given to [updateSection]. *)
Inductive questions_arg :=
| ArgArray (qs : list (option QuizQuestion))
    (** an array; [None] is an element that is [undefined] *)
| ArgNull
    (** [null]: falsy, not an array *)
| ArgNonArray.
    (** a truthy value that is not an array (a non-empty string, an object) *)

(** The object given to [updateSection], without its [sectionIndex].
    [upd_questions = None]: no [questions] key.  [upd_resourcePool]:
    [None] no [resourcePool] key, [Some None] the key holds [undefined],
    [Some (Some l)] it holds an array.  [upd_props]: every other key. *)
Record SectionUpdates := {
  upd_questions : option questions_arg;
  upd_resourcePool : option (option (list Exercise));
  upd_props : gmap string value;
}.

(** The answer of the server to a save request: the saved exam. *)
Record Exam := { exam_id : value }.

(** A section as sent to the server: the question objects and the other
    properties. *)
Record SavedSection := {
  saved_questions : list (gmap string value);
  saved_props : gmap string value;
}.

(** A property of the object sent to the server. *)
Inductive payload :=
| PValue (v : value)
| PSections (l : list SavedSection).

(** One call of [ExamResource.saveModel({ id, data })]. *)
Record SaveRequest := {
  req_id : value;
  req_data : gmap string payload;
}.

(** ** The state of the composable *)

Record State := {
  _quiz : Quiz;
  quizHasChanged : bool;
  _selectedQuestionIds : list string;
  _exerciseMap : gmap string Exercise;
  _questionItemsToReplace : option (list string);
  (** the [sectionIndex] parameter of the current route *)
  activeSectionIndex : Z;
  (** the calls of [ExamResource.saveModel] made so far *)
  saveModel_calls : list SaveRequest;
}.

Definition set_quiz (q : Quiz) (st : State) : State :=
  {| _quiz := q; quizHasChanged := quizHasChanged st;
     _selectedQuestionIds := _selectedQuestionIds st;
     _exerciseMap := _exerciseMap st;
     _questionItemsToReplace := _questionItemsToReplace st;
     activeSectionIndex := activeSectionIndex st;
     saveModel_calls := saveModel_calls st |}.

Definition set_quizHasChanged (b : bool) (st : State) : State :=
  {| _quiz := _quiz st; quizHasChanged := b;
     _selectedQuestionIds := _selectedQuestionIds st;
     _exerciseMap := _exerciseMap st;
     _questionItemsToReplace := _questionItemsToReplace st;
     activeSectionIndex := activeSectionIndex st;
     saveModel_calls := saveModel_calls st |}.

Definition set_selectedQuestionIds (l : list string) (st : State) : State :=
  {| _quiz := _quiz st; quizHasChanged := quizHasChanged st;
     _selectedQuestionIds := l;
     _exerciseMap := _exerciseMap st;
     _questionItemsToReplace := _questionItemsToReplace st;
     activeSectionIndex := activeSectionIndex st;
     saveModel_calls := saveModel_calls st |}.

Definition set_exerciseMap (m : gmap string Exercise) (st : State) : State :=
  {| _quiz := _quiz st; quizHasChanged := quizHasChanged st;
     _selectedQuestionIds := _selectedQuestionIds st;
     _exerciseMap := m;
     _questionItemsToReplace := _questionItemsToReplace st;
     activeSectionIndex := activeSectionIndex st;
     saveModel_calls := saveModel_calls st |}.

Definition set_questionItemsToReplace (o : option (list string)) (st : State) : State :=
  {| _quiz := _quiz st; quizHasChanged := quizHasChanged st;
     _selectedQuestionIds := _selectedQuestionIds st;
     _exerciseMap := _exerciseMap st;
     _questionItemsToReplace := o;
     activeSectionIndex := activeSectionIndex st;
     saveModel_calls := saveModel_calls st |}.

Definition set_activeSectionIndex (i : Z) (st : State) : State :=
  {| _quiz := _quiz st; quizHasChanged := quizHasChanged st;
     _selectedQuestionIds := _selectedQuestionIds st;
     _exerciseMap := _exerciseMap st;
     _questionItemsToReplace := _questionItemsToReplace st;
     activeSectionIndex := i;
     saveModel_calls := saveModel_calls st |}.

Definition log_saveModel (r : SaveRequest) (st : State) : State :=
  {| _quiz := _quiz st; quizHasChanged := quizHasChanged st;
     _selectedQuestionIds := _selectedQuestionIds st;
     _exerciseMap := _exerciseMap st;
     _questionItemsToReplace := _questionItemsToReplace st;
     activeSectionIndex := activeSectionIndex st;
     saveModel_calls := saveModel_calls st ++ [r] |}.

(** ** Exceptions and the state monad of the operations *)

(** What an operation throws: a [TypeError], a plain [Error], or (for the
    asynchronous operations) a promise rejected with another reason. *)
Inductive error := TypeError | Error | Rejection.

#[global] Instance error_eq_dec : EqDecision error.
Proof. solve_decision. Defined.

Inductive result (A : Type) :=
| Ok (a : A)
| Throw (e : error).
Arguments Ok {A} a.
Arguments Throw {A} e.

Definition rbind {A B} (r : result A) (k : A → result B) : result B :=
  match r with
  | Ok a => k a
  | Throw e => Throw e
  end.

(** An operation runs on the state and returns or throws; the state it
    leaves is kept in both cases. *)
Definition M (A : Type) : Type := State → result A * State.

Definition ret {A} (a : A) : M A := λ st, (Ok a, st).
Definition throw {A} (e : error) : M A := λ st, (Throw e, st).
Definition bind {A B} (m : M A) (k : A → M B) : M B :=
  λ st, match m st with
        | (Ok a, st') => k a st'
        | (Throw e, st') => (Throw e, st')
        end.
Definition gets {A} (f : State → A) : M A := λ st, (Ok (f st), st).
Definition modify (f : State → State) : M unit := λ st, (Ok tt, f st).

Notation "'let*' x ':=' m 'in' k" := (bind m (λ x, k))
  (at level 10, x name, m at level 100, k at level 200, only parsing).

(** ** The operations *)

Section useQuizCreation.

(** Parts of the application that are not among the sources, taken as
    parameters: the constant [MAX_QUESTIONS_PER_QUIZ_SECTION], the object
    validation [validateObject(q, QuizQuestion)] and
    [validateObject(quiz, Quiz)], and the default values that
    [objectWithDefaults] gives to the plain properties of a section and of
    a quiz. *)
Variable MAX_QUESTIONS_PER_QUIZ_SECTION : nat.
Variable validateQuizQuestion : QuizQuestion → bool.
Variable validateQuiz : QuizUpdates → bool.
Variable defaultSectionProps : gmap string value.
Variable defaultQuizProps : gmap string value.

(** Modelled from the spec: [objectWithDefaults] and the [QuizSection]
    specification are not among the sources; a section holds a list of
    questions, and a default section holds none. *)
Definition objectWithDefaults_QuizSection : QuizSection :=
  {| questions := QArray []; section_props := defaultSectionProps |}.

(** Modelled from the spec: [objectWithDefaults] and the [Quiz]
    specification are not among the sources; the properties given are
    kept, the others take their defaults, and the default list of
    sections is empty. *)
Definition objectWithDefaults_Quiz (o : QuizUpdates) : Quiz :=
  {| question_sources := default [] (qupd_question_sources o);
     quiz_props := qupd_props o ∪ defaultQuizProps |}.

(** The whole quiz seen as an object to validate. *)
Definition quiz_object (q : Quiz) : QuizUpdates :=
  {| qupd_question_sources := Some (question_sources q);
     qupd_props := quiz_props q |}.

(** *** Computed properties *)

Definition quiz (st : State) : Quiz := _quiz st.

Definition allSections (st : State) : list QuizSection :=
  question_sources (quiz st).

Definition activeSection (st : State) : option QuizSection :=
  js_index (allSections st) (activeSectionIndex st).

(** [get(activeSection)?.questions || []] *)
Definition activeQuestions (st : State) : list QuizQuestion :=
  match activeSection st with
  | Some s => match questions s with QArray l => l | QNull => [] end
  | None => []
  end.

Definition selectedActiveQuestions (st : State) : list string :=
  _selectedQuestionIds st.

(** Reading [section.questions] as an array: a method call or a spread
    on [null] throws a [TypeError]. *)
Definition questions_array (s : QuizSection) : result (list QuizQuestion) :=
  match questions s with
  | QArray l => Ok l
  | QNull => Throw TypeError
  end.

(** The [reduce] of [allQuestionsInQuiz]: [acc = [...acc, ...section.questions]]. *)
Fixpoint concat_questions (acc : list QuizQuestion) (l : list QuizSection)
  : result (list QuizQuestion) :=
  match l with
  | [] => Ok acc
  | s :: l' =>
      match questions_array s with
      | Ok qs => concat_questions (acc ++ qs) l'
      | Throw e => Throw e
      end
  end.

Definition allQuestionsInQuiz (st : State) : result (list QuizQuestion) :=
  concat_questions [] (allSections st).

(** *** Section management *)

(** [_exerciseMap[exercise.id] = exercise] for every exercise of the pool. *)
Definition cache_exercises (pool : list Exercise) (m : gmap string Exercise)
  : gmap string Exercise :=
  foldl (λ m e, <[ex_id e := e]> m) m pool.

(** An element of a questions array passes [validateObject(q, QuizQuestion)];
    [undefined] is not a QuizQuestion object. *)
Definition valid_element (q : option QuizQuestion) : bool :=
  match q with
  | Some q => validateQuizQuestion q
  | None => false
  end.

(** The checks of [updateSection] on [updates.questions].  They are made
    only when the value is truthy.  The result is the value that the
    spread will write into the section, if any. *)
Definition check_questions (q : option questions_arg)
  : result (option questions_value) :=
  match q with
  | None => Ok None
  | Some ArgNull => Ok (Some QNull)
  | Some ArgNonArray => Throw TypeError
  | Some (ArgArray l) =>
      if bool_decide (MAX_QUESTIONS_PER_QUIZ_SECTION < length l)%nat
      then Throw TypeError
      else if existsb (λ q, negb (valid_element q)) l then Throw TypeError
      else Ok (Some (QArray (omap id l)))
  end.

(** The [resourcePool] key of [updates] once the pool is cached: a truthy
    value is deleted from [updates], a key holding [undefined] stays. *)
Definition resourcePool_prop (u : SectionUpdates) : gmap string value :=
  match upd_resourcePool u with
  | Some None => {[ "resourcePool" := VUndefined ]}
  | _ => ∅
  end.

(** [{ ...targetSection, ...updates }] *)
Definition spread_section (target : QuizSection) (qs : option questions_value)
    (u : SectionUpdates) : QuizSection :=
  {| questions := default (questions target) qs;
     section_props := (resourcePool_prop u ∪ upd_props u) ∪ section_props target |}.

Definition updateSection (sectionIndex : Z) (updates : SectionUpdates) : M unit :=
  λ st0,
  let st := set_quizHasChanged true st0 in
  match js_index (allSections st) sectionIndex with
  | None => (Throw TypeError, st)
  | Some targetSection =>
      match check_questions (upd_questions updates) with
      | Throw e => (Throw e, st)
      | Ok qs =>
          let st :=
            match upd_resourcePool updates with
            | Some (Some resourcePool) =>
                set_exerciseMap (cache_exercises resourcePool (_exerciseMap st)) st
            | _ => st
            end in
          let _allSections := allSections st in
          (Ok tt,
           set_quiz
             {| question_sources :=
                  slice _allSections 0 sectionIndex
                  ++ [spread_section targetSection qs updates]
                  ++ slice_from _allSections (sectionIndex + 1)%Z;
                quiz_props := quiz_props (quiz st) |} st)
      end
  end.

(** [{ ...get(_quiz), ...updates }] *)
Definition spread_quiz (q : Quiz) (u : QuizUpdates) : Quiz :=
  {| question_sources := default (question_sources q) (qupd_question_sources u);
     quiz_props := qupd_props u ∪ quiz_props q |}.

Definition updateQuiz (updates : QuizUpdates) : M unit :=
  λ st0,
  let st := set_quizHasChanged true st0 in
  if negb (validateQuiz updates) then (Throw TypeError, st)
  else (Ok tt, set_quiz (spread_quiz (_quiz st) updates) st).

(** An update of [question_sources] alone. *)
Definition sections_update (l : list QuizSection) : QuizUpdates :=
  {| qupd_question_sources := Some l; qupd_props := ∅ |}.

Definition addSection : M QuizSection :=
  let newSection := objectWithDefaults_QuizSection in
  let* q := gets quiz in
  let* _ := updateQuiz (sections_update (question_sources q ++ [newSection])) in
  ret newSection.

Definition removeSection (sectionIndex : Z) : M unit :=
  let* sections := gets allSections in
  match js_index sections sectionIndex with
  | None => throw Error
  | Some _ =>
      let updatedSections :=
        slice sections 0 sectionIndex ++ slice_from sections (sectionIndex + 1)%Z in
      let* _ := updateQuiz (sections_update updatedSections) in
      let* sections' := gets allSections in
      if bool_decide (length sections' = 0)
      then (let* _ := addSection in ret tt)
      else ret tt
  end.

(** *** Quiz general *)

(** [initializeQuiz(collection, quizId)].  For an existing quiz, [fetched]
    is what the two requests to the server gave: the exam and the
    exercises of its questions, or [None] when a request failed. *)
Definition initializeQuiz (collection quizId : string)
    (fetched : option (QuizUpdates * list Exercise)) : M unit :=
  if bool_decide (quizId = "new") then
    let assignments := [collection] in
    let* _ := modify (set_quiz (objectWithDefaults_Quiz
                {| qupd_question_sources := None;
                   qupd_props := {[ "collection" := VStr collection;
                                    "assignments" := VStrs assignments ]} |})) in
    let* _ := addSection in
    modify (set_quizHasChanged false)
  else
    match fetched with
    | None => throw Rejection
    | Some (quiz, exercises) =>
        let* _ := modify (λ st, set_exerciseMap
                    (cache_exercises exercises (_exerciseMap st)) st) in
        let* _ := modify (set_quiz (objectWithDefaults_Quiz quiz)) in
        let* sections := gets allSections in
        let* _ := (if bool_decide (length sections = 0)
                   then (let* _ := addSection in ret tt) else ret tt) in
        modify (set_quizHasChanged false)
    end.

Definition fieldsToSave : list string :=
  [ "title"; "assignments"; "learner_ids"; "collection";
    "learners_see_fixed_order"; "instant_report_visibility";
    "draft"; "active"; "archive" ].

(** A question as an object with its five properties. *)
Definition question_object (q : QuizQuestion) : gmap string value :=
  {[ "exercise_id" := VStr (exercise_id q);
     "question_id" := VStr (question_id q);
     "title" := VStr (title q);
     "counter_in_exercise" := VNum (counter_in_exercise q);
     "item" := VStr (item q) ]}.

(** [{ ...question }] without [item]. *)
Definition questionToSave (q : QuizQuestion) : gmap string value :=
  delete "item" (question_object q).

(** [{ ...section }] without [section_id], its questions without [item]. *)
Definition sectionToSave (s : QuizSection) : result SavedSection :=
  rbind (questions_array s) (λ qs,
    Ok {| saved_questions := map questionToSave qs;
          saved_props := delete "section_id" (section_props s) |}).

(** [sections.map(f)] for an [f] that may throw. *)
Fixpoint map_result {A B} (f : A → result B) (l : list A) : result (list B) :=
  match l with
  | [] => Ok []
  | x :: l' =>
      rbind (f x) (λ y, rbind (map_result f l') (λ ys, Ok (y :: ys)))
  end.

(** The loop [finalQuiz[field] = quizData[field]] over [fieldsToSave]. *)
Definition copy_fields (quizData : gmap string value) : gmap string payload :=
  foldl (λ finalQuiz field, <[field := PValue (prop quizData field)]> finalQuiz)
        ∅ fieldsToSave.

(** The object [finalQuiz] that [saveQuiz] sends. *)
Definition finalQuiz (st : State) : result (gmap string payload) :=
  let quizData := quiz_props (_quiz st) in
  let final := copy_fields quizData in
  if truthy (prop quizData "draft") then
    rbind (map_result sectionToSave (allSections st)) (λ sections,
      Ok (<["question_sources" := PSections sections]> final))
  else Ok final.

(** [saveQuiz()], up to the call of [ExamResource.saveModel]: the request
    made is returned. *)
Definition saveQuiz : M SaveRequest :=
  λ st,
  if negb (validateQuiz (quiz_object (_quiz st))) then (Throw Rejection, st)
  else
    match finalQuiz st with
    | Throw e => (Throw e, st)
    | Ok data =>
        let request := {| req_id := prop (quiz_props (_quiz st)) "id";
                          req_data := data |} in
        (Ok request, log_saveModel request st)
    end.

(** The continuation of [saveQuiz], run when the server answers the
    request for [id] with [exam]. *)
Definition saveQuiz_then (id : value) (exam : Exam) : M Exam :=
  let* _ := (if bool_decide (id ≠ exam_id exam)
             then updateQuiz {| qupd_question_sources := None;
                                qupd_props := {[ "id" := exam_id exam ]} |}
             else ret tt) in
  let* _ := modify (set_quizHasChanged false) in
  ret exam.

(** *** Selection *)

Definition addQuestionsToSelection (ids : list string) : M unit :=
  modify (λ st, set_selectedQuestionIds (uniq (_selectedQuestionIds st ++ ids)) st).

Definition removeQuestionsFromSelection (ids : list string) : M unit :=
  modify (λ st, set_selectedQuestionIds
                  (filter (λ _id, _id ∉ ids) (_selectedQuestionIds st)) st).

Definition clearSelectedQuestions : M unit :=
  modify (set_selectedQuestionIds []).

Definition setQuestionItemsToReplace (item : option (list string)) : M unit :=
  modify (set_questionItemsToReplace item).

(** The route changes to another section: the watcher of
    [activeSectionIndex] clears the selection. *)
Definition navigate (sectionIndex : Z) : M unit :=
  λ st,
  if bool_decide (sectionIndex = activeSectionIndex st) then (Ok tt, st)
  else (Ok tt, set_selectedQuestionIds [] (set_activeSectionIndex sectionIndex st)).

Definition deleteActiveSelectedQuestions : M unit :=
  λ st,
  let sectionIndex := activeSectionIndex st in
  match activeSection st with
  | None => (Throw TypeError, st)
  | Some section =>
      match questions_array section with
      | Throw e => (Throw e, st)
      | Ok section_questions =>
          let selectedIds := selectedActiveQuestions st in
          let qs := filter (λ q, item q ∉ selectedIds) section_questions in
          bind (updateSection sectionIndex
                  {| upd_questions := Some (ArgArray (map Some qs));
                     upd_resourcePool := None; upd_props := ∅ |})
               (λ _, modify (set_selectedQuestionIds [])) st
      end
  end.

(** *** Questions and exercises *)

(** The composite key [`${exercise.id}:${aid}`] of a question. *)
Definition composite (exercise_id aid : string) : string :=
  exercise_id ++ ":" ++ aid.

(** Modelled from the spec: [exerciseToQuestionArray] (selectQuestions.js)
    is not among the sources; a question is a reference into the
    assessment items of an exercise, and its item is the composite key
    [exercise_id:assessment_item_id]. *)
Definition exerciseToQuestionArray (exercise : Exercise) : list QuizQuestion :=
  imap (λ i question_id,
          {| exercise_id := ex_id exercise;
             question_id := question_id;
             title := "";
             counter_in_exercise := Z.of_nat i + 1;
             item := composite (ex_id exercise) question_id |})
       (assessment_item_ids exercise).

(** The seeded shuffle used by the selection of questions; it is not among
    the sources. *)
Variable seededShuffle : Z → list QuizQuestion → list QuizQuestion.

(** Modelled from the spec: [selectQuestions] (selectQuestions.js) is not
    among the sources; it is a randomized sampling of the questions of the
    exercises with exclusion filtering, and selecting N questions from a
    pool of size smaller than N throws. *)
Definition selectQuestions (numQuestions : Z) (exercises : list Exercise)
    (seed : Z) (excludedQuestionIds : list string) : result (list QuizQuestion) :=
  let available :=
    filter (λ q, item q ∉ excludedQuestionIds)
           (concat (map exerciseToQuestionArray exercises)) in
  if bool_decide (Z.of_nat (length available) < numQuestions)%Z then Throw Error
  else Ok (take (Z.to_nat numQuestions) (seededShuffle seed available)).

(** [addQuestionsToSectionFromResources]; [seed] is the value of
    [Math.floor(Math.random() * 1000)]. *)
Definition addQuestionsToSectionFromResources (sectionIndex : Z)
    (resourcePool : option (list Exercise)) (questionCount : option Z)
    (seed : Z) : M unit :=
  λ st,
  match js_index (allSections st) sectionIndex with
  | None => (Throw TypeError, st)
  | Some targetSection =>
      match resourcePool with
      | None | Some [] => (Throw TypeError, st)
      | Some pool =>
          match questionCount with
          | None => (Throw TypeError, st)
          | Some count =>
              if bool_decide (count = 0 ∨ count < 1)%Z then (Throw TypeError, st)
              else
                match
                  rbind (allQuestionsInQuiz st) (λ all,
                  rbind (selectQuestions count pool seed (map item all)) (λ newQuestions,
                  rbind (questions_array targetSection) (λ old,
                    Ok (old ++ newQuestions))))
                with
                | Throw e => (Throw e, st)
                | Ok qs =>
                    updateSection sectionIndex
                      {| upd_questions := Some (ArgArray (map Some qs));
                         upd_resourcePool := Some (Some pool);
                         upd_props := ∅ |} st
                end
          end
      end
  end.

(** The [map] of [_replaceQuestions]: a question whose item is listed is
    replaced by [replacements.shift()], which is [undefined] once the
    replacements are used up. *)
Fixpoint replace_map (baseQuestions : list QuizQuestion)
    (questionItemsToReplace : list string) (replacements : list QuizQuestion)
  : list (option QuizQuestion) :=
  match baseQuestions with
  | [] => []
  | question :: rest =>
      if includes questionItemsToReplace (item question)
      then head replacements
           :: replace_map rest questionItemsToReplace (tail replacements)
      else Some question :: replace_map rest questionItemsToReplace replacements
  end.

Definition _replaceQuestions (baseQuestions : list QuizQuestion)
    (questionItemsToReplace : list string) (replacements : list QuizQuestion)
  : result (list (option QuizQuestion)) :=
  if bool_decide (length questionItemsToReplace ≠ length replacements)
  then Throw TypeError
  else Ok (replace_map baseQuestions questionItemsToReplace replacements).

(** [addQuestionsToSection({ sectionIndex, questions, resources,
    questionItemsToReplace })]; [None] is an argument left [undefined]. *)
Definition addQuestionsToSection (sectionIndex : Z)
    (qs : option (list QuizQuestion)) (resources : option (list Exercise))
    (questionItemsToReplace : option (list string)) : M unit :=
  λ st,
  match js_index (allSections st) sectionIndex with
  | None => (Throw TypeError, st)
  | Some targetSection =>
      match qs with
      | None | Some [] => (Throw TypeError, st)
      | Some qs =>
          match
            rbind (questions_array targetSection) (λ old,
              let newQuestions := filter (λ q, item q ∉ map item old) qs in
              match questionItemsToReplace with
              | Some (i :: items) =>
                  _replaceQuestions old (i :: items) newQuestions
              | _ => Ok (map Some (old ++ newQuestions))
              end)
          with
          | Throw e => (Throw e, st)
          | Ok questionsToAdd =>
              updateSection sectionIndex
                {| upd_questions := Some (ArgArray questionsToAdd);
                   upd_resourcePool := Some resources;
                   upd_props := ∅ |} st
          end
      end
  end.

(** [map[k]] and [map[k] = v] on an object whose keys are kept in the
    order of their insertion. *)
Fixpoint assoc_get {V} (map : list (string * V)) (k : string) : option V :=
  match map with
  | [] => None
  | (k', v) :: rest => if bool_decide (k' = k) then Some v else assoc_get rest k
  end.

Fixpoint assoc_set {V} (map : list (string * V)) (k : string) (v : V)
  : list (string * V) :=
  match map with
  | [] => [(k, v)]
  | (k', v') :: rest =>
      if bool_decide (k' = k) then (k, v) :: rest
      else (k', v') :: assoc_set rest k v
  end.

(** The exercises of the questions of the active section, by exercise id;
    an exercise that is not in the cache is [undefined] ([None]). *)
Definition activeResourceMap (st : State) : list (string * option Exercise) :=
  foldl (λ map question,
           match assoc_get map (exercise_id question) with
           | Some (Some _) => map
           | _ => assoc_set map (exercise_id question)
                    (_exerciseMap st !! exercise_id question)
           end)
        [] (activeQuestions st).


(** The unused questions of one exercise: the filter reads
    [allQuestionsInQuiz] when it looks at its first candidate. *)
Definition unusedQuestions (st : State) (exercise : Exercise)
  : result (list string) :=
  match map (composite (ex_id exercise)) (assessment_item_ids exercise) with
  | [] => Ok []
  | candidates =>
      rbind (allQuestionsInQuiz st) (λ all,
        Ok (filter (λ qid, find (λ q, bool_decide (item q = qid)) all = None)
                   candidates))
  end.

(** The loop of [activeExercisesUnusedQuestionsMap] over the values of
    the active resource map. *)
Fixpoint unused_loop (st : State) (exercises : list (option Exercise))
    (map : gmap string (list string)) : result (gmap string (list string)) :=
  match exercises with
  | [] => Ok map
  | None :: _ => Throw TypeError
  | Some exercise :: rest =>
      rbind (unusedQuestions st exercise) (λ unused,
        unused_loop st rest (<[ex_id exercise := unused]> map))
  end.

Definition activeExercisesUnusedQuestionsMap (st : State)
  : result (gmap string (list string)) :=
  unused_loop st (map snd (activeResourceMap st)) ∅.

(** The [forEach] of [autoReplaceQuestions] over the exercises of the
    questions to replace: the unused questions of each exercise, shuffled.
    [shuffled] is the random shuffle of this call. *)
Fixpoint shuffle_unused (shuffled : list string → list string) (st : State)
    (exercises : list string)
    (map : gmap string (list (option QuizQuestion)))
  : result (gmap string (list (option QuizQuestion))) :=
  match exercises with
  | [] => Ok map
  | exerciseId :: rest =>
      rbind (activeExercisesUnusedQuestionsMap st) (λ unusedMap,
        match unusedMap !! exerciseId with
        | None | Some [] => Throw Error
        | Some unusedQuestions =>
            let shuffledQuestionItems := shuffled unusedQuestions in
            match _exerciseMap st !! exerciseId with
            | None => Throw TypeError
            | Some exercise =>
                let exerciseQuestions := exerciseToQuestionArray exercise in
                let shuffledQuestions :=
                  List.map (λ item',
                              find (λ q, bool_decide (item q = item')) exerciseQuestions)
                           shuffledQuestionItems in
                shuffle_unused shuffled st rest (<[exerciseId := shuffledQuestions]> map)
            end
        end)
  end.

(** The [map] of [autoReplaceQuestions] over the questions to replace:
    each takes, with [pop], the last unused question of its exercise. *)
Fixpoint pop_unused (map : gmap string (list (option QuizQuestion)))
    (questionsToReplace : list QuizQuestion) : result (list QuizQuestion) :=
  match questionsToReplace with
  | [] => Ok []
  | question :: rest =>
      let exerciseId := exercise_id question in
      match map !! exerciseId with
      | None => Throw TypeError
      | Some unusedQuestions =>
          match last unusedQuestions with
          | Some (Some newQuestion) =>
              rbind (pop_unused (<[exerciseId := removelast unusedQuestions]> map) rest)
                    (λ news, Ok (newQuestion :: news))
          | _ => Throw Error
          end
      end
  end.

(** The questions of the active section that [autoReplaceQuestions] is to
    replace: for each listed item in turn, the first active question with
    this item, if any. *)
Definition questionsToReplace (st : State) (questionItems : list string)
  : list QuizQuestion :=
  omap (λ questionItem,
          find (λ q, bool_decide (item q = questionItem)) (activeQuestions st))
       questionItems.

(** [autoReplaceQuestions(questionItems)]; [shuffled] is the random
    shuffle of this call. *)
Definition autoReplaceQuestions (shuffled : list string → list string)
    (questionItems : list string) : M unit :=
  λ st,
  match questionItems with
  | [] => (Ok tt, st)
  | _ =>
      let questionsToReplace := questionsToReplace st questionItems in
      let exercises := uniq (List.map exercise_id questionsToReplace) in
      match
        rbind (shuffle_unused shuffled st exercises ∅) (λ shuffledMap,
        rbind (pop_unused shuffledMap questionsToReplace) (λ newQuestions,
          let questionItemsToReplace := List.map item questionsToReplace in
          let baseQuestions := activeQuestions st in
          _replaceQuestions baseQuestions questionItemsToReplace newQuestions))
      with
      | Throw e => (Throw e, st)
      | Ok questionsToAdd =>
          updateSection (activeSectionIndex st)
            {| upd_questions := Some (ArgArray questionsToAdd);
               upd_resourcePool := None; upd_props := ∅ |} st
      end
  end.

(** *** Further computed properties *)

(** [allSections.slice(0, i).concat(allSections.slice(i + 1))] for the
    active index [i]. *)
Definition inactiveSections (st : State) : list QuizSection :=
  slice (allSections st) 0 (activeSectionIndex st)
  ++ slice_from (allSections st) (activeSectionIndex st + 1)%Z.

(** [_quiz.value && _exerciseMap]: the quiz is an object, so the value is
    the cache. *)
Definition allResourceMap (st : State) : gmap string Exercise :=
  _exerciseMap st.

(** [sections.every(section => section.questions.length === 0)]: the
    sections are looked at in order, up to the first one that holds a
    question; reading the length of [null] throws. *)
Fixpoint every_empty (sections : list QuizSection) : result bool :=
  match sections with
  | [] => Ok true
  | section :: rest =>
      match questions section with
      | QNull => Throw TypeError
      | QArray [] => every_empty rest
      | QArray (_ :: _) => Ok false
      end
  end.

Definition allSectionsEmpty (st : State) : result bool :=
  every_empty (allSections st).

Definition noQuestionsSelected (st : State) : bool :=
  bool_decide (length (selectedActiveQuestions st) = 0%nat).

(** *** The operations as steps *)

(** A call of an operation of the composable with its arguments, or an
    event that the composable reacts to. *)
Inductive operation :=
| OpInitializeQuiz (collection quizId : string)
    (fetched : option (QuizUpdates * list Exercise))
| OpSaveQuiz
| OpSaveQuizThen (id : value) (exam : Exam)
| OpUpdateQuiz (updates : QuizUpdates)
| OpUpdateSection (sectionIndex : Z) (updates : SectionUpdates)
| OpAddQuestionsToSection (sectionIndex : Z) (qs : option (list QuizQuestion))
    (resources : option (list Exercise))
    (questionItemsToReplace : option (list string))
| OpAddQuestionsToSectionFromResources (sectionIndex : Z)
    (resourcePool : option (list Exercise)) (questionCount : option Z) (seed : Z)
| OpAutoReplaceQuestions (shuffled : list string → list string)
    (questionItems : list string)
| OpDeleteActiveSelectedQuestions
| OpAddSection
| OpRemoveSection (sectionIndex : Z)
| OpAddQuestionsToSelection (ids : list string)
| OpRemoveQuestionsFromSelection (ids : list string)
| OpClearSelectedQuestions
| OpSetQuestionItemsToReplace (item : option (list string))
| OpNavigate (sectionIndex : Z).

(** Whether the operation threw, and the state it left. *)
Definition outcome {A} (r : result A * State) : result unit * State :=
  (rbind r.1 (λ _, Ok tt), r.2).

Definition run (op : operation) (st : State) : result unit * State :=
  match op with
  | OpInitializeQuiz c q f => initializeQuiz c q f st
  | OpSaveQuiz => outcome (saveQuiz st)
  | OpSaveQuizThen id exam => outcome (saveQuiz_then id exam st)
  | OpUpdateQuiz u => updateQuiz u st
  | OpUpdateSection i u => updateSection i u st
  | OpAddQuestionsToSection i qs r items => addQuestionsToSection i qs r items st
  | OpAddQuestionsToSectionFromResources i pool n seed =>
      addQuestionsToSectionFromResources i pool n seed st
  | OpAutoReplaceQuestions sh items => autoReplaceQuestions sh items st
  | OpDeleteActiveSelectedQuestions => deleteActiveSelectedQuestions st
  | OpAddSection => outcome (addSection st)
  | OpRemoveSection i => removeSection i st
  | OpAddQuestionsToSelection ids => addQuestionsToSelection ids st
  | OpRemoveQuestionsFromSelection ids => removeQuestionsFromSelection ids st
  | OpClearSelectedQuestions => clearSelectedQuestions st
  | OpSetQuestionItemsToReplace i => setQuestionItemsToReplace i st
  | OpNavigate i => navigate i st
  end.

(** The state of a composable that was just created. *)
Definition initial_state (sectionIndex : Z) : State :=
  {| _quiz := objectWithDefaults_Quiz {| qupd_question_sources := None;
                                          qupd_props := ∅ |};
     quizHasChanged := false;
     _selectedQuestionIds := [];
     _exerciseMap := ∅;
     _questionItemsToReplace := None;
     activeSectionIndex := sectionIndex;
     saveModel_calls := [] |}.

(** The states that a composable can be in. *)
Inductive reachable : State → Prop :=
| reachable_initial i : reachable (initial_state i)
| reachable_step op st : reachable st → reachable (run op st).2.


(** ** The resource selection panel ([QuizResourceSelection]) *)

(** The side panel in which resources and questions are chosen for the
    active section.  It calls [updateSection], [addSection],
    [addQuestionsToSection], [addQuestionsToSectionFromResources],
    [clearSelectedQuestions] and [setQuestionItemsToReplace] of the
    composable. *)

(** The settings of a selection session.  [maxQuestions] and
    [questionCount] are numbers or [null] ([None]); [isChoosingManually]
    and [selectPracticeQuiz] are read for their truthiness only. *)
Record Settings := {
  maxQuestions : option Z;
  settings_questionCount : option Z;
  isChoosingManually : bool;
  selectPracticeQuiz : bool;
  isInReplaceMode : bool;
  settings_questionItemsToReplace : option (list string);
}.

(** The state of the panel: the [selectPracticeQuiz] of the query of the
    route, read when the panel is set up, the settings, the exercises
    chosen so far ([workingResourcePool]) and the questions chosen so far
    ([workingQuestions]). *)
Record Panel := {
  query_selectPracticeQuiz : bool;
  settings : Settings;
  workingResourcePool : list Exercise;
  workingQuestions : list QuizQuestion;
}.

(** A number or [null] in a comparison: [null] counts as 0. *)
Definition number (n : option Z) : Z := default 0%Z n.

Definition removeFromWorkingResourcePool (resources : list Exercise) (p : Panel)
  : Panel :=
  {| query_selectPracticeQuiz := query_selectPracticeQuiz p;
     settings := settings p;
     workingResourcePool :=
       filter (λ obj, ¬ Exists (λ r, ex_id r = ex_id obj) resources)
              (workingResourcePool p);
     workingQuestions := workingQuestions p |}.

Definition setWorkingResourcePool (resources : list Exercise) (p : Panel) : Panel :=
  {| query_selectPracticeQuiz := query_selectPracticeQuiz p;
     settings := settings p;
     workingResourcePool := resources;
     workingQuestions := workingQuestions p |}.

Definition removeFromWorkingQuestions (questions : list QuizQuestion) (p : Panel)
  : Panel :=
  let p1 :=
    {| query_selectPracticeQuiz := query_selectPracticeQuiz p;
       settings := settings p;
       workingResourcePool := workingResourcePool p;
       workingQuestions :=
         filter (λ obj, ¬ Exists (λ r, item r = item obj) questions)
                (workingQuestions p) |} in
  let resourcesToRemove :=
    filter (λ r, ¬ Exists (λ q, exercise_id q = ex_id r) (workingQuestions p1))
           (workingResourcePool p1) in
  removeFromWorkingResourcePool resourcesToRemove p1.

(** The number of questions of [content] that are neither in the quiz nor
    among the working questions; the quiz is read when the first question
    of [content] is looked at. *)
Definition unusedQuestionsCount (st : State) (p : Panel) (content : Exercise)
  : result nat :=
  match map (composite (ex_id content)) (assessment_item_ids content) with
  | [] => Ok 0%nat
  | questionItems =>
      rbind (allQuestionsInQuiz st) (λ all,
        let questionsItemsUnused :=
          filter (λ questionItem,
                    ¬ Exists (λ q, item q = questionItem) (workingQuestions p))
            (filter (λ questionItem, ¬ Exists (λ q, item q = questionItem) all)
                    questionItems) in
        Ok (length questionsItemsUnused))
  end.

Definition workingPoolHasChanged (p : Panel) : bool :=
  negb (bool_decide (length (workingResourcePool p) = 0%nat)).

(** The [reduce] of [workingPoolQuestionsCount]. *)
Fixpoint count_unused (st : State) (p : Panel) (acc : nat)
    (pool : list Exercise) : result nat :=
  match pool with
  | [] => Ok acc
  | content :: rest =>
      rbind (unusedQuestionsCount st p content) (λ n,
        count_unused st p (acc + n) rest)
  end.

Definition workingPoolQuestionsCount (st : State) (p : Panel) : result nat :=
  if isChoosingManually (settings p) then Ok (length (workingQuestions p))
  else count_unused st p 0 (workingResourcePool p).

Definition tooManyQuestions (p : Panel) : bool :=
  if isChoosingManually (settings p)
  then bool_decide (number (settings_questionCount (settings p))
                    < Z.of_nat (length (workingQuestions p)))%Z
  else bool_decide (number (settings_questionCount (settings p))
                    < Z.of_nat (length (workingResourcePool p)))%Z.

(** Whether the save button is disabled. *)
Definition disableSave (st : State) (p : Panel) : result bool :=
  let s := settings p in
  if query_selectPracticeQuiz p then Ok (negb (workingPoolHasChanged p))
  else
    let disabledConditions :=
      [ negb (workingPoolHasChanged p);
        bool_decide (number (settings_questionCount s) < 1)%Z;
        tooManyQuestions p;
        bool_decide (number (maxQuestions s)
                     < number (settings_questionCount s))%Z ] in
    if negb (isChoosingManually s) || isInReplaceMode s then
      rbind (workingPoolQuestionsCount st p) (λ count,
        Ok (existsb id
              (disabledConditions
               ++ [bool_decide (Z.of_nat count
                                < number (settings_questionCount s))%Z])))
    else Ok (existsb id disabledConditions).

(** The count that the notification of [notifyChanges] shows:
    [workingQuestions.length || settings.questionCount]. *)
Definition notifyChanges (p : Panel) : option Z :=
  match workingQuestions p with
  | [] => settings_questionCount (settings p)
  | l => Some (Z.of_nat (length l))
  end.

(** [handleClosePanel]: the working pool is emptied, the items to replace
    are set to the empty array and the panel is left for the page of the
    section, whose index stays the same. *)
Definition handleClosePanel (p : Panel) : M Panel :=
  let p := setWorkingResourcePool [] p in
  let* _ := setQuestionItemsToReplace (Some []) in
  ret p.

(** The [while] loop of [saveSelectedResource] for a practice quiz:
    [remainder.splice(0, MAX_QUESTIONS_PER_QUIZ_SECTION)] goes to the
    section at [sectionIndex], a new section being added first for every
    index but the active one.  The result tells whether the loop has ended
    within [fuel] rounds. *)
Fixpoint fill_sections (fuel : nat) (pool : list Exercise)
    (remainder : list QuizQuestion) (sectionIndex : Z) : M bool :=
  match remainder with
  | [] => ret true
  | _ :: _ =>
      match fuel with
      | O => ret false
      | S fuel =>
          let* active := gets activeSectionIndex in
          let* _ := (if bool_decide (sectionIndex ≠ active)
                     then (let* _ := addSection in ret tt)
                     else ret tt) in
          let questions := take MAX_QUESTIONS_PER_QUIZ_SECTION remainder in
          let remainder := drop MAX_QUESTIONS_PER_QUIZ_SECTION remainder in
          let* _ := updateSection sectionIndex
                      {| upd_questions := Some (ArgArray (map Some questions));
                         upd_resourcePool := Some (Some pool);
                         upd_props := ∅ |} in
          fill_sections fuel pool remainder (sectionIndex + 1)%Z
      end
  end.

(** [saveSelectedResource()].  [seed] is the random seed of
    [addQuestionsToSectionFromResources].  The result is [None] when the
    loop for a practice quiz has not ended within [fuel] rounds, and
    otherwise the panel as it is left with the count that was notified. *)
Definition saveSelectedResource (fuel : nat) (seed : Z) (p : Panel)
  : M (option (Panel * option Z)) :=
  let s := settings p in
  let* sectionIndex := gets activeSectionIndex in
  let* ended :=
    (if selectPracticeQuiz s then
       match workingResourcePool p with
       | [exercise] =>
           fill_sections fuel (workingResourcePool p)
             (exerciseToQuestionArray exercise) sectionIndex
       | _ => throw Error
       end
     else if isChoosingManually s then
       let* _ := addQuestionsToSection sectionIndex
                   (Some (workingQuestions p)) (Some (workingResourcePool p))
                   (settings_questionItemsToReplace s) in
       ret true
     else
       let* _ := addQuestionsToSectionFromResources sectionIndex
                   (Some (workingResourcePool p)) (settings_questionCount s) seed in
       ret true) in
  if ended then
    let* _ := (if isInReplaceMode s then clearSelectedQuestions else ret tt) in
    let notified := notifyChanges p in
    let* p := handleClosePanel p in
    ret (Some (p, notified))
  else ret None.

(** [beforeRouteLeave]: [show] is [showCloseConfirmation].  The result
    tells whether the navigation goes on ([next()]) or is aborted
    ([next(false)]), with the new value of [showCloseConfirmation]. *)
Definition beforeRouteLeave (show : bool) (p : Panel) : bool * bool :=
  if negb show && workingPoolHasChanged p then (false, true)
  else (true, show).

(** ** Vocabulary of the properties *)

(** The state that [updateSection] leaves when it returns. *)
Definition updated (sectionIndex : Z) (updates : SectionUpdates)
    (target : QuizSection) (qs : option questions_value) (st : State) : State :=
  {| _quiz := {| question_sources :=
                   <[Z.to_nat sectionIndex := spread_section target qs updates]>
                     (allSections st);
                 quiz_props := quiz_props (_quiz st) |};
     quizHasChanged := true;
     _selectedQuestionIds := _selectedQuestionIds st;
     _exerciseMap :=
       match upd_resourcePool updates with
       | Some (Some resourcePool) => cache_exercises resourcePool (_exerciseMap st)
       | _ => _exerciseMap st
       end;
     _questionItemsToReplace := _questionItemsToReplace st;
     activeSectionIndex := activeSectionIndex st;
     saveModel_calls := saveModel_calls st |}.

(** A section holds at most [MAX_QUESTIONS_PER_QUIZ_SECTION] questions
    (a section whose [questions] is [null] holds none). *)
Definition section_bounded (s : QuizSection) : Prop :=
  match questions s with
  | QArray l => (length l ≤ MAX_QUESTIONS_PER_QUIZ_SECTION)%nat
  | QNull => True
  end.

Definition sections_bounded (st : State) : Prop :=
  Forall section_bounded (allSections st).

(** The operations by which a quiz is authored once it is initialized:
    all of them but [initializeQuiz] and the raw [updateQuiz]. *)
Definition authoring_operation (op : operation) : bool :=
  match op with
  | OpInitializeQuiz _ _ _ | OpUpdateQuiz _ => false
  | _ => true
  end.

(** The states of a quiz being authored: a new quiz, or a quiz loaded from
    the server whose sections are within the bound, followed by authoring
    operations. *)
Inductive authored : State → Prop :=
| authored_new collection fetched st :
    authored (run (OpInitializeQuiz collection "new" fetched) st).2
| authored_loaded collection quizId exam exercises st :
    quizId ≠ "new" →
    Forall section_bounded (default [] (qupd_question_sources exam)) →
    authored (run (OpInitializeQuiz collection quizId (Some (exam, exercises))) st).2
| authored_step op st :
    authoring_operation op = true → authored st → authored (run op st).2.

(** Every run of [m] relates the state before to the state after by [R],
    whether [m] returns or throws. *)
Definition preserves {A} (R : State → State → Prop) (m : M A) : Prop :=
  ∀ st, R st (m st).2.

(** A relation on caches, between the caches of two states. *)
Definition cache_related (Rc : relation (gmap string Exercise))
    (st st' : State) : Prop :=
  Rc (_exerciseMap st) (_exerciseMap st').

(** An exercise id that is mapped stays mapped. *)
Definition mapped_stays (m m' : gmap string Exercise) : Prop :=
  ∀ id, is_Some (m !! id) → is_Some (m' !! id).

(** Every exercise of the cache is cached under its own id. *)
Definition cache_keyed (m : gmap string Exercise) : Prop :=
  ∀ k e, m !! k = Some e → ex_id e = k.

Definition keyed_kept (m m' : gmap string Exercise) : Prop :=
  cache_keyed m → cache_keyed m'.

(** The number of questions before position [i] whose item is listed:
    the number of replacements that [_replaceQuestions] has taken when it
    reaches position [i]. *)
Definition listed_before (baseQuestions : list QuizQuestion)
    (questionItemsToReplace : list string) (i : nat) : nat :=
  length (filter (λ q, item q ∈ questionItemsToReplace) (take i baseQuestions)).

(** Every section of the quiz holds an array of questions. *)
Definition sections_hold_arrays (st : State) : Prop :=
  Forall (λ s, questions s ≠ QNull) (allSections st).


(** The items of the questions of a section, and of the whole quiz. *)
Definition section_items (s : QuizSection) : list string :=
  match questions s with
  | QArray l => map item l
  | QNull => []
  end.

Definition quiz_items (st : State) : list string :=
  concat (map section_items (allSections st)).

(** The questions of a resource pool that are not used in the quiz. *)
Definition available_questions (st : State) (pool : list Exercise)
  : list QuizQuestion :=
  filter (λ q, item q ∉ quiz_items st)
         (concat (map exerciseToQuestionArray pool)).

(** What the loop of [activeResourceMap] keeps true of the map it builds:
    its keys are pairwise distinct and the value of a key is what the cache
    holds for it. *)
Definition resource_map_ok (st : State) (m : list (string * option Exercise))
  : Prop :=
  NoDup (map fst m) ∧ ∀ k v, (k, v) ∈ m → v = _exerciseMap st !! k.

(** The composite keys of the assessment items of an exercise that are not
    items of questions of the quiz. *)
Definition unused_composites (st : State) (exercise : Exercise) : list string :=
  filter (λ qid, qid ∉ quiz_items st)
         (map (composite (ex_id exercise)) (assessment_item_ids exercise)).

(** The items of the questions are unique across the sections of the quiz. *)
Definition unique_items (st : State) : Prop := NoDup (quiz_items st).

(** The items of the questions of the sections other than the one at
    [sectionIndex]. *)
Definition other_items (st : State) (sectionIndex : Z) : list string :=
  concat (map section_items (delete (Z.to_nat sectionIndex) (allSections st))).

(** The questions [l] have pairwise distinct items, none of which is used
    in a section other than the one at [sectionIndex]. *)
Definition fresh_for (st : State) (sectionIndex : Z) (l : list QuizQuestion)
  : Prop :=
  NoDup (map item l) ∧ ∀ q, q ∈ l → item q ∉ other_items st sectionIndex.

(** The composite keys of the questions of the cached exercises are
    pairwise distinct, within an exercise and across exercises. *)
Definition distinct_composites (m : gmap string Exercise) : Prop :=
  (∀ E e, m !! E = Some e → NoDup (map item (exerciseToQuestionArray e)))
  ∧ (∀ E1 E2 e1 e2 x,
       E1 ≠ E2 → m !! E1 = Some e1 → m !! E2 = Some e2 →
       x ∈ map item (exerciseToQuestionArray e1) →
       x ∉ map item (exerciseToQuestionArray e2)).

(** The items of the questions that remain to be drawn for an exercise in
    the map that [autoReplaceQuestions] pops from. *)
Definition slot_items (m : gmap string (list (option QuizQuestion)))
    (exerciseId : string) : list string :=
  match m !! exerciseId with
  | Some l => map item (omap id l)
  | None => []
  end.

Definition slots_distinct (m : gmap string (list (option QuizQuestion))) : Prop :=
  (∀ E, NoDup (slot_items m E))
  ∧ (∀ E E' x, E ≠ E' → x ∈ slot_items m E → x ∉ slot_items m E').

(** What an operation must be given for the items to stay unique: the
    questions given to [updateSection] and to [addQuestionsToSection] are
    fresh for the section; the exercises that questions are drawn from have
    pairwise distinct composite keys, and the shuffles are permutations.
    The other operations need nothing. *)
Definition supplies_fresh_questions (op : operation) (st : State) : Prop :=
  match op with
  | OpUpdateSection i u =>
      ∀ l, upd_questions u = Some (ArgArray l) → fresh_for st i (omap id l)
  | OpAddQuestionsToSection i qs _ _ =>
      ∀ l, qs = Some l → fresh_for st i l
  | OpAddQuestionsToSectionFromResources _ pool _ seed =>
      (∀ l, seededShuffle seed l ≡ₚ l)
      ∧ ∀ p, pool = Some p →
             NoDup (map item (concat (map exerciseToQuestionArray p)))
  | OpAutoReplaceQuestions shuffled _ =>
      (∀ l, shuffled l ≡ₚ l) ∧ distinct_composites (_exerciseMap st)
  | _ => True
  end.

(** The states of a quiz authored with fresh questions: a new quiz,
    followed by authoring operations that are given fresh questions. *)
Inductive authored_fresh : State → Prop :=
| authored_fresh_new collection fetched st :
    reachable st →
    authored_fresh (run (OpInitializeQuiz collection "new" fetched) st).2
| authored_fresh_step op st :
    authoring_operation op = true →
    supplies_fresh_questions op st →
    authored_fresh st →
    authored_fresh (run op st).2.

(** ** Sample data for the concrete runs *)

(** Validations that accept every object, as parameters of the runs. *)
Definition accept_question (_ : QuizQuestion) : bool := true.
Definition accept_quiz (_ : QuizUpdates) : bool := true.

(** A seeded shuffle that keeps the order, and the reversal as the shuffle
    of a call of [autoReplaceQuestions]. *)
Definition keep_order (_ : Z) (l : list QuizQuestion) : list QuizQuestion := l.
Definition reversed (l : list string) : list string := reverse l.

(** Two exercises with two assessment items each, and their questions. *)
Definition exercise_1 : Exercise :=
  {| ex_id := "e1"; assessment_item_ids := ["a"; "b"] |}.
Definition exercise_2 : Exercise :=
  {| ex_id := "e2"; assessment_item_ids := ["c"; "d"] |}.

Definition question_of (exercise aid : string) (n : Z) : QuizQuestion :=
  {| exercise_id := exercise; question_id := aid; title := "";
     counter_in_exercise := n; item := composite exercise aid |}.

Definition question_1a : QuizQuestion := question_of "e1" "a" 1.
Definition question_1b : QuizQuestion := question_of "e1" "b" 2.
Definition question_2c : QuizQuestion := question_of "e2" "c" 1.
Definition question_2d : QuizQuestion := question_of "e2" "d" 2.

(** An update of the questions of a section alone. *)
Definition questions_update (qs : questions_arg) : SectionUpdates :=
  {| upd_questions := Some qs; upd_resourcePool := None; upd_props := ∅ |}.

(** A state with the given sections and cache, nothing selected. *)
Definition state_of (sections : list QuizSection) (props : gmap string value)
    (cache : gmap string Exercise) (active : Z) : State :=
  {| _quiz := {| question_sources := sections; quiz_props := props |};
     quizHasChanged := false;
     _selectedQuestionIds := [];
     _exerciseMap := cache;
     _questionItemsToReplace := None;
     activeSectionIndex := active;
     saveModel_calls := [] |}.

Definition section_of (qs : list QuizQuestion) : QuizSection :=
  {| questions := QArray qs; section_props := {[ "section_id" := VStr "s" ]} |}.

(** The number of the questions to replace that belong to an exercise. *)
Definition replaced_in (exerciseId : string) (qs : list QuizQuestion) : nat :=
  length (filter (λ q, exercise_id q = exerciseId) qs).

(** ** Vocabulary of the further properties *)

(** The questions that a section holds (none when [questions] is [null]). *)
Definition section_questions (s : QuizSection) : list QuizQuestion :=
  match questions s with
  | QArray l => l
  | QNull => []
  end.

(** The last exercise of a pool that has the given id: the one that the
    cache holds once the pool is cached. *)
Definition last_with_id (pool : list Exercise) (id : string) : option Exercise :=
  find (λ e, bool_decide (ex_id e = id)) (reverse pool).

(** The operations that neither add nor remove a section: all of them
    but [initializeQuiz], the raw [updateQuiz], [addSection] and
    [removeSection]. *)
Definition keeps_sections (op : operation) : bool :=
  match op with
  | OpInitializeQuiz _ _ _ | OpUpdateQuiz _ | OpRemoveSection _
  | OpAddSection => false
  | _ => true
  end.

#[global] Instance Quiz_eq_dec : EqDecision Quiz.
Proof. solve_decision. Defined.

(** The quiz has changed only if [quizHasChanged] is set, and
    [quizHasChanged] stays set. *)
Definition change_marked (st st' : State) : Prop :=
  (_quiz st' ≠ _quiz st → quizHasChanged st' = true)
  ∧ (quizHasChanged st = true → quizHasChanged st' = true).


(** The operations after which the quiz counts as saved or as just
    loaded: they reset [quizHasChanged]. *)
Definition resets_changed (op : operation) : bool :=
  match op with
  | OpInitializeQuiz _ _ _ | OpSaveQuizThen _ _ => true
  | _ => false
  end.

(** The chunks that [splice(0, n)] takes from a list, one per round,
    for at most [fuel] rounds. *)
Fixpoint chunked {A} (n fuel : nat) (l : list A) : list (list A) :=
  match l, fuel with
  | [], _ | _, O => []
  | _ :: _, S fuel => take n l :: chunked n fuel (drop n l)
  end.

(** What the operations on sections leave alone: the active index, the
    selection and the items to replace. *)
Definition same_session (st st' : State) : Prop :=
  activeSectionIndex st' = activeSectionIndex st
  ∧ _selectedQuestionIds st' = _selectedQuestionIds st
  ∧ _questionItemsToReplace st' = _questionItemsToReplace st.

(** The bound on the questions of the sections is kept, and no section
    is lost. *)
Definition bound_kept (st st' : State) : Prop :=
  (sections_bounded st → sections_bounded st')
  ∧ (length (allSections st) ≤ length (allSections st'))%nat.

(** The state that [addSection] leaves when it returns, or the state as
    it is when no section is added. *)
Definition section_added (add : bool) (st : State) : State :=
  if add then
    set_quiz {| question_sources :=
                  allSections st ++ [objectWithDefaults_QuizSection];
                quiz_props := quiz_props (_quiz st) |}
             (set_quizHasChanged true st)
  else st.

(** The update that a round of the loop for a practice quiz makes. *)
Definition practice_update (pool : list Exercise) (qs : list QuizQuestion)
  : SectionUpdates :=
  {| upd_questions := Some (ArgArray (map Some qs));
     upd_resourcePool := Some (Some pool);
     upd_props := ∅ |}.

(** ** Sample panels for the concrete runs *)

(** A panel for a practice quiz with [exercise_1] chosen, and a panel that
    draws one question from [exercise_1]. *)
Definition practice_panel : Panel :=
  {| query_selectPracticeQuiz := true;
     settings := {| maxQuestions := None; settings_questionCount := None;
                    isChoosingManually := false; selectPracticeQuiz := true;
                    isInReplaceMode := false;
                    settings_questionItemsToReplace := None |};
     workingResourcePool := [exercise_1];
     workingQuestions := [] |}.

Definition automatic_panel : Panel :=
  {| query_selectPracticeQuiz := false;
     settings := {| maxQuestions := Some 49%Z;
                    settings_questionCount := Some 1%Z;
                    isChoosingManually := false; selectPracticeQuiz := false;
                    isInReplaceMode := false;
                    settings_questionItemsToReplace := None |};
     workingResourcePool := [exercise_1];
     workingQuestions := [] |}.

(** A panel in which questions are chosen manually, with two working
    questions of [exercise_1]. *)
Definition manual_panel : Panel :=
  {| query_selectPracticeQuiz := false;
     settings := {| maxQuestions := Some 49%Z;
                    settings_questionCount := Some 49%Z;
                    isChoosingManually := true; selectPracticeQuiz := false;
                    isInReplaceMode := false;
                    settings_questionItemsToReplace := None |};
     workingResourcePool := [exercise_1];
     workingQuestions := [question_1a; question_1b] |}.

(** A panel in replace mode: the question [e1:a] is to be replaced by
    the working question [question_1b]. *)
Definition replace_panel : Panel :=
  {| query_selectPracticeQuiz := false;
     settings := {| maxQuestions := Some 1%Z;
                    settings_questionCount := Some 1%Z;
                    isChoosingManually := true; selectPracticeQuiz := false;
                    isInReplaceMode := true;
                    settings_questionItemsToReplace := Some ["e1:a"] |};
     workingResourcePool := [exercise_1];
     workingQuestions := [question_1b] |}.

(** * Properties *)

(** *** Facts on array indexing and slicing *)

Lemma js_index_Some {A} (l : list A) (i : Z) (x : A) :
  js_index l i = Some x ↔ (0 ≤ i)%Z ∧ l !! Z.to_nat i = Some x.
Proof.
  unfold js_index. destruct (Z.ltb_spec i 0); split.
  - discriminate.
  - intros [? _]. lia.
  - intros. split; [lia | done].
  - by intros [_ ?].
Qed.

Lemma js_index_None {A} (l : list A) (i : Z) :
  js_index l i = None ↔ (i < 0)%Z ∨ (length l ≤ Z.to_nat i)%nat.
Proof.
  unfold js_index. destruct (Z.ltb_spec i 0).
  - split; [intros _; by left | done].
  - rewrite lookup_ge_None. split; [intros; by right | intros [|]; [lia | done]].
Qed.

Lemma js_index_nat {A} (l : list A) (n : nat) : js_index l (Z.of_nat n) = l !! n.
Proof.
  unfold js_index. destruct (Z.ltb_spec (Z.of_nat n) 0); [lia |].
  by rewrite Nat2Z.id.
Qed.

Lemma slice_prefix {A} (l : list A) (i : Z) :
  (0 ≤ i)%Z → slice l 0 i = take (Z.to_nat i) l.
Proof.
  intros Hi. unfold slice, rel_index.
  destruct (Z.ltb_spec 0 0); [lia |]. destruct (Z.ltb_spec i 0); [lia |].
  replace (Z.min 0 (Z.of_nat (length l))) with 0%Z by lia.
  rewrite Z.sub_0_r. change (Z.to_nat 0) with 0%nat. rewrite drop_0.
  destruct (Z.le_ge_cases i (Z.of_nat (length l))).
  - by rewrite Z.min_l by lia.
  - rewrite Z.min_r, Nat2Z.id by lia.
    rewrite !take_ge; [done | lia | lia].
Qed.

Lemma slice_from_suffix {A} (l : list A) (i : Z) :
  (0 ≤ i)%Z → slice_from l i = drop (Z.to_nat i) l.
Proof.
  intros Hi. unfold slice_from, slice, rel_index.
  destruct (Z.ltb_spec i 0); [lia |].
  destruct (Z.ltb_spec (Z.of_nat (length l)) 0); [lia |].
  rewrite Z.min_id, take_ge by (rewrite length_drop; lia).
  destruct (Z.le_ge_cases i (Z.of_nat (length l))).
  - by rewrite Z.min_l by lia.
  - rewrite Z.min_r, Nat2Z.id by lia. rewrite !drop_ge; [done | lia | lia].
Qed.

(** Replacing the element at a valid index, as the operations write it:
    the prefix, the new element, the suffix. *)
Lemma slice_replace {A} (l : list A) (i : Z) (x y : A) :
  js_index l i = Some x →
  slice l 0 i ++ y :: slice_from l (i + 1) = <[Z.to_nat i := y]> l.
Proof.
  intros [Hi Hx]%js_index_Some.
  rewrite slice_prefix, slice_from_suffix by lia.
  replace (Z.to_nat (i + 1)) with (S (Z.to_nat i)) by lia.
  symmetry. apply insert_take_drop. by eapply lookup_lt_Some.
Qed.

(** Removing the element at a valid index. *)
Lemma slice_remove {A} (l : list A) (i : Z) (x : A) :
  js_index l i = Some x →
  slice l 0 i ++ slice_from l (i + 1) = delete (Z.to_nat i) l.
Proof.
  intros [Hi Hx]%js_index_Some.
  rewrite slice_prefix, slice_from_suffix by lia.
  replace (Z.to_nat (i + 1)) with (S (Z.to_nat i)) by lia.
  by rewrite delete_take_drop.
Qed.

(** *** The monad *)

Lemma bind_Ok {A B} (m : M A) (k : A → M B) (st st' : State) (a : A) :
  m st = (Ok a, st') → bind m k st = k a st'.
Proof. unfold bind. by intros ->. Qed.

Lemma bind_Throw {A B} (m : M A) (k : A → M B) (st st' : State) (e : error) :
  m st = (Throw e, st') → bind m k st = (Throw e, st').
Proof. unfold bind. by intros ->. Qed.

(** *** [updateSection] *)

Lemma updateSection_Ok (i : Z) (u : SectionUpdates) (st : State)
    (t : QuizSection) (qs : option questions_value) :
  js_index (allSections st) i = Some t →
  check_questions (upd_questions u) = Ok qs →
  updateSection i u st = (Ok tt, updated i u t qs st).
Proof.
  intros Ht Hqs. unfold updateSection.
  change (allSections (set_quizHasChanged true st)) with (allSections st).
  rewrite Ht, Hqs. f_equal. unfold updated, set_quiz.
  destruct (upd_resourcePool u) as [[pool|]|]; simpl;
    change (question_sources (_quiz st)) with (allSections st);
    by rewrite (slice_replace _ _ t).
Qed.

Lemma updateSection_no_section (i : Z) (u : SectionUpdates) (st : State) :
  js_index (allSections st) i = None →
  updateSection i u st = (Throw TypeError, set_quizHasChanged true st).
Proof.
  intros Ht. unfold updateSection.
  change (allSections (set_quizHasChanged true st)) with (allSections st).
  by rewrite Ht.
Qed.

Lemma updateSection_invalid (i : Z) (u : SectionUpdates) (st : State) (e : error) :
  check_questions (upd_questions u) = Throw e →
  updateSection i u st = (Throw TypeError, set_quizHasChanged true st).
Proof.
  intros Hqs. unfold updateSection.
  change (allSections (set_quizHasChanged true st)) with (allSections st).
  destruct (js_index _ _); [| done]. rewrite Hqs.
  unfold check_questions in Hqs.
  destruct (upd_questions u) as [[l| |]|]; try done.
  - repeat case_match; congruence.
  - congruence.
Qed.

(** [updateSection] returns with the state [updated], or throws a
    [TypeError] after it has set [quizHasChanged]. *)
Lemma updateSection_cases (i : Z) (u : SectionUpdates) (st : State) :
  (∃ t qs, js_index (allSections st) i = Some t
           ∧ check_questions (upd_questions u) = Ok qs
           ∧ updateSection i u st = (Ok tt, updated i u t qs st))
  ∨ ((js_index (allSections st) i = None
      ∨ check_questions (upd_questions u) = Throw TypeError)
     ∧ updateSection i u st = (Throw TypeError, set_quizHasChanged true st)).
Proof.
  destruct (js_index (allSections st) i) as [t|] eqn:Ht.
  - destruct (check_questions (upd_questions u)) as [qs|e] eqn:Hqs.
    + left. exists t, qs. eauto using updateSection_Ok.
    + right. pose proof (updateSection_invalid i u st e Hqs) as Hthrow.
      split; [| done]. right.
      unfold check_questions in *.
      destruct (upd_questions u) as [[l| |]|]; try done.
      repeat case_match; congruence.
  - right. eauto using updateSection_no_section.
Qed.

Lemma check_questions_errors (q : option questions_arg) (e : error) :
  check_questions q = Throw e → e = TypeError.
Proof.
  unfold check_questions. destruct q as [[l| |]|]; try done.
  - repeat case_match; congruence.
  - congruence.
Qed.

Lemma check_questions_absent (qs : option questions_value) :
  check_questions None = Ok qs → qs = None.
Proof. simpl. congruence. Qed.

Lemma spread_section_props (t : QuizSection) (qs : option questions_value)
    (u : SectionUpdates) (k : string) :
  upd_props u !! k = None →
  (k = "resourcePool" → upd_resourcePool u = None) →
  section_props (spread_section t qs u) !! k = section_props t !! k.
Proof.
  intros Hk Hpool. simpl.
  rewrite lookup_union_r; [done |].
  apply lookup_union_None. split; [| done].
  unfold resourcePool_prop. destruct (upd_resourcePool u) as [[pool|]|]; try done.
  apply lookup_singleton_None. intros <-. by specialize (Hpool eq_refl).
Qed.

(** C10. [updateSection] changes only the section at [sectionIndex]: the
    sections at the other indices are the same and at the same places, the
    number of sections is the same, the properties of the quiz other than
    [question_sources] are the same, and in the target section a property
    that is not in [updates] keeps its value. *)
Theorem updateSection_frame (sectionIndex : Z) (updates : SectionUpdates)
    (st : State) :
  let st' := (updateSection sectionIndex updates st).2 in
  (∀ j, j ≠ sectionIndex →
        js_index (allSections st') j = js_index (allSections st) j)
  ∧ length (allSections st') = length (allSections st)
  ∧ quiz_props (quiz st') = quiz_props (quiz st)
  ∧ (∀ target target',
        js_index (allSections st) sectionIndex = Some target →
        js_index (allSections st') sectionIndex = Some target' →
        (upd_questions updates = None → questions target' = questions target)
        ∧ (∀ k, upd_props updates !! k = None →
                (k = "resourcePool" → upd_resourcePool updates = None) →
                section_props target' !! k = section_props target !! k)).
Proof.
  intros st'. subst st'.
  destruct (updateSection_cases sectionIndex updates st)
    as [(t & qs & Ht & Hqs & ->) | [_ ->]]; simpl.
  - change (allSections (updated sectionIndex updates t qs st))
      with (<[Z.to_nat sectionIndex := spread_section t qs updates]> (allSections st)).
    apply js_index_Some in Ht as Hi. destruct Hi as [Hi Hlook].
    split; [| split; [| split]].
    + intros j Hj. unfold js_index. destruct (Z.ltb_spec j 0); [done |].
      apply list_lookup_insert_ne. lia.
    + apply length_insert.
    + done.
    + intros target target' Htarget Htarget'.
      rewrite Ht in Htarget. injection Htarget as <-.
      apply js_index_Some in Htarget' as [_ Htarget'].
      rewrite list_lookup_insert_eq in Htarget' by (by eapply lookup_lt_Some).
      injection Htarget' as <-. split.
      * intros Hnone. rewrite Hnone in Hqs.
        by rewrite (check_questions_absent _ Hqs).
      * intros k. apply spread_section_props.
  - change (allSections (set_quizHasChanged true st)) with (allSections st).
    split; [done | split; [done | split; [done |]]].
    intros target target' Htarget Htarget'.
    rewrite Htarget in Htarget'. by injection Htarget' as <-.
Qed.

(** *** [updateQuiz], [addSection] and [removeSection] *)

Lemma updateQuiz_valid (u : QuizUpdates) (st : State) :
  validateQuiz u = true →
  updateQuiz u st
  = (Ok tt, set_quiz (spread_quiz (_quiz st) u) (set_quizHasChanged true st)).
Proof. unfold updateQuiz. by intros ->. Qed.

Lemma updateQuiz_invalid (u : QuizUpdates) (st : State) :
  validateQuiz u = false →
  updateQuiz u st = (Throw TypeError, set_quizHasChanged true st).
Proof. unfold updateQuiz. by intros ->. Qed.

Lemma addSection_Ok (st : State) (s : QuizSection) (st' : State) :
  addSection st = (Ok s, st') →
  s = objectWithDefaults_QuizSection
  ∧ allSections st' = allSections st ++ [objectWithDefaults_QuizSection]
  ∧ quiz_props (quiz st') = quiz_props (quiz st)
  ∧ _exerciseMap st' = _exerciseMap st.
Proof.
  unfold addSection, bind, gets, ret, updateQuiz.
  destruct (validateQuiz _); simpl; [| done].
  intros [= <- <-]. repeat split. simpl. by rewrite (left_id_L ∅ (∪)).
Qed.

Lemma addSection_Throw (st : State) (e : error) (st' : State) :
  addSection st = (Throw e, st') →
  e = TypeError ∧ st' = set_quizHasChanged true st.
Proof.
  unfold addSection, bind, gets, ret, updateQuiz.
  destruct (validateQuiz _); simpl; [done |]. by intros [= <- <-].
Qed.


(** *** The bound on the questions of a section *)

Lemma sections_bounded_ext (st st' : State) :
  allSections st' = allSections st → sections_bounded st → sections_bounded st'.
Proof. unfold sections_bounded. by intros ->. Qed.

Lemma length_omap_le {A B} (f : A → option B) (l : list A) :
  (length (omap f l) ≤ length l)%nat.
Proof. induction l as [|x l IH]; csimpl; [done |]. destruct (f x); simpl; lia. Qed.

Lemma check_questions_bounded (q : option questions_arg) (l : list QuizQuestion) :
  check_questions q = Ok (Some (QArray l)) →
  (length l ≤ MAX_QUESTIONS_PER_QUIZ_SECTION)%nat.
Proof.
  unfold check_questions. destruct q as [[l'| |]|]; try done.
  case_bool_decide as Hlen; [done |]. case_match; [done |].
  intros [= <-]. pose proof (length_omap_le id l'). lia.
Qed.

Lemma updateSection_bounded (i : Z) (u : SectionUpdates) (st : State) :
  sections_bounded st → sections_bounded (updateSection i u st).2.
Proof.
  intros Hb.
  destruct (updateSection_cases i u st) as [(t & qs & Ht & Hqs & ->) | [_ ->]];
    [| done].
  unfold sections_bounded in *.
  change (allSections (updated i u t qs st))
    with (<[Z.to_nat i := spread_section t qs u]> (allSections st)).
  apply Forall_insert; [done |].
  apply js_index_Some in Ht as [_ Ht].
  unfold section_bounded. simpl. destruct qs as [[l|]|]; simpl; [| done |].
  - by eapply check_questions_bounded.
  - by eapply (Forall_lookup_1 _ _ _ _ Hb Ht).
Qed.

Lemma updateQuiz_sections (u : QuizUpdates) (st : State) :
  allSections (updateQuiz u st).2
  = if validateQuiz u then default (allSections st) (qupd_question_sources u)
    else allSections st.
Proof. unfold updateQuiz. by destruct (validateQuiz u). Qed.

Lemma addSection_sections (st : State) :
  allSections (addSection st).2 = allSections st
  ∨ allSections (addSection st).2 = allSections st ++ [objectWithDefaults_QuizSection].
Proof.
  destruct (addSection st) as [[s|e] st'] eqn:Hadd; simpl.
  - apply addSection_Ok in Hadd as (_ & -> & _). by right.
  - apply addSection_Throw in Hadd as [_ ->]. by left.
Qed.

Lemma default_section_bounded : section_bounded objectWithDefaults_QuizSection.
Proof. unfold section_bounded. simpl. lia. Qed.

Lemma addSection_bounded (st : State) :
  sections_bounded st → sections_bounded (addSection st).2.
Proof.
  intros Hb. unfold sections_bounded.
  destruct (addSection_sections st) as [-> | ->]; [done |].
  apply Forall_app. split; [done |].
  apply Forall_singleton, default_section_bounded.
Qed.

Lemma removeSection_bounded (i : Z) (st : State) :
  sections_bounded st → sections_bounded (removeSection i st).2.
Proof.
  intros Hb. unfold removeSection.
  rewrite (bind_Ok _ _ st st (allSections st)) by done.
  destruct (js_index (allSections st) i) as [t|] eqn:Ht; [| done].
  rewrite (slice_remove _ _ t Ht).
  set (rest := delete (Z.to_nat i) (allSections st)).
  assert (Hrest : Forall section_bounded rest).
  { apply Forall_forall. intros s Hs. unfold sections_bounded in Hb.
    rewrite Forall_forall in Hb. apply Hb.
    subst rest. eapply elem_of_sublist; [done | apply sublist_delete]. }
  destruct (validateQuiz (sections_update rest)) eqn:Hvalid.
  2: { by rewrite (bind_Throw _ _ _ _ _ (updateQuiz_invalid _ _ Hvalid)). }
  rewrite (bind_Ok _ _ _ _ _ (updateQuiz_valid _ _ Hvalid)).
  set (st1 := set_quiz _ _).
  rewrite (bind_Ok _ _ st1 st1 (allSections st1)) by done.
  assert (Hst1 : sections_bounded st1) by done.
  case_bool_decide; [| done].
  pose proof (addSection_bounded st1 Hst1) as Hadd.
  unfold bind. by destruct (addSection st1) as [[s|e] st2].
Qed.

Lemma saveQuiz_state (st : State) :
  (saveQuiz st).2 = st
  ∨ ∃ request, saveQuiz st = (Ok request, log_saveModel request st).
Proof.
  unfold saveQuiz. destruct (negb _); [by left |].
  destruct (finalQuiz st); [right; eauto | by left].
Qed.

Lemma saveQuiz_then_sections (id : value) (exam : Exam) (st : State) :
  allSections (saveQuiz_then id exam st).2 = allSections st.
Proof.
  unfold saveQuiz_then, bind, modify, ret, updateQuiz.
  case_bool_decide; [| done]. by destruct (validateQuiz _).
Qed.

Lemma addQuestionsToSection_state (i : Z) (qs : option (list QuizQuestion))
    (resources : option (list Exercise)) (items : option (list string))
    (st : State) :
  (addQuestionsToSection i qs resources items st).2 = st
  ∨ ∃ u, addQuestionsToSection i qs resources items st = updateSection i u st.
Proof. unfold addQuestionsToSection. repeat case_match; eauto. Qed.

Lemma addQuestionsToSectionFromResources_state (i : Z)
    (pool : option (list Exercise)) (n : option Z) (seed : Z) (st : State) :
  (addQuestionsToSectionFromResources i pool n seed st).2 = st
  ∨ ∃ u, addQuestionsToSectionFromResources i pool n seed st = updateSection i u st.
Proof. unfold addQuestionsToSectionFromResources. repeat case_match; eauto. Qed.

Lemma autoReplaceQuestions_state (shuffled : list string → list string)
    (items : list string) (st : State) :
  (autoReplaceQuestions shuffled items st).2 = st
  ∨ ∃ u, autoReplaceQuestions shuffled items st
         = updateSection (activeSectionIndex st) u st.
Proof. unfold autoReplaceQuestions. repeat case_match; eauto. Qed.

Lemma deleteActiveSelectedQuestions_state (st : State) :
  (deleteActiveSelectedQuestions st).2 = st
  ∨ ∃ u, (deleteActiveSelectedQuestions st).2
         = (updateSection (activeSectionIndex st) u st).2
         ∨ (deleteActiveSelectedQuestions st).2
           = set_selectedQuestionIds []
               (updateSection (activeSectionIndex st) u st).2.
Proof.
  unfold deleteActiveSelectedQuestions.
  destruct (activeSection st) as [section|]; [| by left].
  destruct (questions_array section) as [section_questions|e]; [| by left].
  right. eexists. unfold bind, modify.
  destruct (updateSection _ _ st) as [[[]|e] st'] eqn:Hupdate.
  - right. by rewrite Hupdate.
  - left. by rewrite Hupdate.
Qed.

Lemma authoring_bounded (op : operation) (st : State) :
  authoring_operation op = true →
  sections_bounded st → sections_bounded (run op st).2.
Proof.
  intros Hop Hb. destruct op; try done; simpl.
  - destruct (saveQuiz_state st) as [-> | [request ->]]; done.
  - eapply sections_bounded_ext; [apply saveQuiz_then_sections | done].
  - by apply updateSection_bounded.
  - destruct (addQuestionsToSection_state sectionIndex qs resources
                questionItemsToReplace st) as [-> | [u ->]];
      [done | by apply updateSection_bounded].
  - destruct (addQuestionsToSectionFromResources_state sectionIndex
                resourcePool questionCount seed st) as [-> | [u ->]];
      [done | by apply updateSection_bounded].
  - destruct (autoReplaceQuestions_state shuffled questionItems st)
      as [-> | [u ->]]; [done | by apply updateSection_bounded].
  - destruct (deleteActiveSelectedQuestions_state st) as [-> | [u [-> | ->]]];
      [done | by apply updateSection_bounded |].
    eapply sections_bounded_ext;
      [| exact (updateSection_bounded (activeSectionIndex st) u st Hb)]. done.
  - by apply addSection_bounded.
  - by apply removeSection_bounded.
  - unfold navigate. by case_bool_decide.
Qed.

Lemma initializeQuiz_new_bounded (collection : string)
    (fetched : option (QuizUpdates * list Exercise)) (st : State) :
  sections_bounded (initializeQuiz collection "new" fetched st).2.
Proof.
  unfold initializeQuiz. rewrite bool_decide_true by done.
  unfold bind at 1. unfold modify at 1.
  set (st1 := set_quiz _ st).
  assert (Hb : sections_bounded st1) by (apply Forall_nil_2).
  pose proof (addSection_bounded st1 Hb) as Hadd.
  unfold bind, modify. by destruct (addSection st1) as [[s|e] st2].
Qed.

Lemma initializeQuiz_loaded_bounded (collection quizId : string)
    (exam : QuizUpdates) (exercises : list Exercise) (st : State) :
  quizId ≠ "new" →
  Forall section_bounded (default [] (qupd_question_sources exam)) →
  sections_bounded (initializeQuiz collection quizId (Some (exam, exercises)) st).2.
Proof.
  intros Hid Hexam. unfold initializeQuiz. rewrite bool_decide_false by done.
  unfold bind at 1. unfold modify at 1.
  unfold bind at 1. unfold modify at 1.
  set (st1 := set_quiz _ _).
  assert (Hb : sections_bounded st1) by done.
  rewrite (bind_Ok _ _ st1 st1 (allSections st1)) by done.
  case_bool_decide.
  - pose proof (addSection_bounded st1 Hb) as Hadd.
    unfold bind, modify, ret. by destruct (addSection st1) as [[s|e] st2].
  - done.
Qed.

Lemma authored_bounded (st : State) : authored st → sections_bounded st.
Proof.
  induction 1 as [| |op st Hop _ IH].
  - apply initializeQuiz_new_bounded.
  - by apply initializeQuiz_loaded_bounded.
  - by apply authoring_bounded.
Qed.

(** C3 (as amended). [updateSection] throws a [TypeError] when the value of
    [questions] is truthy and is not an array, or is an array of more than
    [MAX_QUESTIONS_PER_QUIZ_SECTION] elements, or is an array with an
    element that is not a valid QuizQuestion.  It throws nothing but a
    [TypeError], and when it throws, the quiz, the cache and the selection
    are as before: the state differs only in that [quizHasChanged] is set.
    Consequently every section of a quiz being authored holds at most
    [MAX_QUESTIONS_PER_QUIZ_SECTION] questions. *)
Theorem updateSection_question_limit (sectionIndex : Z)
    (updates : SectionUpdates) (st : State) :
  let r := updateSection sectionIndex updates st in
  (upd_questions updates = Some ArgNonArray → r.1 = Throw TypeError)
  ∧ (∀ l, upd_questions updates = Some (ArgArray l) →
          (MAX_QUESTIONS_PER_QUIZ_SECTION < length l)%nat
          ∨ (∃ q, q ∈ l ∧ valid_element q = false) →
          r.1 = Throw TypeError)
  ∧ (∀ e, r.1 = Throw e → e = TypeError ∧ r.2 = set_quizHasChanged true st)
  ∧ (∀ st0, authored st0 → sections_bounded st0).
Proof.
  intros r. subst r. split; [| split; [| split]].
  - intros Hq. by rewrite (updateSection_invalid _ _ _ TypeError) by (by rewrite Hq).
  - intros l Hq Hbad.
    rewrite (updateSection_invalid _ _ _ TypeError); [done |].
    rewrite Hq. simpl. destruct Hbad as [Hlen | (q & Hin & Hq')].
    + by rewrite bool_decide_true.
    + case_bool_decide; [done |].
      assert (existsb (λ q, negb (valid_element q)) l = true) as ->; [| done].
      apply existsb_exists. exists q. split; [by apply list_elem_of_In |].
      by rewrite Hq'.
  - intros e.
    destruct (updateSection_cases sectionIndex updates st)
      as [(t & qs & _ & _ & ->) | [_ ->]]; simpl; [done |].
    by intros [= <-].
  - apply authored_bounded.
Qed.

(** *** Relations kept by the operations *)

Section preserves.
Context (R : State → State → Prop) `{!PreOrder R}.

Lemma preserves_ret {A} (a : A) : preserves R (ret a).
Proof. intros st. simpl. reflexivity. Qed.

Lemma preserves_throw {A} (e : error) : preserves R (@throw A e).
Proof. intros st. simpl. reflexivity. Qed.

Lemma preserves_gets {A} (f : State → A) : preserves R (gets f).
Proof. intros st. simpl. reflexivity. Qed.

Lemma preserves_modify (f : State → State) :
  (∀ st, R st (f st)) → preserves R (modify f).
Proof. intros Hf st. apply Hf. Qed.

Lemma preserves_bind {A B} (m : M A) (k : A → M B) :
  preserves R m → (∀ a, preserves R (k a)) → preserves R (bind m k).
Proof.
  intros Hm Hk st. unfold bind. specialize (Hm st).
  destruct (m st) as [[a|e] st1]; simpl in *; [| done].
  etrans; [done | apply Hk].
Qed.

Lemma preserves_if {A} (b : bool) (m1 m2 : M A) :
  preserves R m1 → preserves R m2 → preserves R (if b then m1 else m2).
Proof. by destruct b. Qed.

End preserves.

(** *** The exercise cache *)

(** A relation on caches that holds from a cache to the cache with the
    exercises of a pool added holds from the state before to the state
    after every operation. *)
Section cache.
Context (Rc : relation (gmap string Exercise)) `{!PreOrder Rc}.
Hypothesis Rc_cache_exercises : ∀ pool m, Rc m (cache_exercises pool m).

#[local] Instance cache_related_preorder : PreOrder (cache_related Rc).
Proof.
  split.
  - intros st. unfold cache_related. reflexivity.
  - intros st1 st2 st3. unfold cache_related. apply transitivity.
Qed.

Lemma cache_related_same (st st' : State) :
  _exerciseMap st' = _exerciseMap st → cache_related Rc st st'.
Proof. unfold cache_related. intros ->. reflexivity. Qed.

Lemma updateSection_cache : ∀ i u, preserves (cache_related Rc) (updateSection i u).
Proof.
  intros i u st.
  destruct (updateSection_cases i u st) as [(t & qs & _ & _ & ->) | [_ ->]];
    simpl; [| by apply cache_related_same].
  unfold cache_related. simpl.
  destruct (upd_resourcePool u) as [[pool|]|]; [| reflexivity | reflexivity].
  apply Rc_cache_exercises.
Qed.

Lemma updateQuiz_cache : ∀ u, preserves (cache_related Rc) (updateQuiz u).
Proof.
  intros u st. apply cache_related_same. unfold updateQuiz.
  by destruct (negb _).
Qed.

Lemma addSection_cache : preserves (cache_related Rc) addSection.
Proof.
  unfold addSection.
  apply preserves_bind; [apply _ | apply preserves_gets; apply _ | intros q].
  apply preserves_bind; [apply _ | apply updateQuiz_cache | intros _].
  apply preserves_ret; apply _.
Qed.

Ltac preserves_cache :=
  repeat first
    [ apply addSection_cache
    | apply updateQuiz_cache
    | apply preserves_ret; apply _
    | apply preserves_throw; apply _
    | apply preserves_gets; apply _
    | apply preserves_modify; intros ?; by apply cache_related_same
    | apply preserves_if
    | apply preserves_bind; [apply _ | | intros ?] ].

Lemma removeSection_cache : ∀ i, preserves (cache_related Rc) (removeSection i).
Proof.
  intros i. unfold removeSection.
  apply preserves_bind; [apply _ | apply preserves_gets; apply _ | intros sections].
  destruct (js_index sections i); [| apply preserves_throw; apply _].
  preserves_cache.
Qed.

Lemma initializeQuiz_cache :
  ∀ c q f, preserves (cache_related Rc) (initializeQuiz c q f).
Proof.
  intros c q f. unfold initializeQuiz. case_bool_decide.
  - preserves_cache.
  - destruct f as [[exam exercises]|]; [| apply preserves_throw; apply _].
    apply preserves_bind; [apply _ | | intros _].
    { apply preserves_modify. intros st. unfold cache_related. simpl.
      apply Rc_cache_exercises. }
    preserves_cache.
Qed.

Lemma saveQuiz_then_cache :
  ∀ id exam, preserves (cache_related Rc) (saveQuiz_then id exam).
Proof.
  intros id exam. unfold saveQuiz_then.
  preserves_cache.
Qed.

Lemma run_cache (op : operation) (st : State) :
  cache_related Rc st (run op st).2.
Proof.
  destruct op; simpl.
  - apply initializeQuiz_cache.
  - destruct (saveQuiz_state st) as [-> | [request ->]]; by apply cache_related_same.
  - apply saveQuiz_then_cache.
  - apply updateQuiz_cache.
  - apply updateSection_cache.
  - destruct (addQuestionsToSection_state sectionIndex qs resources
                questionItemsToReplace st) as [-> | [u ->]];
      [reflexivity | apply updateSection_cache].
  - destruct (addQuestionsToSectionFromResources_state sectionIndex
                resourcePool questionCount seed st) as [-> | [u ->]];
      [reflexivity | apply updateSection_cache].
  - destruct (autoReplaceQuestions_state shuffled questionItems st)
      as [-> | [u ->]]; [reflexivity | apply updateSection_cache].
  - destruct (deleteActiveSelectedQuestions_state st) as [-> | [u [-> | ->]]];
      [reflexivity | apply updateSection_cache |].
    etrans; [apply (updateSection_cache (activeSectionIndex st) u) |].
    by apply cache_related_same.
  - apply addSection_cache.
  - apply removeSection_cache.
  - by apply cache_related_same.
  - by apply cache_related_same.
  - by apply cache_related_same.
  - by apply cache_related_same.
  - unfold navigate. case_bool_decide; by apply cache_related_same.
Qed.

End cache.

Lemma cache_exercises_lookup (pool : list Exercise) (m : gmap string Exercise)
    (id : string) :
  is_Some (m !! id) → is_Some (cache_exercises pool m !! id).
Proof.
  revert m. induction pool as [|e pool IH]; intros m Hid; simpl; [done |].
  apply IH. destruct (decide (ex_id e = id)) as [<- | Hne].
  - rewrite lookup_insert_eq. eauto.
  - by rewrite lookup_insert_ne.
Qed.

#[local] Instance mapped_stays_preorder : PreOrder mapped_stays.
Proof.
  split.
  - by intros m id.
  - intros m1 m2 m3 H12 H23 id Hid. by apply H23, H12.
Qed.

(** C7. The exercise cache is never evicted: whatever the operation and
    whether it returns or throws, every exercise id that is mapped in the
    cache before the call is still mapped after it. *)
Theorem exerciseMap_never_evicted (op : operation) (st : State) (id : string) :
  is_Some (_exerciseMap st !! id) →
  is_Some (_exerciseMap (run op st).2 !! id).
Proof.
  revert id. apply (run_cache mapped_stays).
  intros pool m id. apply cache_exercises_lookup.
Qed.

Lemma cache_exercises_keyed (pool : list Exercise) (m : gmap string Exercise) :
  cache_keyed m → cache_keyed (cache_exercises pool m).
Proof.
  revert m. induction pool as [|e pool IH]; intros m Hm; simpl; [done |].
  apply IH. intros k e'. destruct (decide (ex_id e = k)) as [<- | Hne].
  - rewrite lookup_insert_eq. by intros [= <-].
  - rewrite lookup_insert_ne by done. apply Hm.
Qed.

#[local] Instance keyed_kept_preorder : PreOrder keyed_kept.
Proof.
  split.
  - intros m Hm. exact Hm.
  - intros m1 m2 m3 H12 H23 Hm. by apply H23, H12.
Qed.

(** In every state of the composable an exercise is cached under its id. *)
Lemma reachable_cache_keyed (st : State) :
  reachable st → cache_keyed (_exerciseMap st).
Proof.
  induction 1 as [i | op st _ IH].
  - intros k e. simpl. by rewrite lookup_empty.
  - revert IH. apply (run_cache keyed_kept).
    intros pool m. exact (cache_exercises_keyed pool m).
Qed.

(** *** [_replaceQuestions] *)

Lemma replace_map_length (base : list QuizQuestion) (items : list string)
    (repl : list QuizQuestion) :
  length (replace_map base items repl) = length base.
Proof.
  revert repl. induction base as [|q base IH]; intros repl; simpl; [done |].
  destruct (includes items (item q)); simpl; by rewrite IH.
Qed.

Lemma replace_map_lookup (base : list QuizQuestion) (items : list string)
    (repl : list QuizQuestion) (i : nat) (q : QuizQuestion) :
  base !! i = Some q →
  replace_map base items repl !! i
  = Some (if includes items (item q)
          then repl !! listed_before base items i
          else Some q).
Proof.
  revert repl i. induction base as [|q0 base IH]; intros repl i Hq; [done |].
  unfold listed_before. destruct i as [|i]; simpl in Hq; simpl.
  - injection Hq as ->. unfold includes. case_bool_decide; simpl; [| done].
    by rewrite head_lookup.
  - rewrite filter_cons. unfold includes.
    destruct (decide (item q0 ∈ items)) as [Hq0 | Hq0].
    + rewrite bool_decide_true by done. simpl. rewrite (IH _ _ Hq).
      unfold listed_before, includes. case_bool_decide; [| done].
      by rewrite lookup_tail.
    + rewrite bool_decide_false by done. simpl. by rewrite (IH _ _ Hq).
Qed.

(** With pairwise distinct items in the base questions, the listed
    questions are no more than the listed items. *)
Lemma listed_before_lt (base : list QuizQuestion) (items : list string)
    (i : nat) (q : QuizQuestion) :
  NoDup (map item base) → base !! i = Some q → item q ∈ items →
  (listed_before base items i < length items)%nat.
Proof.
  intros Hnodup Hq Hin.
  set (listed := filter (λ q, item q ∈ items) base).
  assert (Hlen : (length listed ≤ length items)%nat).
  { change (length listed) with (length listed). rewrite <- (length_fmap item).
    apply submseteq_length, NoDup_submseteq.
    - eapply sublist_NoDup; [exact Hnodup |].
      apply fmap_sublist, sublist_filter.
    - intros x (y & -> & Hy)%list_elem_of_fmap.
      by apply list_elem_of_filter in Hy as [? _]. }
  assert (Hsplit : listed = filter (λ q, item q ∈ items) (take i base)
                            ++ q :: filter (λ q, item q ∈ items) (drop (S i) base)).
  { subst listed. rewrite <- (take_drop_middle base i q Hq) at 1.
    rewrite filter_app, filter_cons. by rewrite decide_True. }
  unfold listed_before. rewrite Hsplit, length_app in Hlen. simpl in Hlen. lia.
Qed.

(** C2 (as amended). [_replaceQuestions] throws a [TypeError] when the
    items to replace and the replacements differ in number, and only
    then.  Otherwise it returns an array as long as the base array, where a
    question whose item is not listed is unchanged in place, and a question
    whose item is listed is replaced by the next replacement in order: the
    one whose rank is the number of listed questions before it, and
    [undefined] when the replacements are used up.  When the items of the
    base questions are pairwise distinct the replacements are not used up:
    every listed question is replaced by a replacement. *)
Theorem replaceQuestions_spec (baseQuestions : list QuizQuestion)
    (questionItemsToReplace : list string) (replacements : list QuizQuestion) :
  let r := _replaceQuestions baseQuestions questionItemsToReplace replacements in
  (length questionItemsToReplace ≠ length replacements → r = Throw TypeError)
  ∧ (length questionItemsToReplace = length replacements →
     ∃ newQuestions,
       r = Ok newQuestions
       ∧ length newQuestions = length baseQuestions
       ∧ (∀ i q, baseQuestions !! i = Some q →
                 item q ∉ questionItemsToReplace →
                 newQuestions !! i = Some (Some q))
       ∧ (∀ i q, baseQuestions !! i = Some q →
                 item q ∈ questionItemsToReplace →
                 newQuestions !! i
                 = Some (replacements
                           !! listed_before baseQuestions questionItemsToReplace i))
       ∧ (NoDup (map item baseQuestions) →
          ∀ i q, baseQuestions !! i = Some q →
                 item q ∈ questionItemsToReplace →
                 ∃ q', q' ∈ replacements ∧ newQuestions !! i = Some (Some q'))).
Proof.
  intros r. subst r. unfold _replaceQuestions. split.
  - intros Hne. by rewrite bool_decide_true.
  - intros Heq. rewrite bool_decide_false by (by intros ?).
    eexists. split; [done |]. split; [apply replace_map_length |].
    split; [| split].
    + intros i q Hq Hin. rewrite (replace_map_lookup _ _ _ _ _ Hq).
      unfold includes. by rewrite bool_decide_false.
    + intros i q Hq Hin. rewrite (replace_map_lookup _ _ _ _ _ Hq).
      unfold includes. by rewrite bool_decide_true.
    + intros Hnodup i q Hq Hin. rewrite (replace_map_lookup _ _ _ _ _ Hq).
      unfold includes. rewrite bool_decide_true by done.
      pose proof (listed_before_lt _ _ _ _ Hnodup Hq Hin) as Hlt.
      rewrite Heq in Hlt. apply lookup_lt_is_Some in Hlt as [q' Hq'].
      exists q'. rewrite Hq'. split; [| done].
      by eapply list_elem_of_lookup_2.
Qed.

(** *** [saveQuiz] *)







(** *** [allQuestionsInQuiz] *)

Lemma concat_questions_Ok (acc : list QuizQuestion) (l : list QuizSection)
    (all : list QuizQuestion) :
  concat_questions acc l = Ok all →
  Forall (λ s, questions s ≠ QNull) l
  ∧ map item all = map item acc ++ concat (map section_items l).
Proof.
  revert acc. induction l as [|s l IH]; intros acc; simpl.
  - intros [= <-]. split; [done |]. by rewrite app_nil_r.
  - unfold questions_array, section_items.
    destruct (questions s) as [qs|] eqn:Hqs; [| done]. simpl.
    intros [Hl ->]%IH. split.
    + constructor; [by rewrite Hqs | done].
    + by rewrite map_app, <- app_assoc.
Qed.

Lemma concat_questions_arrays (acc : list QuizQuestion) (l : list QuizSection) :
  Forall (λ s, questions s ≠ QNull) l →
  ∃ all, concat_questions acc l = Ok all.
Proof.
  intros Hl. revert acc. induction Hl as [|s l Hs _ IH]; intros acc; simpl.
  - eauto.
  - unfold questions_array. destruct (questions s); [apply IH | done].
Qed.

Lemma allQuestionsInQuiz_items (st : State) (all : list QuizQuestion) :
  allQuestionsInQuiz st = Ok all → map item all = quiz_items st.
Proof. by intros [_ ?]%concat_questions_Ok. Qed.

Lemma allQuestionsInQuiz_arrays (st : State) (all : list QuizQuestion) :
  allQuestionsInQuiz st = Ok all → sections_hold_arrays st.
Proof. by intros [? _]%concat_questions_Ok. Qed.

Lemma allQuestionsInQuiz_Ok (st : State) :
  sections_hold_arrays st → ∃ all, allQuestionsInQuiz st = Ok all.
Proof. apply concat_questions_arrays. Qed.

(** *** [addQuestionsToSectionFromResources] *)

(** C4. [addQuestionsToSectionFromResources] throws a [TypeError] when the
    resource pool is missing or empty, and when the question count is
    missing or less than 1; it throws when the questions of the pool that
    are not already used in the quiz are fewer than the count asked for.
    In all these cases the state is left as it was. *)
Theorem addQuestionsToSectionFromResources_throws (sectionIndex : Z)
    (resourcePool : option (list Exercise)) (questionCount : option Z)
    (seed : Z) (st : State) :
  let r := addQuestionsToSectionFromResources sectionIndex resourcePool
             questionCount seed st in
  (resourcePool = None ∨ resourcePool = Some [] → r = (Throw TypeError, st))
  ∧ (questionCount = None ∨ (∃ n, questionCount = Some n ∧ (n < 1)%Z) →
     r = (Throw TypeError, st))
  ∧ (∀ pool n,
       resourcePool = Some pool → questionCount = Some n →
       (Z.of_nat (length (available_questions st pool)) < n)%Z →
       ∃ e, r = (Throw e, st)).
Proof.
  intros r. subst r. unfold addQuestionsToSectionFromResources.
  split; [| split].
  - intros [-> | ->]; by destruct (js_index _ _).
  - intros [-> | (n & -> & Hn)].
    + destruct (js_index _ _); [| done]. by destruct resourcePool as [[|]|].
    + destruct (js_index _ _); [| done]. destruct resourcePool as [[|]|]; try done.
      rewrite bool_decide_true; [done | by right].
  - intros pool n -> -> Hfew.
    destruct (js_index _ _) as [t|]; [| eauto].
    destruct pool as [|ex pool]; [eauto |].
    case_bool_decide; [eauto |].
    destruct (allQuestionsInQuiz st) as [all|e] eqn:Hall; simpl; [| eauto].
    unfold selectQuestions.
    rewrite (allQuestionsInQuiz_items _ _ Hall).
    fold (available_questions st (ex :: pool)).
    rewrite bool_decide_true by done. simpl. eauto.
Qed.

(** *** The active resource map and the unused questions *)

Lemma assoc_set_elem_of {V} (m : list (string * V)) (k k' : string) (v v' : V) :
  (k', v') ∈ assoc_set m k v → (k' = k ∧ v' = v) ∨ (k', v') ∈ m.
Proof.
  induction m as [|[k0 v0] m IH]; simpl.
  - intros [= -> ->]%list_elem_of_singleton. by left.
  - case_bool_decide as Hk.
    + intros [[= -> ->] | Hin]%elem_of_cons; [by left |]. right. by right.
    + intros [[= -> ->] | Hin]%elem_of_cons; [right; by left |].
      destruct (IH Hin) as [? | ?]; [by left | right; by right].
Qed.

Lemma assoc_set_keys {V} (m : list (string * V)) (k : string) (v : V) :
  NoDup (map fst m) → NoDup (map fst (assoc_set m k v))
  ∧ ∀ k', k' ∈ map fst (assoc_set m k v) → k' = k ∨ k' ∈ map fst m.
Proof.
  induction m as [|[k0 v0] m IH]; simpl.
  - intros _. split; [apply NoDup_singleton |].
    intros k' ->%list_elem_of_singleton. by left.
  - intros [Hk0 Hm]%NoDup_cons. specialize (IH Hm) as [IH1 IH2].
    case_bool_decide as Hk; simpl.
    + subst k0. split; [by apply NoDup_cons |].
      intros k'. rewrite elem_of_cons. tauto.
    + split.
      * apply NoDup_cons. split; [| done].
        intros [-> | Hin]%IH2; [done | by apply Hk0].
      * intros k' [-> | [-> | Hin]%IH2]%elem_of_cons.
        -- right. by left.
        -- by left.
        -- right. by right.
Qed.

Lemma assoc_set_mem {V} (m : list (string * V)) (k : string) (v : V) :
  (k, v) ∈ assoc_set m k v.
Proof.
  induction m as [|[k0 v0] m IH]; simpl.
  - by left.
  - case_bool_decide; [by left | by right].
Qed.

Lemma assoc_set_other {V} (m : list (string * V)) (k k' : string) (v v' : V) :
  k' ≠ k → (k', v') ∈ m → (k', v') ∈ assoc_set m k v.
Proof.
  intros Hne. induction m as [|[k0 v0] m IH]; simpl;
    [by intros ?%elem_of_nil |].
  case_bool_decide as Hk.
  - intros [[= ? ?] | Hin]%elem_of_cons; [congruence | by right].
  - intros [[= -> ->] | Hin]%elem_of_cons; [by left | right; by apply IH].
Qed.

Lemma assoc_get_Some {V} (m : list (string * V)) (k : string) (v : V) :
  assoc_get m k = Some v → (k, v) ∈ m.
Proof.
  induction m as [|[k0 v0] m IH]; simpl; [done |].
  case_bool_decide as Hk.
  - intros [= ->]. subst. by left.
  - intros Hget. right. by apply IH.
Qed.

Lemma activeResourceMap_step (st : State) (m : list (string * option Exercise))
    (q : QuizQuestion) :
  let m' := match assoc_get m (exercise_id q) with
            | Some (Some _) => m
            | _ => assoc_set m (exercise_id q) (_exerciseMap st !! exercise_id q)
            end in
  resource_map_ok st m →
  resource_map_ok st m'
  ∧ (∀ kv, kv ∈ m → kv ∈ m')
  ∧ (exercise_id q, _exerciseMap st !! exercise_id q) ∈ m'
  ∧ (∀ k v, (k, v) ∈ m' → (k, v) ∈ m ∨ k = exercise_id q).
Proof.
  intros m' [Hnodup Hval].
  assert (Hset : ∀ m'', m'' = assoc_set m (exercise_id q)
                                (_exerciseMap st !! exercise_id q) →
    resource_map_ok st m''
    ∧ (∀ kv, kv ∈ m → kv ∈ m'')
    ∧ (exercise_id q, _exerciseMap st !! exercise_id q) ∈ m''
    ∧ (∀ k v, (k, v) ∈ m'' → (k, v) ∈ m ∨ k = exercise_id q)).
  { intros m'' ->. split; [split |]; [| | split; [| split]].
    - by apply assoc_set_keys.
    - intros k v [[-> ->] | Hin]%assoc_set_elem_of; [done | by apply Hval].
    - intros [k v] Hin. destruct (decide (k = exercise_id q)) as [-> | Hne].
      + rewrite (Hval _ _ Hin). apply assoc_set_mem.
      + by apply assoc_set_other.
    - apply assoc_set_mem.
    - intros k v [[-> ->] | Hin]%assoc_set_elem_of; [by right | by left]. }
  subst m'. destruct (assoc_get m (exercise_id q)) as [[e|]|] eqn:Hget;
    [| by apply Hset | by apply Hset].
  split; [done |]. split; [done |]. split; [| by left].
  apply assoc_get_Some in Hget as Hin. by rewrite <- (Hval _ _ Hin).
Qed.

Lemma activeResourceMap_fold (st : State) (qs : list QuizQuestion)
    (m : list (string * option Exercise)) :
  let f := λ (map : list (string * option Exercise)) question,
             match assoc_get map (exercise_id question) with
             | Some (Some _) => map
             | _ => assoc_set map (exercise_id question)
                      (_exerciseMap st !! exercise_id question)
             end in
  resource_map_ok st m →
  resource_map_ok st (foldl f m qs)
  ∧ (∀ kv, kv ∈ m → kv ∈ foldl f m qs)
  ∧ (∀ q, q ∈ qs →
          (exercise_id q, _exerciseMap st !! exercise_id q) ∈ foldl f m qs)
  ∧ (∀ k v, (k, v) ∈ foldl f m qs → (k, v) ∈ m ∨ k ∈ map exercise_id qs).
Proof.
  intros f. revert m. induction qs as [|q qs IH]; intros m Hm; simpl.
  - split; [done |]. split; [done |]. split; [by intros q ?%elem_of_nil |].
    intros k v ?. by left.
  - destruct (activeResourceMap_step st m q Hm) as (Hm' & Hmono & Hq & Hkeys).
    destruct (IH _ Hm') as (Hok & Hmono' & Hqs & Hkeys').
    split; [done |]. split; [by intros kv ?%Hmono%Hmono' |]. split.
    + intros q' [-> | Hin]%elem_of_cons; [by apply Hmono' | by apply Hqs].
    + intros k v [[Hin | ->]%Hkeys | Hin]%Hkeys'.
      * by left.
      * right. by left.
      * right. by right.
Qed.

(** The keys of the active resource map are pairwise distinct; a key is the
    exercise id of an active question and its value is what the cache holds
    for it; the exercise id of every active question is a key. *)
Lemma activeResourceMap_entries (st : State) :
  NoDup (map fst (activeResourceMap st))
  ∧ (∀ k v, (k, v) ∈ activeResourceMap st →
            v = _exerciseMap st !! k
            ∧ k ∈ map exercise_id (activeQuestions st))
  ∧ (∀ q, q ∈ activeQuestions st →
          (exercise_id q, _exerciseMap st !! exercise_id q) ∈ activeResourceMap st).
Proof.
  assert (Hempty : resource_map_ok st []).
  { split; [apply NoDup_nil_2 | by intros k v ?%elem_of_nil]. }
  destruct (activeResourceMap_fold st (activeQuestions st) [] Hempty)
    as ([Hnodup Hval] & _ & Hqs & Hkeys).
  split; [done |]. split; [| done].
  intros k v Hin. split; [by apply Hval |].
  by destruct (Hkeys _ _ Hin) as [?%elem_of_nil | ?].
Qed.

Lemma find_item_None (all : list QuizQuestion) (qid : string) :
  find (λ q, bool_decide (item q = qid)) all = None ↔ qid ∉ map item all.
Proof.
  induction all as [|q all IH]; simpl.
  - split; [intros _; apply not_elem_of_nil | done].
  - rewrite not_elem_of_cons. case_bool_decide as Hq.
    + split; [done | by intros [? _]].
    + rewrite IH. split; [by intros ? | by intros [_ ?]].
Qed.

Lemma unusedQuestions_Ok (st : State) (exercise : Exercise) (unused : list string) :
  unusedQuestions st exercise = Ok unused →
  unused = unused_composites st exercise.
Proof.
  unfold unusedQuestions, unused_composites.
  destruct (map _ (assessment_item_ids exercise)) as [|c cs] eqn:Hcs.
  - by intros [= <-].
  - destruct (allQuestionsInQuiz st) as [all|] eqn:Hall; simpl; [| done].
    intros [= <-]. rewrite <- (allQuestionsInQuiz_items _ _ Hall).
    apply list_filter_iff. intros qid. apply find_item_None.
Qed.

Lemma unusedQuestions_arrays (st : State) (exercise : Exercise) :
  sections_hold_arrays st → ∃ unused, unusedQuestions st exercise = Ok unused.
Proof.
  intros [all Hall]%allQuestionsInQuiz_Ok. unfold unusedQuestions.
  rewrite Hall. simpl. destruct (map _ _); eauto.
Qed.

Lemma unused_loop_Ok (st : State) (arm : list (string * option Exercise))
    (m0 m : gmap string (list string)) :
  NoDup (map fst arm) →
  (∀ k e, (k, Some e) ∈ arm → ex_id e = k) →
  unused_loop st (map snd arm) m0 = Ok m →
  (∀ k v, (k, v) ∈ arm →
          ∃ e, v = Some e ∧ m !! k = Some (unused_composites st e))
  ∧ (∀ id, id ∉ map fst arm → m !! id = m0 !! id).
Proof.
  revert m0. induction arm as [|[k0 v0] arm IH]; intros m0 Hnodup Hkeyed; simpl.
  - intros [= <-]. split; [by intros k v ?%elem_of_nil | done].
  - apply NoDup_cons in Hnodup as [Hk0 Hnodup].
    destruct v0 as [e0|]; [| done].
    destruct (unusedQuestions st e0) as [u0|] eqn:Hu0; simpl; [| done].
    apply unusedQuestions_Ok in Hu0 as ->.
    assert (ex_id e0 = k0) as -> by (apply Hkeyed; by left).
    intros Hloop. apply IH in Hloop as [Hin Hout]; [| done |].
    2: { intros k e ?. apply Hkeyed. by right. }
    split.
    + intros k v [[= -> ->] | Hkv]%elem_of_cons; [| by apply Hin].
      exists e0. split; [done |]. rewrite Hout by done. apply lookup_insert_eq.
    + intros id [Hne Hid]%not_elem_of_cons. rewrite Hout by done.
      by apply lookup_insert_ne.
Qed.

Lemma unused_loop_cached (st : State) (l : list (option Exercise))
    (m0 : gmap string (list string)) :
  sections_hold_arrays st → Forall is_Some l →
  ∃ m, unused_loop st l m0 = Ok m.
Proof.
  intros Harrays Hl. revert m0.
  induction Hl as [|o l [e ->] _ IH]; intros m0; simpl; [eauto |].
  destruct (unusedQuestions_arrays st e Harrays) as [u ->]. simpl. apply IH.
Qed.

(** C8. The item of a question is the composite key
    [exercise_id:assessment_item_id].  In every state of the composable,
    when the map of the unused questions is computed, its entry for an
    exercise of the active resource map is the list of the composite keys
    of the assessment items of the exercise, in their order, without those
    that are the item of a question of the quiz; and it has no other
    entries.  It is computed whenever the sections hold arrays of questions
    and the exercises of the active questions are in the cache. *)
Theorem activeExercisesUnusedQuestionsMap_spec (st : State) :
  reachable st →
  (∀ unusedMap,
     activeExercisesUnusedQuestionsMap st = Ok unusedMap →
     (∀ k exercise,
        (k, Some exercise) ∈ activeResourceMap st →
        unusedMap !! ex_id exercise
        = Some (filter (λ qid, qid ∉ quiz_items st)
                  (map (composite (ex_id exercise))
                       (assessment_item_ids exercise))))
     ∧ (∀ id, is_Some (unusedMap !! id) →
              ∃ exercise, (id, Some exercise) ∈ activeResourceMap st
                          ∧ ex_id exercise = id))
  ∧ (sections_hold_arrays st →
     (∀ q, q ∈ activeQuestions st → is_Some (_exerciseMap st !! exercise_id q)) →
     ∃ unusedMap, activeExercisesUnusedQuestionsMap st = Ok unusedMap).
Proof.
  intros Hkeyed%reachable_cache_keyed.
  destruct (activeResourceMap_entries st) as (Hnodup & Hval & Hqs).
  assert (Hids : ∀ k e, (k, Some e) ∈ activeResourceMap st → ex_id e = k).
  { intros k e [Hin _]%Hval. by apply Hkeyed. }
  split.
  - intros unusedMap [Hin Hout]%unused_loop_Ok; [| done | done]. split.
    + intros k exercise Hk. destruct (Hin _ _ Hk) as (e & [= <-] & Hlook).
      rewrite <- (Hids _ _ Hk) in Hlook. exact Hlook.
    + intros id Hid.
      destruct (decide (id ∈ map fst (activeResourceMap st))) as [Hmem | Hnot].
      * apply list_elem_of_fmap in Hmem as ([k v] & -> & Hkv). simpl in *.
        destruct (Hin _ _ Hkv) as (e & -> & _). exists e.
        split; [done | by apply Hids].
      * rewrite (Hout _ Hnot), lookup_empty in Hid. by destruct Hid.
  - intros Harrays Hcached. apply unused_loop_cached; [done |].
    apply Forall_forall. intros o ([k v] & -> & Hkv)%list_elem_of_fmap. simpl.
    destruct (Hval _ _ Hkv) as [-> (q & -> & Hq)%list_elem_of_fmap].
    by apply Hcached.
Qed.

(** *** Uniqueness of the items *)

Lemma NoDup_replace_middle {A} (l1 l2 l2' l3 : list A) :
  NoDup (l1 ++ l2 ++ l3) → NoDup l2' →
  (∀ x, x ∈ l2' → x ∉ l1 ++ l3) →
  NoDup (l1 ++ l2' ++ l3).
Proof.
  rewrite !NoDup_app. intros (H1 & H12 & _ & H23 & H3) H2' Hfresh.
  split; [done |]. split.
  - intros x Hx [Hin | Hin]%elem_of_app.
    + apply (Hfresh x Hin), elem_of_app. by left.
    + apply (H12 x Hx), elem_of_app. by right.
  - split; [done |]. split; [| done].
    intros x Hx Hin. apply (Hfresh x Hx), elem_of_app. by right.
Qed.

Lemma NoDup_remove_middle {A} (l1 l2 l3 : list A) :
  NoDup (l1 ++ l2 ++ l3) → NoDup (l1 ++ l3).
Proof.
  intros H. apply (NoDup_replace_middle l1 l2 [] l3 H); [apply NoDup_nil_2 |].
  by intros x ?%elem_of_nil.
Qed.

Lemma submseteq_NoDup {A} (l k : list A) : l ⊆+ k → NoDup k → NoDup l.
Proof.
  intros [k' Hk]%submseteq_Permutation. rewrite Hk.
  by intros [? _]%NoDup_app.
Qed.

Lemma section_items_insert (sections : list QuizSection) (n : nat)
    (s s' : QuizSection) :
  sections !! n = Some s →
  concat (map section_items (<[n := s']> sections))
  = concat (map section_items (take n sections))
    ++ section_items s'
    ++ concat (map section_items (drop (S n) sections)).
Proof.
  intros Hs. rewrite insert_take_drop by (by eapply lookup_lt_Some).
  by rewrite map_app, concat_app.
Qed.

Lemma section_items_split (sections : list QuizSection) (n : nat)
    (s : QuizSection) :
  sections !! n = Some s →
  concat (map section_items sections)
  = concat (map section_items (take n sections))
    ++ section_items s
    ++ concat (map section_items (drop (S n) sections)).
Proof.
  intros Hs. rewrite <- (take_drop_middle sections n s Hs) at 1.
  by rewrite map_app, concat_app.
Qed.

Lemma section_items_delete (sections : list QuizSection) (n : nat) :
  concat (map section_items (delete n sections))
  = concat (map section_items (take n sections))
    ++ concat (map section_items (drop (S n) sections)).
Proof. by rewrite delete_take_drop, map_app, concat_app. Qed.

(** The section at the index takes the questions [qs']: the items stay
    unique when those of [qs'] are pairwise distinct and used in no other
    section. *)
Lemma unique_items_insert (st : State) (i : Z) (s s' : QuizSection) :
  js_index (allSections st) i = Some s →
  unique_items st →
  NoDup (section_items s') →
  (∀ x, x ∈ section_items s' → x ∉ other_items st i) →
  NoDup (concat (map section_items (<[Z.to_nat i := s']> (allSections st)))).
Proof.
  intros [_ Hs]%js_index_Some Hunique Hnodup Hfresh.
  rewrite (section_items_insert _ _ s) by done.
  unfold unique_items, quiz_items in Hunique.
  rewrite (section_items_split _ _ s Hs) in Hunique.
  apply (NoDup_replace_middle _ _ _ _ Hunique Hnodup).
  intros x Hx. specialize (Hfresh x Hx).
  unfold other_items in Hfresh. by rewrite section_items_delete in Hfresh.
Qed.

Lemma section_items_fresh (st : State) (i : Z) (s : QuizSection) :
  js_index (allSections st) i = Some s →
  unique_items st →
  NoDup (section_items s)
  ∧ ∀ x, x ∈ section_items s → x ∉ other_items st i.
Proof.
  intros [_ Hs]%js_index_Some Hunique.
  unfold unique_items, quiz_items in Hunique.
  rewrite (section_items_split _ _ s Hs) in Hunique.
  unfold other_items. rewrite section_items_delete.
  apply NoDup_app in Hunique as (H1 & H12 & [H2 [H23 H3]]%NoDup_app).
  split; [done |]. intros x Hx [Hin | Hin]%elem_of_app.
  - apply (H12 x Hin), elem_of_app. by left.
  - by apply (H23 x Hx).
Qed.

Lemma unique_items_ext (st st' : State) :
  allSections st' = allSections st → unique_items st → unique_items st'.
Proof. unfold unique_items, quiz_items. by intros ->. Qed.

Lemma check_questions_array (l : list (option QuizQuestion))
    (qs : option questions_value) :
  check_questions (Some (ArgArray l)) = Ok qs →
  qs = Some (QArray (omap id l)) ∧ l = map Some (omap id l).
Proof.
  simpl. case_bool_decide; [done |].
  destruct (existsb _ l) eqn:Hvalid; [done |]. intros [= <-]. split; [done |].
  clear -Hvalid. induction l as [|[q|] l IH]; simpl in *; [done | |].
  - apply orb_false_iff in Hvalid as [_ Hl]. csimpl. f_equal. by apply IH.
  - done.
Qed.

(** [updateSection] keeps the items unique when the questions it is given
    are fresh for the section. *)
Lemma updateSection_unique (i : Z) (u : SectionUpdates) (st : State) :
  unique_items st →
  (∀ l, upd_questions u = Some (ArgArray l) → fresh_for st i (omap id l)) →
  unique_items (updateSection i u st).2.
Proof.
  intros Hunique Hfresh.
  destruct (updateSection_cases i u st) as [(t & qs & Ht & Hqs & ->) | [_ ->]];
    [| done].
  unfold unique_items, quiz_items.
  change (allSections (updated i u t qs st))
    with (<[Z.to_nat i := spread_section t qs u]> (allSections st)).
  destruct (section_items_fresh st i t Ht Hunique) as [Hold1 Hold2].
  apply (unique_items_insert st i t); [done | done | |];
    unfold section_items; simpl;
    destruct (upd_questions u) as [[l| |]|] eqn:Hu.
  - apply check_questions_array in Hqs as [-> _]. simpl.
    by apply (Hfresh l).
  - simpl in Hqs. injection Hqs as <-. simpl. apply NoDup_nil_2.
  - done.
  - simpl in Hqs. injection Hqs as <-. apply Hold1.
  - apply check_questions_array in Hqs as [-> _]. simpl.
    intros x (q & -> & Hq)%list_elem_of_fmap.
    by apply (Hfresh l).
  - simpl in Hqs. injection Hqs as <-. simpl. by intros x ?%elem_of_nil.
  - done.
  - simpl in Hqs. injection Hqs as <-. apply Hold2.
Qed.

Lemma addSection_unique (st : State) :
  unique_items st → unique_items (addSection st).2.
Proof.
  intros Hunique. unfold unique_items, quiz_items.
  destruct (addSection_sections st) as [-> | ->]; [done |].
  rewrite map_app, concat_app. simpl. by rewrite !app_nil_r.
Qed.

Lemma removeSection_unique (i : Z) (st : State) :
  unique_items st → unique_items (removeSection i st).2.
Proof.
  intros Hunique. unfold removeSection.
  rewrite (bind_Ok _ _ st st (allSections st)) by done.
  destruct (js_index (allSections st) i) as [t|] eqn:Ht; [| done].
  rewrite (slice_remove _ _ t Ht).
  set (rest := delete (Z.to_nat i) (allSections st)).
  destruct (validateQuiz (sections_update rest)) eqn:Hvalid.
  2: { by rewrite (bind_Throw _ _ _ _ _ (updateQuiz_invalid _ _ Hvalid)). }
  rewrite (bind_Ok _ _ _ _ _ (updateQuiz_valid _ _ Hvalid)).
  set (st1 := set_quiz _ _).
  rewrite (bind_Ok _ _ st1 st1 (allSections st1)) by done.
  assert (Hst1 : unique_items st1).
  { unfold unique_items, quiz_items.
    change (allSections st1) with rest. subst rest.
    rewrite section_items_delete.
    apply js_index_Some in Ht as [_ Ht].
    unfold unique_items, quiz_items in Hunique.
    rewrite (section_items_split _ _ t Ht) in Hunique.
    by apply NoDup_remove_middle in Hunique. }
  case_bool_decide; [| done].
  pose proof (addSection_unique st1 Hst1) as Hadd.
  unfold bind. by destruct (addSection st1) as [[s|e] st2].
Qed.

Lemma omap_id_Some {A} (l : list A) : omap id (map Some l) = l.
Proof. induction l as [|x l IH]; csimpl; [done | by rewrite IH]. Qed.

Lemma quiz_items_section (st : State) (i : Z) (s : QuizSection) (x : string) :
  js_index (allSections st) i = Some s →
  x ∈ quiz_items st ↔ x ∈ section_items s ∨ x ∈ other_items st i.
Proof.
  intros [_ Hs]%js_index_Some. unfold quiz_items, other_items.
  rewrite (section_items_split _ _ s Hs), section_items_delete.
  rewrite !elem_of_app. tauto.
Qed.

Lemma deleteActiveSelectedQuestions_unique (st : State) :
  unique_items st → unique_items (deleteActiveSelectedQuestions st).2.
Proof.
  intros Hunique. unfold deleteActiveSelectedQuestions.
  destruct (activeSection st) as [section|] eqn:Hsection; [| done].
  unfold questions_array.
  destruct (questions section) as [section_questions|] eqn:Hqs; [| done].
  set (u := {| upd_questions := _ |}).
  assert (Hu : unique_items (updateSection (activeSectionIndex st) u st).2).
  { apply updateSection_unique; [done |].
    intros l [= <-]. rewrite omap_id_Some.
    destruct (section_items_fresh st _ _ Hsection Hunique) as [Hnodup Hfresh].
    unfold section_items in *. rewrite Hqs in *. split.
    - eapply sublist_NoDup; [exact Hnodup |].
      apply fmap_sublist, sublist_filter.
    - intros q [_ Hq]%list_elem_of_filter. apply Hfresh.
      by apply list_elem_of_fmap_2. }
  unfold bind, modify.
  by destruct (updateSection _ u st) as [[[]|e] st'].
Qed.

Lemma replace_map_submseteq (base : list QuizQuestion) (items : list string)
    (repl : list QuizQuestion) :
  omap id (replace_map base items repl) ⊆+ base ++ repl.
Proof.
  revert repl. induction base as [|q base IH]; intros repl; simpl.
  - apply submseteq_nil_l.
  - destruct (includes items (item q)).
    + destruct repl as [|r repl]; csimpl.
      * apply submseteq_cons, IH.
      * rewrite <- Permutation_middle. apply submseteq_cons, submseteq_skip.
        apply IH.
    + csimpl. apply submseteq_skip, IH.
Qed.

Lemma addQuestionsToSection_unique (i : Z) (qs : option (list QuizQuestion))
    (resources : option (list Exercise)) (items : option (list string))
    (st : State) :
  unique_items st →
  (∀ l, qs = Some l → fresh_for st i l) →
  unique_items (addQuestionsToSection i qs resources items st).2.
Proof.
  intros Hunique Hfresh. unfold addQuestionsToSection.
  destruct (js_index (allSections st) i) as [t|] eqn:Ht; [| done].
  destruct qs as [[|q0 qs]|]; [done | | done].
  set (supplied := q0 :: qs) in *.
  destruct (Hfresh supplied eq_refl) as [Hnodup Hothers].
  unfold questions_array. destruct (questions t) as [old|] eqn:Hold; [| done].
  simpl. set (new := filter (λ q, item q ∉ map item old) supplied).
  destruct (section_items_fresh st i t Ht Hunique) as [Hold1 Hold2].
  unfold section_items in Hold1, Hold2. rewrite Hold in Hold1, Hold2.
  assert (Hall : NoDup (map item (old ++ new))
                 ∧ ∀ q, q ∈ old ++ new → item q ∉ other_items st i).
  { split.
    - rewrite map_app. apply NoDup_app. split; [done |]. split.
      + intros x Hx (q & -> & [Hq _]%list_elem_of_filter)%list_elem_of_fmap.
        done.
      + eapply sublist_NoDup; [exact Hnodup |].
        apply fmap_sublist, sublist_filter.
    - intros q [Hq | [_ Hq]%list_elem_of_filter]%elem_of_app.
      + apply Hold2. by apply list_elem_of_fmap_2.
      + by apply Hothers. }
  assert (Hsub : ∀ l, l ⊆+ old ++ new → fresh_for st i l).
  { intros l Hl. destruct Hall as [Hall1 Hall2]. split.
    - eapply submseteq_NoDup; [| exact Hall1]. by apply fmap_submseteq.
    - intros q Hq. apply Hall2. by eapply elem_of_submseteq. }
  destruct items as [[|it items]|].
  - apply updateSection_unique; [done |]. intros l [= <-].
    rewrite omap_id_Some. by apply Hsub.
  - unfold _replaceQuestions. case_bool_decide; [done |].
    apply updateSection_unique; [done |]. intros l [= <-].
    apply Hsub, replace_map_submseteq.
  - apply updateSection_unique; [done |]. intros l [= <-].
    rewrite omap_id_Some. by apply Hsub.
Qed.

Lemma addQuestionsToSectionFromResources_unique (i : Z)
    (pool : option (list Exercise)) (n : option Z) (seed : Z) (st : State) :
  unique_items st →
  (∀ l, seededShuffle seed l ≡ₚ l) →
  (∀ p, pool = Some p →
        NoDup (map item (concat (map exerciseToQuestionArray p)))) →
  unique_items (addQuestionsToSectionFromResources i pool n seed st).2.
Proof.
  intros Hunique Hshuffle Hpool. unfold addQuestionsToSectionFromResources.
  destruct (js_index (allSections st) i) as [t|] eqn:Ht; [| done].
  destruct pool as [[|ex pool]|]; [done | | done].
  set (p := ex :: pool) in *. specialize (Hpool p eq_refl).
  destruct n as [n|]; [| done]. case_bool_decide; [done |].
  destruct (allQuestionsInQuiz st) as [all|] eqn:Hall; simpl; [| done].
  unfold selectQuestions. rewrite (allQuestionsInQuiz_items _ _ Hall).
  fold (available_questions st p). case_bool_decide; simpl; [done |].
  unfold questions_array. destruct (questions t) as [old|] eqn:Hold; [| done].
  simpl. set (new := take _ _).
  apply updateSection_unique; [done |]. intros l [= <-]. rewrite omap_id_Some.
  destruct (section_items_fresh st i t Ht Hunique) as [Hold1 Hold2].
  unfold section_items in Hold1, Hold2. rewrite Hold in Hold1, Hold2.
  assert (Hnew : ∀ q, q ∈ new → item q ∉ quiz_items st).
  { intros q (k & Hq%list_elem_of_lookup_2 & _)%elem_of_take.
    rewrite Hshuffle in Hq.
    by apply list_elem_of_filter in Hq as [? _]. }
  assert (Hnodup : NoDup (map item new)).
  { eapply sublist_NoDup; [| apply fmap_sublist, sublist_take].
    rewrite Hshuffle.
    eapply sublist_NoDup; [exact Hpool |].
    apply fmap_sublist, sublist_filter. }
  split.
  - rewrite map_app. apply NoDup_app. split; [done |]. split; [| done].
    intros x Hx (q & -> & Hq)%list_elem_of_fmap.
    apply (Hnew q Hq), (quiz_items_section st i t _ Ht). left.
    unfold section_items. by rewrite Hold.
  - intros q [Hq | Hq]%elem_of_app.
    + apply Hold2. by apply list_elem_of_fmap_2.
    + intros Hin. apply (Hnew q Hq), (quiz_items_section st i t _ Ht).
      by right.
Qed.

(** *** [autoReplaceQuestions] *)

Lemma exerciseToQuestionArray_items (e : Exercise) :
  map item (exerciseToQuestionArray e)
  = map (composite (ex_id e)) (assessment_item_ids e).
Proof.
  unfold exerciseToQuestionArray. apply list_eq. intros k.
  change (map ?f ?l) with (f <$> l).
  rewrite !list_lookup_fmap, list_lookup_imap.
  by destruct (assessment_item_ids e !! k).
Qed.

Lemma exerciseToQuestionArray_exercise (e : Exercise) (q : QuizQuestion) :
  q ∈ exerciseToQuestionArray e → exercise_id q = ex_id e.
Proof.
  unfold exerciseToQuestionArray.
  intros (k & aid & -> & _)%elem_of_lookup_imap. done.
Qed.

Lemma find_item_Some (l : list QuizQuestion) (c : string) :
  c ∈ map item l →
  ∃ q, find (λ q, bool_decide (item q = c)) l = Some q ∧ item q = c ∧ q ∈ l.
Proof.
  induction l as [|q l IH]; simpl; [by intros ?%elem_of_nil |].
  case_bool_decide as Hq.
  - intros _. exists q. split; [done |]. split; [done | by left].
  - intros [-> | Hin]%elem_of_cons; [done |].
    destruct (IH Hin) as (q' & ? & ? & ?). exists q'.
    split; [done |]. split; [done | by right].
Qed.

Lemma find_elem_of {A} (p : A → bool) (l : list A) (x : A) :
  find p l = Some x → x ∈ l ∧ p x = true.
Proof.
  induction l as [|y l IH]; simpl; [done |].
  destruct (p y) eqn:Hy.
  - intros [= ->]. split; [by left | done].
  - intros [? ?]%IH. split; [by right | done].
Qed.

(** An entry of the map of the unused questions is the list of the unused
    composite keys of the exercise cached under its key. *)
Lemma unusedMap_entry (st : State) (unusedMap : gmap string (list string))
    (E : string) (unused : list string) :
  cache_keyed (_exerciseMap st) →
  activeExercisesUnusedQuestionsMap st = Ok unusedMap →
  unusedMap !! E = Some unused →
  ∃ e, _exerciseMap st !! E = Some e ∧ ex_id e = E
       ∧ unused = unused_composites st e.
Proof.
  intros Hkeyed Hmap HE.
  destruct (activeResourceMap_entries st) as (Hnodup & Hval & _).
  apply unused_loop_Ok in Hmap as [Hin Hout]; [| done |].
  2: { intros k e [Hk _]%Hval. by apply Hkeyed. }
  destruct (decide (E ∈ map fst (activeResourceMap st))) as [Hmem | Hnot].
  - apply list_elem_of_fmap in Hmem as ([k v] & -> & Hkv). simpl in *.
    destruct (Hin _ _ Hkv) as (e & -> & Hlook).
    destruct (Hval _ _ Hkv) as [Hcache _]. exists e.
    split; [done |]. split; [by apply Hkeyed |]. congruence.
  - rewrite (Hout _ Hnot), lookup_empty in HE. done.
Qed.

Lemma find_all_items (exerciseQuestions : list QuizQuestion) (cs : list string) :
  (∀ c, c ∈ cs → c ∈ map item exerciseQuestions) →
  ∃ l, List.map (λ c, find (λ q, bool_decide (item q = c)) exerciseQuestions) cs
       = map Some l
       ∧ map item l = cs
       ∧ ∀ q, q ∈ l → q ∈ exerciseQuestions.
Proof.
  induction cs as [|c cs IH]; intros Hcs; simpl.
  - exists []. split; [done |]. split; [done |]. by intros q ?%elem_of_nil.
  - destruct IH as (l & Hl & Hitems & Hin).
    { intros c' Hc'. apply Hcs. by right. }
    destruct (find_item_Some exerciseQuestions c) as (q & Hq & Hitem & Hmem).
    { apply Hcs. by left. }
    exists (q :: l). rewrite Hq, Hl. simpl. rewrite Hitem, Hitems.
    split; [done |]. split; [done |].
    intros q' [-> | Hq']%elem_of_cons; [done | by apply Hin].
Qed.

Lemma unused_composites_items (st : State) (e : Exercise) (c : string) :
  c ∈ unused_composites st e →
  c ∈ map item (exerciseToQuestionArray e) ∧ c ∉ quiz_items st.
Proof.
  unfold unused_composites. intros [Hc Hin]%list_elem_of_filter.
  by rewrite exerciseToQuestionArray_items.
Qed.

(** The map that [autoReplaceQuestions] builds for the exercises of the
    questions to replace: under the id of each of these exercises, the
    questions of the exercise whose items are its unused composite keys, in
    the order of the shuffle; the other entries are those of [m0]. *)
Lemma shuffle_unused_Ok (shuffled : list string → list string) (st : State)
    (exercises : list string)
    (m0 m : gmap string (list (option QuizQuestion))) :
  cache_keyed (_exerciseMap st) →
  (∀ l, shuffled l ≡ₚ l) →
  shuffle_unused shuffled st exercises m0 = Ok m →
  ∀ E, (E ∈ exercises
        ∧ ∃ e l, _exerciseMap st !! E = Some e ∧ ex_id e = E
                 ∧ m !! E = Some (map Some l)
                 ∧ map item l = shuffled (unused_composites st e)
                 ∧ ∀ q, q ∈ l → q ∈ exerciseToQuestionArray e)
       ∨ ((E ∉ exercises) ∧ m !! E = m0 !! E).
Proof.
  intros Hkeyed Hshuffle. revert m0.
  induction exercises as [|E0 rest IH]; intros m0; simpl.
  - intros [= <-] E. right. split; [apply not_elem_of_nil | done].
  - destruct (activeExercisesUnusedQuestionsMap st) as [unusedMap|] eqn:Hmap;
      simpl; [| done].
    destruct (unusedMap !! E0) as [[|c cs]|] eqn:HE0; [done | | done].
    destruct (unusedMap_entry st _ _ _ Hkeyed Hmap HE0) as (e & Hcache & Hid & Hunused).
    rewrite Hcache, Hunused.
    destruct (find_all_items (exerciseToQuestionArray e)
                (shuffled (unused_composites st e))) as (l & Hl & Hitems & Hmem).
    { intros c' Hc'. rewrite Hshuffle in Hc'.
      by apply unused_composites_items in Hc' as [? _]. }
    rewrite Hl. intros Hrest E.
    destruct (IH _ Hrest E) as [[Hin Hentry] | [Hnot Hsame]].
    + left. split; [by right | done].
    + destruct (decide (E = E0)) as [-> | Hne].
      * left. split; [by left |]. exists e, l.
        rewrite Hsame, lookup_insert_eq. done.
      * right. split; [by apply not_elem_of_cons |].
        by rewrite Hsame, lookup_insert_ne.
Qed.

Lemma shuffle_unused_slots (shuffled : list string → list string) (st : State)
    (exercises : list string) (m : gmap string (list (option QuizQuestion))) :
  cache_keyed (_exerciseMap st) →
  distinct_composites (_exerciseMap st) →
  (∀ l, shuffled l ≡ₚ l) →
  shuffle_unused shuffled st exercises ∅ = Ok m →
  slots_distinct m
  ∧ ∀ E x, x ∈ slot_items m E →
           (x ∉ quiz_items st)
           ∧ (∃ e, _exerciseMap st !! E = Some e ∧ ex_id e = E
                   ∧ x ∈ map item (exerciseToQuestionArray e)).
Proof.
  intros Hkeyed [Hwithin Hacross] Hshuffle Hm.
  pose proof (shuffle_unused_Ok _ _ _ _ _ Hkeyed Hshuffle Hm) as Hslots.
  assert (Hslot : ∀ E x, x ∈ slot_items m E →
            ∃ e, _exerciseMap st !! E = Some e ∧ ex_id e = E
                 ∧ slot_items m E = shuffled (unused_composites st e)).
  { intros E x Hx. unfold slot_items in *.
    destruct (Hslots E) as [[_ (e & l & Hcache & Hid & -> & Hitems & _)] | [_ HE]].
    - exists e. by rewrite omap_id_Some.
    - rewrite HE, lookup_empty in Hx. by apply elem_of_nil in Hx. }
  assert (Hitems : ∀ E x, x ∈ slot_items m E →
            (x ∉ quiz_items st)
            ∧ (∃ e, _exerciseMap st !! E = Some e ∧ ex_id e = E
                    ∧ x ∈ map item (exerciseToQuestionArray e))).
  { intros E x Hx. destruct (Hslot E x Hx) as (e & Hcache & Hid & Heq).
    rewrite Heq, Hshuffle in Hx.
    apply unused_composites_items in Hx as [? ?]. eauto. }
  split; [split |]; [| | done].
  - intros E. destruct (slot_items m E) as [|x xs] eqn:Hxs; [apply NoDup_nil_2 |].
    destruct (Hslot E x) as (e & Hcache & _ & Heq); [rewrite Hxs; by left |].
    rewrite <- Hxs, Heq, Hshuffle.
    eapply sublist_NoDup; [exact (Hwithin _ _ Hcache) |].
    rewrite exerciseToQuestionArray_items. apply sublist_filter.
  - intros E E' x Hne HE HE'.
    destruct (Hitems _ _ HE) as (_ & e & Hcache & _ & Hx).
    destruct (Hitems _ _ HE') as (_ & e' & Hcache' & _ & Hx').
    by apply (Hacross E E' e e' x).
Qed.

Lemma slot_items_pop (m : gmap string (list (option QuizQuestion)))
    (E : string) (l : list (option QuizQuestion)) (q : QuizQuestion) :
  m !! E = Some l → last l = Some (Some q) →
  slot_items m E = slot_items (<[E := removelast l]> m) E ++ [item q]
  ∧ ∀ E', E' ≠ E → slot_items (<[E := removelast l]> m) E' = slot_items m E'.
Proof.
  intros Hl Hlast. unfold slot_items. rewrite Hl, lookup_insert_eq. split.
  - destruct (exists_last (l := l)) as (l' & x & ->).
    { intros ->. done. }
    rewrite last_snoc in Hlast. injection Hlast as ->.
    rewrite removelast_last, omap_app, map_app. done.
  - intros E' Hne. by rewrite lookup_insert_ne.
Qed.

(** The questions that [autoReplaceQuestions] pops have pairwise distinct
    items, drawn from the lists of the map. *)
Lemma pop_unused_Ok (m : gmap string (list (option QuizQuestion)))
    (questionsToReplace news : list QuizQuestion) :
  slots_distinct m →
  pop_unused m questionsToReplace = Ok news →
  NoDup (map item news)
  ∧ length news = length questionsToReplace
  ∧ ∀ q', q' ∈ news → ∃ E, item q' ∈ slot_items m E.
Proof.
  revert m news. induction questionsToReplace as [|question rest IH];
    intros m news Hm; simpl.
  - intros [= <-]. split; [apply NoDup_nil_2 |]. split; [done |].
    by intros q' ?%elem_of_nil.
  - destruct (m !! exercise_id question) as [l|] eqn:Hl; [| done].
    destruct (last l) as [[q|]|] eqn:Hlast; [| done | done].
    destruct (slot_items_pop m _ l q Hl Hlast) as [Hslot Hothers].
    set (m' := <[exercise_id question := removelast l]> m) in *.
    assert (Hm' : slots_distinct m' ∧ ∀ E, item q ∉ slot_items m' E).
    { destruct Hm as [Hnodup Hacross].
      pose proof (Hnodup (exercise_id question)) as Hq.
      rewrite Hslot in Hq. apply NoDup_app in Hq as (Hq1 & Hq2 & _).
      assert (Hqin : item q ∈ slot_items m (exercise_id question)).
      { rewrite Hslot, elem_of_app. right. by left. }
      split; [split |].
      - intros E. destruct (decide (E = exercise_id question)) as [-> | Hne];
          [done | rewrite Hothers by done; apply Hnodup].
      - intros E E' x Hne HE HE'.
        assert (HEm : x ∈ slot_items m E).
        { destruct (decide (E = exercise_id question)) as [-> | HneE].
          - rewrite Hslot, elem_of_app. by left.
          - by rewrite <- Hothers. }
        assert (HEm' : x ∈ slot_items m E').
        { destruct (decide (E' = exercise_id question)) as [-> | HneE].
          - rewrite Hslot, elem_of_app. by left.
          - by rewrite <- Hothers. }
        by apply (Hacross E E' x).
      - intros E HE. destruct (decide (E = exercise_id question)) as [-> | Hne].
        + apply (Hq2 _ HE). by left.
        + rewrite Hothers in HE by done.
          by apply (Hacross (exercise_id question) E (item q)). }
    destruct Hm' as [Hm' Hfresh].
    destruct (pop_unused m' rest) as [news'|] eqn:Hrest; simpl; [| done].
    intros [= <-]. destruct (IH _ _ Hm' Hrest) as (Hnodup' & Hlen & Hin').
    split; [| split].
    + simpl. apply NoDup_cons. split; [| done].
      intros (q' & Hitem & Hq')%list_elem_of_fmap.
      destruct (Hin' _ Hq') as [E HE]. rewrite <- Hitem in HE.
      by apply (Hfresh E).
    + simpl. by rewrite Hlen.
    + intros q' [-> | Hq']%elem_of_cons.
      * exists (exercise_id question). rewrite Hslot, elem_of_app.
        right. by left.
      * destruct (Hin' _ Hq') as [E HE]. exists E.
        destruct (decide (E = exercise_id question)) as [-> | Hne].
        -- rewrite Hslot, elem_of_app. by left.
        -- by rewrite <- Hothers.
Qed.

Lemma activeQuestions_items (st : State) (t : QuizSection) :
  js_index (allSections st) (activeSectionIndex st) = Some t →
  map item (activeQuestions st) = section_items t.
Proof.
  intros Ht. unfold activeQuestions, activeSection, section_items.
  rewrite Ht. by destruct (questions t).
Qed.

Lemma autoReplaceQuestions_unique (shuffled : list string → list string)
    (questionItems : list string) (st : State) :
  unique_items st →
  cache_keyed (_exerciseMap st) →
  distinct_composites (_exerciseMap st) →
  (∀ l, shuffled l ≡ₚ l) →
  unique_items (autoReplaceQuestions shuffled questionItems st).2.
Proof.
  intros Hunique Hkeyed Hdistinct Hshuffle. unfold autoReplaceQuestions.
  destruct questionItems as [|it questionItems]; [done |].
  set (toReplace := questionsToReplace st (it :: questionItems)).
  destruct (shuffle_unused shuffled st _ ∅) as [smap|] eqn:Hsmap; simpl; [| done].
  destruct (pop_unused smap toReplace) as [news|] eqn:Hnews; simpl; [| done].
  unfold _replaceQuestions. case_bool_decide; [done |].
  destruct (js_index (allSections st) (activeSectionIndex st)) as [t|] eqn:Ht.
  2: { by rewrite updateSection_no_section. }
  apply updateSection_unique; [done |]. intros l [= <-].
  destruct (shuffle_unused_slots _ _ _ _ Hkeyed Hdistinct Hshuffle Hsmap)
    as [Hslots Hitems].
  destruct (pop_unused_Ok _ _ _ Hslots Hnews) as (Hnodup & _ & Hdrawn).
  assert (Hnew : ∀ q, q ∈ news → item q ∉ quiz_items st).
  { intros q [E HE]%Hdrawn. by apply Hitems in HE as [? _]. }
  destruct (section_items_fresh st _ t Ht Hunique) as [Hold1 Hold2].
  rewrite <- (activeQuestions_items st t Ht) in Hold1, Hold2.
  assert (Hall : NoDup (map item (activeQuestions st ++ news))
                 ∧ ∀ q, q ∈ activeQuestions st ++ news →
                        item q ∉ other_items st (activeSectionIndex st)).
  { split.
    - rewrite map_app. apply NoDup_app. split; [done |]. split; [| done].
      intros x Hx (q & -> & Hq)%list_elem_of_fmap.
      apply (Hnew q Hq), (quiz_items_section st _ t _ Ht). left.
      by rewrite <- (activeQuestions_items st t Ht).
    - intros q [Hq | Hq]%elem_of_app.
      + apply Hold2. by apply list_elem_of_fmap_2.
      + intros Hin. apply (Hnew q Hq), (quiz_items_section st _ t _ Ht).
        by right. }
  destruct Hall as [Hall1 Hall2].
  pose proof (replace_map_submseteq (activeQuestions st)
                (List.map item toReplace) news) as Hsub.
  split.
  - eapply submseteq_NoDup; [| exact Hall1]. by apply fmap_submseteq.
  - intros q Hq. apply Hall2. by eapply elem_of_submseteq.
Qed.

Lemma initializeQuiz_new_unique (collection : string)
    (fetched : option (QuizUpdates * list Exercise)) (st : State) :
  unique_items (initializeQuiz collection "new" fetched st).2.
Proof.
  unfold initializeQuiz. rewrite bool_decide_true by done.
  unfold bind at 1. unfold modify at 1.
  set (st1 := set_quiz _ st).
  assert (Hunique : unique_items st1) by apply NoDup_nil_2.
  pose proof (addSection_unique st1 Hunique) as Hadd.
  unfold bind, modify. by destruct (addSection st1) as [[s|e] st2].
Qed.

(** C1 (as amended). A new quiz has unique items, and in a state of the
    composable an authoring operation keeps the items of the questions
    unique across the sections of the quiz when it is given fresh
    questions, so that every quiz authored with fresh questions has unique
    items: [addSection],
    [removeSection] and [deleteActiveSelectedQuestions] always;
    [updateSection] when the questions it is given have pairwise distinct
    items that no other section uses; [addQuestionsToSection] when the
    questions it is given have pairwise distinct items that no other
    section uses (those already in the target section are left out by the
    operation); [addQuestionsToSectionFromResources] and
    [autoReplaceQuestions] when the composite keys of the exercises they
    draw from are pairwise distinct. *)
Theorem unique_items_kept :
  (∀ collection fetched st,
     unique_items (run (OpInitializeQuiz collection "new" fetched) st).2)
  ∧ (∀ op st,
       reachable st →
       authoring_operation op = true →
       supplies_fresh_questions op st →
       unique_items st →
       unique_items (run op st).2)
  ∧ (∀ st, authored_fresh st → unique_items st).
Proof.
  assert (Hstep : ∀ op st,
            reachable st →
            authoring_operation op = true →
            supplies_fresh_questions op st →
            unique_items st →
            unique_items (run op st).2).
  2: { split; [apply initializeQuiz_new_unique |]. split; [exact Hstep |].
       intros st Hst.
       enough (reachable st ∧ unique_items st) as [_ ?] by done.
       induction Hst as [c f st Hreach | op st Hop Hfresh _ [Hreach Hunique]].
       - split; [by apply reachable_step | apply initializeQuiz_new_unique].
       - split; [by apply reachable_step | by apply Hstep]. }
  intros op st Hreach Hop Hfresh Hunique.
  destruct op; try done; simpl in *.
  - destruct (saveQuiz_state st) as [-> | [request ->]]; done.
  - eapply unique_items_ext; [apply saveQuiz_then_sections | done].
  - by apply updateSection_unique.
  - by apply addQuestionsToSection_unique.
  - destruct Hfresh. by apply addQuestionsToSectionFromResources_unique.
  - destruct Hfresh.
    apply autoReplaceQuestions_unique; [done | | done | done].
    by apply reachable_cache_keyed.
  - by apply deleteActiveSelectedQuestions_unique.
  - by apply addSection_unique.
  - by apply removeSection_unique.
  - unfold navigate. by case_bool_decide.
Qed.

Lemma uniq_from_elem_of `{EqDecision A} (seen l : list A) (x : A) :
  x ∈ uniq_from seen l ↔ x ∈ l ∧ x ∉ seen.
Proof.
  revert seen. induction l as [|y l IH]; intros seen; simpl.
  - split; [by intros ?%elem_of_nil | by intros [?%elem_of_nil _]].
  - unfold includes. case_bool_decide as Hy.
    + rewrite IH, elem_of_cons. split; [tauto |].
      intros [[-> | ?] ?]; [done | tauto].
    + rewrite !elem_of_cons, IH, not_elem_of_cons.
      destruct (decide (x = y)) as [-> | Hne]; [tauto |]. tauto.
Qed.

Lemma uniq_elem_of `{EqDecision A} (l : list A) (x : A) : x ∈ uniq l ↔ x ∈ l.
Proof.
  unfold uniq. rewrite uniq_from_elem_of.
  split; [tauto |]. intros ?. split; [done | apply not_elem_of_nil].
Qed.

(** The questions to replace are active questions whose items are listed,
    and every active question whose item is listed has its item among
    theirs. *)
Lemma questionsToReplace_items (st : State) (questionItems : list string) :
  (∀ q, q ∈ questionsToReplace st questionItems →
        q ∈ activeQuestions st ∧ item q ∈ questionItems)
  ∧ (∀ q, q ∈ activeQuestions st → item q ∈ questionItems →
          item q ∈ map item (questionsToReplace st questionItems)).
Proof.
  unfold questionsToReplace. split.
  - intros q (c & Hc & Hfind)%list_elem_of_omap.
    apply find_elem_of in Hfind as [Hq Hitem].
    apply bool_decide_eq_true in Hitem as <-. done.
  - intros q Hq Hin.
    destruct (find_item_Some (activeQuestions st) (item q)) as (q' & Hfind & Hitem & _).
    { by apply list_elem_of_fmap_2. }
    rewrite <- Hitem. apply list_elem_of_fmap_2, list_elem_of_omap. eauto.
Qed.

Lemma removelast_elem_of {A} (l : list A) (x : A) : x ∈ removelast l → x ∈ l.
Proof.
  destruct (decide (l = [])) as [-> | Hne]; [done |].
  destruct (exists_last Hne) as (l' & y & ->).
  rewrite removelast_last, elem_of_app. by left.
Qed.

Lemma last_elem_of {A} (l : list A) (x : A) : last l = Some x → x ∈ l.
Proof. rewrite last_lookup. apply list_elem_of_lookup_2. Qed.

(** A question that [autoReplaceQuestions] pops comes from the list that
    the map holds for the exercise of one of the questions to replace. *)
Lemma pop_unused_drawn (m : gmap string (list (option QuizQuestion)))
    (qs news : list QuizQuestion) :
  pop_unused m qs = Ok news →
  length news = length qs
  ∧ ∀ q', q' ∈ news →
          ∃ E l, E ∈ map exercise_id qs ∧ m !! E = Some l ∧ Some q' ∈ l.
Proof.
  revert m news. induction qs as [|question rest IH]; intros m news; simpl.
  - intros [= <-]. split; [done | by intros q' ?%elem_of_nil].
  - destruct (m !! exercise_id question) as [l|] eqn:Hl; [| done].
    destruct (last l) as [[q|]|] eqn:Hlast; [| done | done].
    destruct (pop_unused _ rest) as [news'|] eqn:Hrest; simpl; [| done].
    intros [= <-]. destruct (IH _ _ Hrest) as [Hlen Hdrawn]. split.
    + simpl. by rewrite Hlen.
    + intros q' [-> | Hq']%elem_of_cons.
      * exists (exercise_id question), l.
        split; [by left |]. split; [done | by apply last_elem_of].
      * destruct (Hdrawn _ Hq') as (E & l' & HE & Hl' & Hin).
        destruct (decide (exercise_id question = E)) as [<- | Hne].
        -- rewrite lookup_insert_eq in Hl'. injection Hl' as <-.
           exists (exercise_id question), l.
           split; [by left |]. split; [done | by apply removelast_elem_of].
        -- rewrite lookup_insert_ne in Hl' by done. exists E, l'.
           split; [by right | done].
Qed.

(** [autoReplaceQuestions] can pop for an exercise no more questions than
    the map holds for it. *)
Lemma pop_unused_enough (m : gmap string (list (option QuizQuestion)))
    (qs news : list QuizQuestion) (E : string) (l : list (option QuizQuestion)) :
  pop_unused m qs = Ok news → m !! E = Some l →
  (replaced_in E qs ≤ length l)%nat.
Proof.
  revert m news l. induction qs as [|question rest IH]; intros m news l; simpl.
  - intros _ _. unfold replaced_in. simpl. lia.
  - destruct (m !! exercise_id question) as [l0|] eqn:Hl0; [| done].
    destruct (last l0) as [[q|]|] eqn:Hlast; [| done | done].
    destruct (pop_unused _ rest) as [news'|] eqn:Hrest; simpl; [| done].
    intros _ Hl. unfold replaced_in. rewrite filter_cons.
    destruct (decide (exercise_id question = E)) as [HE | HE]; simpl.
    + subst E. rewrite Hl0 in Hl. injection Hl as <-.
      pose proof (IH _ _ (removelast l0) Hrest) as Hle.
      rewrite lookup_insert_eq in Hle. specialize (Hle eq_refl).
      unfold replaced_in in Hle.
      assert (l0 ≠ []) as Hne by (by intros ->).
      destruct (exists_last Hne) as (l' & y & ->).
      rewrite removelast_last in Hle. rewrite length_app. simpl. lia.
    + apply (IH _ _ l Hrest). by rewrite lookup_insert_ne.
Qed.

Lemma updateSection_activeQuestions (l : list (option QuizQuestion))
    (st st' : State) :
  updateSection (activeSectionIndex st)
    {| upd_questions := Some (ArgArray l); upd_resourcePool := None;
       upd_props := ∅ |} st = (Ok tt, st') →
  activeQuestions st' = omap id l ∧ l = map Some (omap id l).
Proof.
  intros Hupdate.
  destruct (updateSection_cases (activeSectionIndex st)
              {| upd_questions := Some (ArgArray l); upd_resourcePool := None;
                 upd_props := ∅ |} st)
    as [(t & qs & Ht & Hqs & Heq) | [_ Heq]];
    rewrite Heq in Hupdate; [| done].
  injection Hupdate as <-. simpl in Hqs.
  apply check_questions_array in Hqs as [-> Hl]. split; [| done].
  unfold activeQuestions, activeSection. simpl.
  change (allSections (updated _ _ t _ st))
    with (<[Z.to_nat (activeSectionIndex st) := spread_section t
              (Some (QArray (omap id l)))
              {| upd_questions := Some (ArgArray l); upd_resourcePool := None;
                 upd_props := ∅ |}]> (allSections st)).
  apply js_index_Some in Ht as [Hi Ht]. unfold js_index.
  destruct (Z.ltb_spec (activeSectionIndex st) 0); [lia |].
  by rewrite list_lookup_insert_eq by (by eapply lookup_lt_Some).
Qed.

(** X1. [autoReplaceQuestions] in a state of the composable, with a
    shuffle that permutes.  When it returns, the active section has as many
    questions as before; a question whose item is not listed is unchanged
    in place; a question whose item is listed is replaced by a question of
    the exercise of one of the questions to replace, whose item was the
    composite key of an assessment item of this exercise used nowhere in
    the quiz.  It throws, leaving the state as it was, when the unused
    questions of an exercise are fewer than its questions to replace. *)
Theorem autoReplaceQuestions_spec (shuffled : list string → list string)
    (questionItems : list string) (st : State) :
  reachable st →
  (∀ l, shuffled l ≡ₚ l) →
  let r := autoReplaceQuestions shuffled questionItems st in
  let toReplace := questionsToReplace st questionItems in
  (r.1 = Ok tt →
   length (activeQuestions r.2) = length (activeQuestions st)
   ∧ (∀ i q, activeQuestions st !! i = Some q →
             item q ∉ questionItems →
             activeQuestions r.2 !! i = Some q)
   ∧ (∀ i q, activeQuestions st !! i = Some q →
             item q ∈ questionItems →
             ∃ q' e, activeQuestions r.2 !! i = Some q'
                     ∧ exercise_id q' ∈ map exercise_id toReplace
                     ∧ _exerciseMap st !! exercise_id q' = Some e
                     ∧ item q' ∈ unused_composites st e))
  ∧ (∀ E e, _exerciseMap st !! E = Some e →
            (length (unused_composites st e) < replaced_in E toReplace)%nat →
            ∃ err, r = (Throw err, st)).
Proof.
  intros Hkeyed%reachable_cache_keyed Hshuffle r toReplace. subst r.
  destruct (questionsToReplace_items st questionItems) as [Hfound Hlisted].
  fold toReplace in Hfound, Hlisted.
  unfold autoReplaceQuestions.
  destruct questionItems as [|it questionItems].
  { split.
    - intros _. simpl. split; [done |]. split; [done |].
      by intros i q _ ?%elem_of_nil.
    - intros E e _ Hlt. unfold replaced_in in Hlt. simpl in Hlt. lia. }
  set (questionItems' := it :: questionItems) in *.
  fold toReplace.
  destruct (shuffle_unused shuffled st _ ∅) as [smap|err] eqn:Hsmap; simpl.
  2: { split; [done | eauto]. }
  pose proof (shuffle_unused_Ok _ _ _ _ _ Hkeyed Hshuffle Hsmap) as Hslots.
  destruct (pop_unused smap toReplace) as [news|err] eqn:Hnews; simpl.
  2: { split; [done | eauto]. }
  split.
  - destruct (pop_unused_drawn _ _ _ Hnews) as [Hlen Hdrawn].
    unfold _replaceQuestions.
    rewrite bool_decide_false by (rewrite length_map; lia).
    set (l := replace_map (activeQuestions st) (List.map item toReplace) news).
    destruct (updateSection _ _ st) as [[[]|err] st'] eqn:Hupdate; [| done].
    intros _. simpl.
    apply updateSection_activeQuestions in Hupdate as [-> Hl].
    assert (Hlook : ∀ i q', l !! i = Some (Some q') → omap id l !! i = Some q').
    { intros i q' Hi. rewrite Hl in Hi.
      change (map Some ?x) with (Some <$> x) in Hi.
      rewrite list_lookup_fmap in Hi.
      destruct (omap id l !! i); simpl in Hi; congruence. }
    split; [| split].
    + rewrite <- (length_map Some (omap id l)), <- Hl.
      apply replace_map_length.
    + intros i q Hq Hnot. apply Hlook. subst l.
      rewrite (replace_map_lookup _ _ _ _ _ Hq).
      unfold includes. rewrite bool_decide_false; [done |].
      intros (q0 & Hitem & Hq0)%list_elem_of_fmap.
      apply Hnot. rewrite Hitem. by apply Hfound.
    + intros i q Hq Hin.
      assert (Hi : l !! i
                   = Some (news !! listed_before (activeQuestions st)
                                     (List.map item toReplace) i)).
      { subst l. rewrite (replace_map_lookup _ _ _ _ _ Hq).
        unfold includes. rewrite bool_decide_true; [done |].
        apply Hlisted; [by eapply list_elem_of_lookup_2 | done]. }
      destruct (news !! _) as [q'|] eqn:Hq'.
      2: { rewrite Hl in Hi. change (map Some ?x) with (Some <$> x) in Hi.
           rewrite list_lookup_fmap in Hi.
           destruct (omap id l !! i); simpl in Hi; congruence. }
      apply list_elem_of_lookup_2 in Hq' as Hmem.
      destruct (Hdrawn _ Hmem) as (E & lE & HE & HlE & HinE).
      destruct (Hslots E) as [[_ (e & l' & Hcache & Hid & Hl' & Hitems & Hmem')]
                             | [_ Hnone]].
      2: { rewrite Hnone, lookup_empty in HlE. done. }
      rewrite Hl' in HlE. injection HlE as <-.
      apply list_elem_of_fmap in HinE as (q'' & [= <-] & Hq'').
      pose proof (exerciseToQuestionArray_exercise _ _ (Hmem' _ Hq'')) as Hex.
      exists q', e. split; [by apply Hlook |].
      rewrite Hex, Hid. split; [done |]. split; [done |].
      rewrite <- (Hshuffle (unused_composites st e)), <- Hitems.
      by apply list_elem_of_fmap_2.
  - intros E e Hcache Hlt.
    assert (HE : E ∈ uniq (List.map exercise_id toReplace)).
    { apply uniq_elem_of.
      destruct (filter (λ q, exercise_id q = E) toReplace) as [|q qs] eqn:Hq.
      - unfold replaced_in in Hlt. rewrite Hq in Hlt. simpl in Hlt. lia.
      - assert (q ∈ filter (λ q, exercise_id q = E) toReplace) as Hin
          by (rewrite Hq; by left).
        apply list_elem_of_filter in Hin as [<- Hin].
        by apply list_elem_of_fmap_2. }
    destruct (Hslots E) as [[_ (e' & l' & Hcache' & _ & Hl' & Hitems & _)]
                           | [Hnot _]]; [| done].
    pose proof (pop_unused_enough _ _ _ _ _ Hnews Hl') as Hle.
    rewrite Hcache in Hcache'. injection Hcache' as <-.
    rewrite length_map, <- (length_map item l'), Hitems, Hshuffle in Hle.
    lia.
Qed.

(** *** The selection *)

Lemma uniq_from_NoDup `{EqDecision A} (seen l : list A) : NoDup (uniq_from seen l).
Proof.
  revert seen. induction l as [|x l IH]; intros seen; simpl; [constructor |].
  unfold includes. case_bool_decide; [apply IH |].
  constructor; [| apply IH].
  rewrite uniq_from_elem_of. intros [_ Hx]. apply Hx. left.
Qed.

Lemma uniq_from_prefix `{EqDecision A} (seen l k : list A) :
  NoDup l → (∀ x, x ∈ l → x ∉ seen) →
  ∃ k', uniq_from seen (l ++ k) = l ++ k'.
Proof.
  revert seen. induction l as [|x l IH]; intros seen Hnd Hseen; simpl.
  - by eexists.
  - apply NoDup_cons in Hnd as [Hx Hnd].
    unfold includes. rewrite bool_decide_eq_false_2 by (apply Hseen; left).
    destruct (IH (x :: seen) Hnd) as [k' ->]; [| by eexists].
    intros y Hy [->|Hin]%elem_of_cons; [done |].
    by apply (Hseen y); [right |].
Qed.

Lemma filter_all {A} (P : A → Prop) `{∀ x, Decision (P x)} (l : list A) :
  (∀ x, x ∈ l → P x) → filter P l = l.
Proof.
  induction l as [|x l IH]; intros Hl; [done |].
  rewrite filter_cons_True by (apply Hl; left).
  f_equal. apply IH. intros y Hy. apply Hl. by right.
Qed.

Lemma filter_none {A} (P : A → Prop) `{∀ x, Decision (P x)} (l : list A) :
  (∀ x, x ∈ l → ¬ P x) → filter P l = [].
Proof.
  induction l as [|x l IH]; intros Hl; [done |].
  rewrite filter_cons_False by (apply Hl; left).
  apply IH. intros y Hy. apply Hl. by right.
Qed.

Lemma set_selectedQuestionIds_same (st : State) :
  set_selectedQuestionIds (_selectedQuestionIds st) st = st.
Proof. by destruct st. Qed.

(** X2. [addQuestionsToSelection(ids)] always returns; afterwards no id
    is selected twice, an id is selected exactly when it was selected
    before or is one of [ids], and a selection that had no repetition is
    kept as it was, in order, at the head of the new selection.  The quiz
    and [quizHasChanged] are untouched. *)
Theorem addQuestionsToSelection_spec (ids : list string) (st : State) :
  let r := addQuestionsToSelection ids st in
  r.1 = Ok tt
  ∧ NoDup (selectedActiveQuestions r.2)
  ∧ (∀ x, x ∈ selectedActiveQuestions r.2
          ↔ x ∈ selectedActiveQuestions st ∨ x ∈ ids)
  ∧ (NoDup (selectedActiveQuestions st) →
     selectedActiveQuestions st `prefix_of` selectedActiveQuestions r.2)
  ∧ _quiz r.2 = _quiz st
  ∧ quizHasChanged r.2 = quizHasChanged st.
Proof.
  simpl. unfold selectedActiveQuestions. simpl.
  split_and!; try done.
  - apply uniq_from_NoDup.
  - intros x. by rewrite uniq_elem_of, elem_of_app.
  - intros Hnd. unfold uniq.
    destruct (uniq_from_prefix [] (_selectedQuestionIds st) ids Hnd) as [k' ->].
    + intros x _. apply not_elem_of_nil.
    + by exists k'.
Qed.

(** X3. [removeQuestionsFromSelection(ids)] always returns; afterwards
    an id is selected exactly when it was selected before and is not one
    of [ids], and the ids that stay selected keep their order.  It undoes
    [addQuestionsToSelection(ids)] on a selection without repetition that
    held none of [ids]. *)
Theorem removeQuestionsFromSelection_spec (ids : list string) (st : State) :
  let r := removeQuestionsFromSelection ids st in
  r.1 = Ok tt
  ∧ (∀ x, x ∈ selectedActiveQuestions r.2
          ↔ x ∈ selectedActiveQuestions st ∧ x ∉ ids)
  ∧ selectedActiveQuestions r.2 `sublist_of` selectedActiveQuestions st
  ∧ (NoDup (selectedActiveQuestions st) →
     (∀ x, x ∈ ids → x ∉ selectedActiveQuestions st) →
     (removeQuestionsFromSelection ids (addQuestionsToSelection ids st).2).2 = st).
Proof.
  simpl. unfold selectedActiveQuestions. simpl.
  split_and!; try done.
  - intros x. rewrite list_elem_of_filter. tauto.
  - apply sublist_filter.
  - intros Hnd Hids.
    rewrite <- (set_selectedQuestionIds_same st) at 2.
    destruct st as [q c sel m r a calls]. unfold set_selectedQuestionIds. simpl in *.
    f_equal. unfold uniq.
    pose proof (uniq_from_NoDup [] (sel ++ ids)) as Hnd'.
    pose proof (uniq_from_elem_of [] (sel ++ ids)) as Hin.
    destruct (uniq_from_prefix [] sel ids Hnd) as [k' Hk'].
    { intros x _. apply not_elem_of_nil. }
    rewrite Hk' in *. rewrite filter_app.
    rewrite filter_all by (intros x Hx Hx'; by apply (Hids x)).
    rewrite filter_none; [by rewrite app_nil_r |].
    intros x Hx Hx'. apply NoDup_app in Hnd' as (_ & Hdisj & _).
    assert (x ∈ sel ++ ids) as [Hs|Hi]%elem_of_app; [| | done].
    { apply (Hin x). apply elem_of_app. by right. }
    by apply (Hdisj x).
Qed.

(** *** [deleteActiveSelectedQuestions] *)

Lemma check_questions_valid (l : list QuizQuestion) :
  (length l ≤ MAX_QUESTIONS_PER_QUIZ_SECTION)%nat →
  Forall (λ q, validateQuizQuestion q = true) l →
  check_questions (Some (ArgArray (map Some l))) = Ok (Some (QArray l)).
Proof.
  intros Hlen Hvalid. simpl. rewrite length_map.
  rewrite bool_decide_eq_false_2 by lia.
  replace (existsb _ (map Some l)) with false; [by rewrite omap_id_Some |].
  symmetry. induction Hvalid as [|q l Hq _ IH]; [done |].
  simpl in *. rewrite Hq. simpl. apply IH. lia.
Qed.

Lemma inactiveSections_delete (st : State) (s : QuizSection) :
  activeSection st = Some s →
  inactiveSections st = delete (Z.to_nat (activeSectionIndex st)) (allSections st).
Proof. intros Hs. by eapply slice_remove. Qed.

Lemma delete_insert_same {A} (l : list A) (n : nat) (x : A) :
  delete n (<[n := x]> l) = delete n l.
Proof.
  revert n. induction l as [|y l IH]; intros [|n]; simpl; try done.
  f_equal. apply IH.
Qed.

Lemma inactiveSections_updated (u : SectionUpdates) (t : QuizSection)
    (qs : option questions_value) (l : list string) (st : State) :
  activeSection st = Some t →
  inactiveSections
    (set_selectedQuestionIds l (updated (activeSectionIndex st) u t qs st))
  = inactiveSections st.
Proof.
  intros Ht. rewrite (inactiveSections_delete st t Ht).
  pose proof Ht as [Hi Hn]%js_index_Some.
  unfold inactiveSections. simpl.
  change (allSections (set_selectedQuestionIds l (updated _ _ t _ st)))
    with (<[Z.to_nat (activeSectionIndex st) := spread_section t qs u]>
            (allSections st)).
  erewrite slice_remove.
  - apply delete_insert_same.
  - apply js_index_Some. split; [done |].
    apply list_lookup_insert_eq. by eapply lookup_lt_Some.
Qed.

(** X4. [deleteActiveSelectedQuestions].  It throws a TypeError and
    leaves the state as it was when there is no active section or the
    active section holds no array of questions.  When it returns, the
    questions of the active section are those whose item was not selected,
    in their order, nothing is selected any more, the other sections are
    unchanged and [quizHasChanged] is set.  When it throws, the quiz is as
    before and the selection is kept.  It returns whenever the active
    section holds an array whose questions that are not selected are valid
    and are at most [MAX_QUESTIONS_PER_QUIZ_SECTION]. *)
Theorem deleteActiveSelectedQuestions_spec (st : State) :
  let r := deleteActiveSelectedQuestions st in
  let kept := filter (λ q, item q ∉ selectedActiveQuestions st)
                     (activeQuestions st) in
  (activeSection st = None
   ∨ (∃ s, activeSection st = Some s ∧ questions s = QNull) →
   r = (Throw TypeError, st))
  ∧ (r.1 = Ok tt →
     activeQuestions r.2 = kept
     ∧ noQuestionsSelected r.2 = true
     ∧ inactiveSections r.2 = inactiveSections st
     ∧ quiz_props (quiz r.2) = quiz_props (quiz st)
     ∧ quizHasChanged r.2 = true)
  ∧ (∀ e, r.1 = Throw e →
          e = TypeError
          ∧ _quiz r.2 = _quiz st
          ∧ selectedActiveQuestions r.2 = selectedActiveQuestions st)
  ∧ ((∃ s l, activeSection st = Some s ∧ questions s = QArray l) →
     (length kept ≤ MAX_QUESTIONS_PER_QUIZ_SECTION)%nat →
     Forall (λ q, validateQuizQuestion q = true) kept →
     r.1 = Ok tt).
Proof.
  unfold deleteActiveSelectedQuestions, activeQuestions.
  destruct (activeSection st) as [section|] eqn:Hsection; simpl.
  2:{ split_and!; try done.
      - by intros e [= <-].
      - by intros (s & l & ? & _). }
  unfold questions_array.
  destruct (questions section) as [section_questions|] eqn:Hqs; simpl.
  2:{ split_and!; try done.
      - by intros e [= <-].
      - intros (s & l & [= <-] & Hl). congruence. }
  set (kept := filter _ section_questions).
  set (u := {| upd_questions := _ |}).
  unfold bind, modify.
  destruct (updateSection_cases (activeSectionIndex st) u st)
    as [(t & qs & Ht & Hcheck & Heq) | [_ Heq]]; rewrite Heq; simpl.
  - assert (t = section) as -> by (unfold activeSection in Hsection; congruence).
    pose proof (check_questions_array _ _ Hcheck) as [-> _].
    split_and!; try done.
    + intros [Hnone | (s & [= <-] & Hnull)]; congruence.
    + intros _. split_and!; try done.
      * destruct (updateSection_activeQuestions (map Some kept) st
                    (updated (activeSectionIndex st) u section
                       (Some (QArray (omap id (map Some kept)))) st)) as [Ha _];
          [exact Heq |].
        unfold activeQuestions, activeSection in *. simpl in *.
        rewrite omap_id_Some in Ha |- *. exact Ha.
      * by apply inactiveSections_updated.
  - split_and!; try done.
    + intros [Hnone | (s & [= <-] & Hnull)]; congruence.
    + by intros e [= <-].
    + intros _ Hlen Hvalid. exfalso.
      unfold updateSection in Heq. simpl in Heq.
      unfold activeSection in Hsection.
      change (allSections (set_quizHasChanged true st)) with (allSections st) in Heq.
      rewrite Hsection in Heq.
      pose proof (check_questions_valid kept Hlen Hvalid) as Hok.
      simpl in Hok. simpl in Heq. rewrite Hok in Heq. done.
Qed.

(** *** The exercises cached by [updateSection] *)

Lemma find_app {A} (p : A → bool) (l k : list A) :
  find p (l ++ k) = match find p l with Some x => Some x | None => find p k end.
Proof. induction l as [|x l IH]; simpl; [done |]. by destruct (p x). Qed.

Lemma cache_exercises_last (pool : list Exercise) (m : gmap string Exercise)
    (id : string) :
  cache_exercises pool m !! id
  = match last_with_id pool id with
    | Some e => Some e
    | None => m !! id
    end.
Proof.
  unfold cache_exercises, last_with_id. revert m.
  induction pool as [|e pool IH]; intros m; simpl; [done |].
  rewrite IH, reverse_cons, find_app.
  destruct (find _ (reverse pool)); [done |]. simpl.
  case_bool_decide as Hid.
  - subst id. apply lookup_insert_eq.
  - by apply lookup_insert_ne.
Qed.

Lemma last_with_id_Some (pool : list Exercise) (id : string) (e : Exercise) :
  last_with_id pool id = Some e → e ∈ pool ∧ ex_id e = id.
Proof.
  intros [Hin Hid]%find_elem_of. split.
  - by apply elem_of_reverse.
  - by apply bool_decide_eq_true in Hid.
Qed.

Lemma last_with_id_None (pool : list Exercise) (id : string) :
  last_with_id pool id = None → ∀ e, e ∈ pool → ex_id e ≠ id.
Proof.
  unfold last_with_id. intros Hnone e He%elem_of_reverse.
  induction (reverse pool) as [|x l IH]; [by apply elem_of_nil in He |].
  simpl in Hnone. case_bool_decide as Hx; [done |].
  apply elem_of_cons in He as [->|He]; [done | by apply IH].
Qed.

Lemma last_with_id_unique (pool : list Exercise) (e : Exercise) :
  NoDup (map ex_id pool) → e ∈ pool → last_with_id pool (ex_id e) = Some e.
Proof.
  intros Hnd He.
  destruct (last_with_id pool (ex_id e)) as [e'|] eqn:Hlast.
  - apply last_with_id_Some in Hlast as [He' Hid]. f_equal.
    apply list_elem_of_lookup in He as [i Hi], He' as [j Hj].
    assert (i = j) as ->; [| congruence].
    eapply NoDup_lookup; [exact Hnd | |].
    + rewrite list_lookup_fmap, Hi. done.
    + rewrite list_lookup_fmap, Hj. simpl. by rewrite Hid.
  - by destruct (last_with_id_None pool (ex_id e) Hlast e He).
Qed.

(** X5. The cache after [updateSection].  When the call returns and
    [updates.resourcePool] is an array, the cache holds under every id the
    last exercise of the pool that has this id, and what it held before
    under the ids of no exercise of the pool; so every exercise of the
    pool can be looked up by its id, and it is the exercise found when the
    ids of the pool are pairwise distinct.  When [resourcePool] is absent
    or [undefined], and whenever the call throws, the cache is as
    before: the questions are checked before the pool is cached. *)
Theorem updateSection_caches_pool (sectionIndex : Z) (updates : SectionUpdates)
    (st : State) :
  let r := updateSection sectionIndex updates st in
  (∀ pool, r.1 = Ok tt → upd_resourcePool updates = Some (Some pool) →
     (∀ id, _exerciseMap r.2 !! id
            = match last_with_id pool id with
              | Some e => Some e
              | None => _exerciseMap st !! id
              end)
     ∧ (∀ e, e ∈ pool →
             ∃ e', e' ∈ pool ∧ ex_id e' = ex_id e
                   ∧ _exerciseMap r.2 !! ex_id e = Some e')
     ∧ (NoDup (map ex_id pool) →
        ∀ e, e ∈ pool → _exerciseMap r.2 !! ex_id e = Some e)
     ∧ (∀ id, id ∉ map ex_id pool →
              _exerciseMap r.2 !! id = _exerciseMap st !! id))
  ∧ (r.1 = Ok tt →
     upd_resourcePool updates = None ∨ upd_resourcePool updates = Some None →
     _exerciseMap r.2 = _exerciseMap st)
  ∧ (∀ e, r.1 = Throw e → _exerciseMap r.2 = _exerciseMap st).
Proof.
  destruct (updateSection_cases sectionIndex updates st)
    as [(t & qs & Ht & Hcheck & Heq) | [_ Heq]]; rewrite Heq; simpl.
  - split_and!; [| by intros _ [-> | ->] | done].
    intros pool _ ->.
    assert (Hlookup : ∀ id, cache_exercises pool (_exerciseMap st) !! id
                            = match last_with_id pool id with
                              | Some e => Some e
                              | None => _exerciseMap st !! id
                              end) by (intros; apply cache_exercises_last).
    split_and!; [done | | |].
    + intros e He. rewrite Hlookup.
      destruct (last_with_id pool (ex_id e)) as [e'|] eqn:Hlast.
      * apply last_with_id_Some in Hlast as [He' Hid]. by exists e'.
      * by destruct (last_with_id_None pool (ex_id e) Hlast e He).
    + intros Hnd e He. by rewrite Hlookup, last_with_id_unique.
    + intros id Hid. rewrite Hlookup.
      destruct (last_with_id pool id) as [e'|] eqn:Hlast; [| done].
      apply last_with_id_Some in Hlast as [He' <-].
      destruct Hid. by apply list_elem_of_fmap_2.
  - split_and!; try done.
Qed.

(** *** [addQuestionsToSection] *)

Lemma updated_allSections (i : Z) (u : SectionUpdates) (t : QuizSection)
    (qs : option questions_value) (st : State) :
  allSections (updated i u t qs st)
  = <[Z.to_nat i := spread_section t qs u]> (allSections st).
Proof. done. Qed.

Lemma updated_section (i : Z) (u : SectionUpdates) (t : QuizSection)
    (qs : option questions_value) (st : State) :
  js_index (allSections st) i = Some t →
  js_index (allSections (updated i u t qs st)) i = Some (spread_section t qs u).
Proof.
  intros [Hi Ht]%js_index_Some. apply js_index_Some. split; [done |].
  rewrite updated_allSections. apply list_lookup_insert_eq.
  by eapply lookup_lt_Some.
Qed.

Lemma updateSection_throws_quiz (i : Z) (u : SectionUpdates) (st : State)
    (e : error) :
  (updateSection i u st).1 = Throw e →
  e = TypeError
  ∧ (updateSection i u st).2 = set_quizHasChanged true st.
Proof.
  destruct (updateSection_cases i u st)
    as [(t & qs & _ & _ & Heq) | [_ Heq]]; rewrite Heq; simpl; [done |].
  by intros [= <-].
Qed.

(** X6. [addQuestionsToSection].  It throws a TypeError and leaves the
    state as it was when no section is at [sectionIndex], when
    [questions] is missing or empty, and, with items to replace, when the
    given questions that are not yet in the section are not as many as the
    items.  Whenever it throws, the error is a TypeError and the quiz and
    the cache are as before.  When it returns and no item is to be
    replaced, the section holds its former questions followed by the given
    questions whose item was not in the section, in the order given; when
    it returns with items to replace, the section holds as many questions
    as before. *)
Theorem addQuestionsToSection_spec (sectionIndex : Z)
    (qs : option (list QuizQuestion)) (resources : option (list Exercise))
    (questionItemsToReplace : option (list string)) (st : State) :
  let r := addQuestionsToSection sectionIndex qs resources
             questionItemsToReplace st in
  let new t l := filter (λ q, item q ∉ section_items t) l in
  (js_index (allSections st) sectionIndex = None ∨ qs = None ∨ qs = Some [] →
   r = (Throw TypeError, st))
  ∧ (∀ t l items,
       js_index (allSections st) sectionIndex = Some t →
       qs = Some l → questionItemsToReplace = Some items → items ≠ [] →
       length items ≠ length (new t l) →
       r = (Throw TypeError, st))
  ∧ (∀ e, r.1 = Throw e →
          e = TypeError ∧ _quiz r.2 = _quiz st
          ∧ _exerciseMap r.2 = _exerciseMap st)
  ∧ (r.1 = Ok tt →
     ∃ t t' l,
       js_index (allSections st) sectionIndex = Some t
       ∧ js_index (allSections r.2) sectionIndex = Some t'
       ∧ qs = Some l
       ∧ (questionItemsToReplace = None ∨ questionItemsToReplace = Some [] →
          questions t' = QArray (section_questions t ++ new t l))
       ∧ ((∃ items, questionItemsToReplace = Some items ∧ items ≠ []) →
          length (section_questions t') = length (section_questions t))).
Proof.
  intros r new.
  assert (Hdegenerate :
    js_index (allSections st) sectionIndex = None ∨ qs = None ∨ qs = Some []
    ∨ (∃ t, js_index (allSections st) sectionIndex = Some t
            ∧ questions t = QNull) →
    r = (Throw TypeError, st)).
  { subst r. unfold addQuestionsToSection.
    intros [-> | [-> | [-> | (t & -> & Hnull)]]]; [done | | |].
    - by destruct (js_index _ _).
    - by destruct (js_index _ _).
    - unfold questions_array. rewrite Hnull. by destruct qs as [[|]|]. }
  assert (Hthrown : ∀ e, @Throw unit TypeError = Throw e →
            e = TypeError ∧ _quiz st = _quiz st
            ∧ _exerciseMap st = _exerciseMap st) by (by intros e [= <-]).
  destruct (js_index (allSections st) sectionIndex) as [t|] eqn:Ht;
    [| rewrite Hdegenerate by auto; simpl; split_and!; done].
  destruct qs as [[|q0 l0]|];
    [rewrite Hdegenerate by auto; simpl; split_and!; done
    | | rewrite Hdegenerate by auto; simpl; split_and!; done].
  destruct (questions t) as [old|] eqn:Hold;
    [| rewrite Hdegenerate by eauto 10; simpl; split_and!; try done;
       by intros [? | [? | ?]] ].
  clear Hdegenerate Hthrown.
  set (l := q0 :: l0) in *.
  assert (Hnew : ∀ l', new t l' = filter (λ q, item q ∉ map item old) l').
  { intros l'. subst new. simpl. unfold section_items. by rewrite Hold. }
  assert (Hthrow : ∀ u e,
            (updateSection sectionIndex u st).1 = Throw e →
            e = TypeError
            ∧ _quiz (updateSection sectionIndex u st).2 = _quiz st
            ∧ _exerciseMap (updateSection sectionIndex u st).2
              = _exerciseMap st).
  { by intros u e [-> ->]%updateSection_throws_quiz. }
  assert (Hreturn : ∀ qa,
            (updateSection sectionIndex
               {| upd_questions := Some (ArgArray qa);
                  upd_resourcePool := Some resources; upd_props := ∅ |} st).1
            = Ok tt →
            ∃ t', js_index
                    (allSections
                       (updateSection sectionIndex
                          {| upd_questions := Some (ArgArray qa);
                             upd_resourcePool := Some resources;
                             upd_props := ∅ |} st).2)
                    sectionIndex = Some t'
                  ∧ questions t' = QArray (omap id qa)
                  ∧ qa = map Some (omap id qa)).
  { intros qa.
    destruct (updateSection_cases sectionIndex
                {| upd_questions := Some (ArgArray qa);
                   upd_resourcePool := Some resources; upd_props := ∅ |} st)
      as [(t0 & qs & Ht0 & Hcheck & Heq) | [_ Heq]]; rewrite Heq; [| done].
    intros _. apply check_questions_array in Hcheck as [-> Hall].
    eexists. split; [by apply updated_section |]. done. }
  assert (Hr : r = match questionItemsToReplace with
                   | Some (it :: items) =>
                       if bool_decide (length (it :: items) ≠ length (new t l))
                       then (Throw TypeError, st)
                       else updateSection sectionIndex
                              {| upd_questions :=
                                   Some (ArgArray (replace_map old (it :: items)
                                                     (new t l)));
                                 upd_resourcePool := Some resources;
                                 upd_props := ∅ |} st
                   | _ => updateSection sectionIndex
                            {| upd_questions :=
                                 Some (ArgArray (map Some (old ++ new t l)));
                               upd_resourcePool := Some resources;
                               upd_props := ∅ |} st
                   end).
  { subst r. unfold addQuestionsToSection. rewrite Ht, Hnew.
    unfold questions_array. rewrite Hold. simpl.
    destruct questionItemsToReplace as [[|it items]|]; try done.
    unfold _replaceQuestions.
    change (S (length items)) with (length (it :: items)).
    by case_bool_decide. }
  clearbody r. subst r.
  assert (Hsq : section_questions t = old)
    by (unfold section_questions; by rewrite Hold).
  split_and!.
  - by intros [? | [? | ?]].
  - intros t0 l1 items [= <-] [= <-] -> Hitems Hlen.
    destruct items as [|it items]; [done |].
    by rewrite bool_decide_eq_true_2.
  - destruct questionItemsToReplace as [[|it items]|]; try apply Hthrow.
    case_bool_decide; [by intros e [= <-] | apply Hthrow].
  - destruct questionItemsToReplace as [[|it items]|].
    + intros (t' & Ht' & Hq & _)%Hreturn. rewrite omap_id_Some in Hq.
      exists t, t', l. rewrite Hsq. split_and!; try done.
      by intros (items & [= <-] & ?).
    + case_bool_decide as Hlen; [done |].
      intros (t' & Ht' & Hq & Hall)%Hreturn.
      exists t, t', l. rewrite Hsq. split_and!; try done; [by intros [? | ?] |].
      intros _. unfold section_questions. rewrite Hq.
      rewrite <- (length_map Some (omap id _)), <- Hall.
      apply replace_map_length.
    + intros (t' & Ht' & Hq & _)%Hreturn. rewrite omap_id_Some in Hq.
      exists t, t', l. rewrite Hsq. split_and!; try done.
      by intros (items & [=] & ?).
Qed.

Lemma cache_exercises_twice (pool : list Exercise) (m : gmap string Exercise) :
  cache_exercises pool (cache_exercises pool m) = cache_exercises pool m.
Proof.
  apply map_eq. intros id. rewrite !cache_exercises_last.
  by destruct (last_with_id pool id).
Qed.

Lemma spread_section_twice (t : QuizSection) (qs : questions_value)
    (u : SectionUpdates) :
  spread_section (spread_section t (Some qs) u) (Some qs) u
  = spread_section t (Some qs) u.
Proof.
  unfold spread_section. simpl. f_equal.
  by rewrite (assoc_L (∪)), (idemp_L (∪)).
Qed.

(** X7. Adding the same questions again changes nothing: when
    [addQuestionsToSection], with no item to replace, has returned, the
    same call in the state it left returns and leaves this state as it
    is, since every given question is then in the section. *)
Theorem addQuestionsToSection_idempotent (sectionIndex : Z)
    (qs : option (list QuizQuestion)) (resources : option (list Exercise))
    (questionItemsToReplace : option (list string)) (st st1 : State) :
  questionItemsToReplace = None ∨ questionItemsToReplace = Some [] →
  addQuestionsToSection sectionIndex qs resources questionItemsToReplace st
  = (Ok tt, st1) →
  addQuestionsToSection sectionIndex qs resources questionItemsToReplace st1
  = (Ok tt, st1).
Proof.
  intros Hmode.
  assert (Happend : ∀ st',
            addQuestionsToSection sectionIndex qs resources
              questionItemsToReplace st'
            = addQuestionsToSection sectionIndex qs resources None st')
    by (intros st'; by destruct Hmode as [-> | ->]).
  rewrite !Happend. clear Hmode Happend.
  unfold addQuestionsToSection at 1.
  destruct (js_index (allSections st) sectionIndex) as [t|] eqn:Ht; [| done].
  destruct qs as [[|q0 l0]|]; [done | | done].
  set (l := q0 :: l0). unfold questions_array.
  destruct (questions t) as [old|] eqn:Hold; [| done]. simpl.
  set (new := filter (λ q, item q ∉ map item old) l).
  set (u := {| upd_questions := Some (ArgArray (map Some (old ++ new)));
               upd_resourcePool := Some resources; upd_props := ∅ |}).
  intros Hupdate.
  destruct (updateSection_cases sectionIndex u st)
    as [(t0 & qv & Ht0 & Hcheck & Heq) | [_ Heq]];
    rewrite Heq in Hupdate; [| done].
  injection Hupdate as <-. assert (t0 = t) as -> by congruence.
  pose proof (check_questions_array _ _ Hcheck) as [-> _].
  rewrite omap_id_Some in *.
  set (st1 := updated sectionIndex u t (Some (QArray (old ++ new))) st).
  pose proof (updated_section sectionIndex u t (Some (QArray (old ++ new))) st Ht)
    as Ht1. fold st1 in Ht1.
  unfold addQuestionsToSection. rewrite Ht1. unfold questions_array. simpl.
  replace (filter _ l) with (@nil QuizQuestion).
  2:{ symmetry. apply filter_none. intros q Hq Hfresh. apply Hfresh.
      rewrite map_app, elem_of_app.
      destruct (decide (item q ∈ map item old)) as [Hin|Hout]; [by left |].
      right. apply list_elem_of_fmap_2. by apply list_elem_of_filter. }
  rewrite app_nil_r.
  change (updateSection sectionIndex u st1 = (Ok tt, st1)).
  rewrite (updateSection_Ok sectionIndex u st1 _ _ Ht1 Hcheck).
  f_equal. unfold st1, updated. simpl. f_equal.
  - f_equal. rewrite spread_section_twice. apply list_insert_insert_eq.
  - destruct resources as [pool|]; [| done]. apply cache_exercises_twice.
Qed.

(** *** [allQuestionsInQuiz] and [allSectionsEmpty] *)

Lemma concat_questions_eq (acc : list QuizQuestion) (l : list QuizSection) :
  concat_questions acc l
  = if decide (Forall (λ s, questions s ≠ QNull) l)
    then Ok (acc ++ concat (map section_questions l))
    else Throw TypeError.
Proof.
  revert acc. induction l as [|s l IH]; intros acc.
  - rewrite decide_True by constructor. simpl. by rewrite app_nil_r.
  - cbn [concat_questions]. unfold questions_array.
    destruct (questions s) as [qs|] eqn:Hqs.
    + rewrite IH. destruct (decide (Forall _ l)) as [Hl|Hl].
      * rewrite decide_True by (constructor; [by rewrite Hqs | done]).
        cbn [map concat]. unfold section_questions at 2. rewrite Hqs.
        by rewrite (assoc_L (++)).
      * rewrite decide_False; [done |]. by intros [_ ?]%Forall_cons.
    + rewrite decide_False; [done |]. by intros [? _]%Forall_cons.
Qed.

Lemma elem_of_concat {A} (ls : list (list A)) (x : A) :
  x ∈ concat ls ↔ ∃ l, l ∈ ls ∧ x ∈ l.
Proof.
  induction ls as [|l ls IH]; simpl.
  - split; [by intros ?%elem_of_nil | by intros (l & ?%elem_of_nil & _)].
  - rewrite elem_of_app, IH. split.
    + intros [Hx | (l' & Hl' & Hx)].
      * exists l. split; [left | done].
      * exists l'. split; [by right | done].
    + intros (l' & [-> | Hl']%elem_of_cons & Hx); [by left |].
      right. by exists l'.
Qed.

(** X8. [allQuestionsInQuiz] is the questions of the sections one after
    the other, in the order of the sections: it returns exactly when every
    section holds an array of questions, and throws a TypeError when the
    [questions] of a section is [null]; a question is in it exactly when a
    section of the quiz holds it. *)
Theorem allQuestionsInQuiz_spec (st : State) :
  (sections_hold_arrays st →
   allQuestionsInQuiz st
   = Ok (concat (map section_questions (allSections st))))
  ∧ (¬ sections_hold_arrays st → allQuestionsInQuiz st = Throw TypeError)
  ∧ (∀ all, allQuestionsInQuiz st = Ok all →
            sections_hold_arrays st
            ∧ length all
              = sum_list (map (λ s, length (section_questions s)) (allSections st))
            ∧ ∀ q, q ∈ all ↔ ∃ s, s ∈ allSections st ∧ q ∈ section_questions s).
Proof.
  unfold allQuestionsInQuiz, sections_hold_arrays.
  rewrite concat_questions_eq. simpl.
  destruct (decide (Forall _ (allSections st))) as [Hall|Hall].
  - split_and!; [done | done |]. intros all [= <-]. split_and!; [done | |].
    + clear Hall. induction (allSections st) as [|s l IH]; [done |].
      simpl. by rewrite length_app, IH.
    + intros q. rewrite elem_of_concat. split.
      * intros (l & (s & -> & Hs)%list_elem_of_fmap & Hq). by exists s.
      * intros (s & Hs & Hq). exists (section_questions s).
        split; [by apply list_elem_of_fmap_2 | done].
  - split_and!; done.
Qed.

Lemma every_empty_true (l : list QuizSection) :
  every_empty l = Ok true ↔ Forall (λ s, questions s = QArray []) l.
Proof.
  induction l as [|s l IH]; simpl.
  - split; [constructor | done].
  - destruct (questions s) as [[|q qs]|] eqn:Hqs.
    + rewrite IH. split; [by constructor | by intros [_ ?]%Forall_cons].
    + split; [done | intros [? _]%Forall_cons; congruence].
    + split; [done | intros [? _]%Forall_cons; congruence].
Qed.

Lemma every_empty_arrays (l : list QuizSection) :
  Forall (λ s, questions s ≠ QNull) l →
  every_empty l
  = Ok (bool_decide (concat (map section_questions l) = [])).
Proof.
  induction 1 as [|s l Hs _ IH]; [done |].
  cbn [every_empty map concat].
  assert (Hsq : section_questions s
                = match questions s with QArray l => l | QNull => [] end) by done.
  destruct (questions s) as [[|q qs]|] eqn:Hqs; [| | done].
  - rewrite IH. f_equal. apply bool_decide_ext. by rewrite Hsq.
  - f_equal. symmetry. apply bool_decide_eq_false_2. by rewrite Hsq.
Qed.

Lemma every_empty_throw (l : list QuizSection) (e : error) :
  every_empty l = Throw e →
  e = TypeError ∧ ¬ Forall (λ s, questions s ≠ QNull) l.
Proof.
  induction l as [|s l IH]; simpl; [done |].
  destruct (questions s) as [[|q qs]|] eqn:Hqs.
  - intros [-> Hl]%IH. split; [done |]. by intros [_ ?]%Forall_cons.
  - done.
  - intros [= <-]. split; [done |]. intros [? _]%Forall_cons; congruence.
Qed.

Lemma initializeQuiz_new_Ok (collection : string)
    (fetched : option (QuizUpdates * list Exercise)) (st : State) :
  (initializeQuiz collection "new" fetched st).1 = Ok tt →
  allSections (initializeQuiz collection "new" fetched st).2
  = [objectWithDefaults_QuizSection]
  ∧ quizHasChanged (initializeQuiz collection "new" fetched st).2 = false.
Proof.
  unfold initializeQuiz. rewrite bool_decide_eq_true_2 by done.
  unfold bind, modify. simpl.
  destruct (addSection _) as [[s|e] st'] eqn:Hadd; [| done].
  intros _. apply addSection_Ok in Hadd as (_ & Hsections & _). simpl.
  split; [| done].
  change (allSections (set_quizHasChanged false st')) with (allSections st').
  by rewrite Hsections.
Qed.

(** X9. [allSectionsEmpty] is [true] exactly when every section holds an
    empty array of questions; when [allQuestionsInQuiz] returns, it tells
    whether the quiz has no question at all; it throws only a TypeError,
    and only when the [questions] of a section is [null]; and it is [true]
    for a new quiz. *)
Theorem allSectionsEmpty_spec (st : State) :
  (allSectionsEmpty st = Ok true
   ↔ Forall (λ s, questions s = QArray []) (allSections st))
  ∧ (∀ all, allQuestionsInQuiz st = Ok all →
            allSectionsEmpty st = Ok (bool_decide (all = [])))
  ∧ (∀ e, allSectionsEmpty st = Throw e →
          e = TypeError ∧ allQuestionsInQuiz st = Throw TypeError)
  ∧ (∀ collection fetched,
       let r := initializeQuiz collection "new" fetched st in
       r.1 = Ok tt → allSectionsEmpty r.2 = Ok true).
Proof.
  unfold allSectionsEmpty. split_and!.
  - apply every_empty_true.
  - unfold allQuestionsInQuiz. rewrite concat_questions_eq. intros all.
    destruct (decide _) as [Hall|]; [| done]. intros [= <-].
    by apply every_empty_arrays.
  - intros e [-> Hnull]%every_empty_throw. split; [done |].
    unfold allQuestionsInQuiz. rewrite concat_questions_eq.
    by rewrite decide_False.
  - intros collection fetched. cbv zeta.
    intros [Hsections _]%initializeQuiz_new_Ok. by rewrite Hsections.
Qed.

(** *** [inactiveSections] *)

(** X10. [inactiveSections].  When there is an active section, the
    inactive sections are all the sections but the active one, in their
    order: with the active section they make up the sections of the quiz,
    and they are one fewer.  When the active index is past the last
    section, they are all the sections. *)
Theorem inactiveSections_spec (st : State) :
  (∀ s, activeSection st = Some s →
        inactiveSections st
        = delete (Z.to_nat (activeSectionIndex st)) (allSections st)
        ∧ allSections st
          = take (Z.to_nat (activeSectionIndex st)) (inactiveSections st)
            ++ s :: drop (Z.to_nat (activeSectionIndex st)) (inactiveSections st)
        ∧ allSections st ≡ₚ s :: inactiveSections st
        ∧ S (length (inactiveSections st)) = length (allSections st))
  ∧ (activeSection st = None → (0 ≤ activeSectionIndex st)%Z →
     inactiveSections st = allSections st).
Proof.
  split.
  - intros s Hs. rewrite (inactiveSections_delete st s Hs).
    apply js_index_Some in Hs as [Hi Hs].
    set (n := Z.to_nat (activeSectionIndex st)) in *.
    pose proof (lookup_lt_Some _ _ _ Hs) as Hn.
    split_and!; [done | | by apply delete_Permutation |].
    + rewrite delete_take_drop.
      rewrite take_app_length' by (rewrite length_take; lia).
      rewrite drop_app_length' by (rewrite length_take; lia).
      by rewrite take_drop_middle.
    + rewrite length_delete by done. lia.
  - intros Hnone Hi. apply js_index_None in Hnone as [? | Hlen]; [lia |].
    unfold inactiveSections.
    rewrite slice_prefix, slice_from_suffix by lia.
    rewrite take_ge by done. rewrite drop_ge by lia. apply app_nil_r.
Qed.

(** *** [activeResourceMap] and [activeResourcePool] *)





(** *** Adding and removing sections *)

Lemma delete_snoc {A} (l : list A) (x : A) : delete (length l) (l ++ [x]) = l.
Proof. induction l as [|y l IH]; simpl; [done |]. by rewrite IH. Qed.

Lemma spread_quiz_sections (q : Quiz) (l : list QuizSection) :
  spread_quiz q (sections_update l)
  = {| question_sources := l; quiz_props := quiz_props q |}.
Proof. unfold spread_quiz. simpl. by rewrite (left_id_L ∅ (∪)). Qed.

(** X12. Removing the section that [addSection] has just added undoes
    it: in a quiz that has a section, when the quiz with the new section
    and the quiz as it was are both valid updates, [addSection] returns the
    new section, [removeSection] at the index of the new section returns,
    and the quiz, the cache and the selection are then as they were before
    the two calls; [quizHasChanged] is set. *)
Theorem addSection_removeSection (st : State) :
  let r1 := addSection st in
  let r2 := removeSection (Z.of_nat (length (allSections st))) r1.2 in
  (1 ≤ length (allSections st))%nat →
  validateQuiz (sections_update
                  (allSections st ++ [objectWithDefaults_QuizSection])) = true →
  validateQuiz (sections_update (allSections st)) = true →
  r1.1 = Ok objectWithDefaults_QuizSection
  ∧ r2.1 = Ok tt
  ∧ _quiz r2.2 = _quiz st
  ∧ _exerciseMap r2.2 = _exerciseMap st
  ∧ selectedActiveQuestions r2.2 = selectedActiveQuestions st
  ∧ quizHasChanged r2.2 = true.
Proof.
  intros r1 r2 Hlen Hadd Hremove.
  set (new := objectWithDefaults_QuizSection) in *.
  assert (Hr1 : r1 = (Ok new,
                      set_quiz {| question_sources := allSections st ++ [new];
                                  quiz_props := quiz_props (_quiz st) |}
                               (set_quizHasChanged true st))).
  { subst r1. unfold addSection, bind, gets, ret. simpl.
    change (question_sources (quiz st)) with (allSections st).
    rewrite updateQuiz_valid by done. by rewrite spread_quiz_sections. }
  subst r2. rewrite Hr1. simpl.
  set (st1 := set_quiz _ _).
  assert (Hnew : js_index (allSections st1) (Z.of_nat (length (allSections st)))
                 = Some new).
  { rewrite js_index_nat. simpl. apply list_lookup_middle. done. }
  unfold removeSection, bind, gets, ret. simpl. rewrite Hnew.
  rewrite (slice_remove _ _ _ Hnew), Nat2Z.id.
  change (allSections st1) with (allSections st ++ [new]).
  rewrite delete_snoc, updateQuiz_valid by done.
  rewrite spread_quiz_sections. simpl.
  rewrite bool_decide_eq_false_2
    by (unfold allSections, quiz in *; simpl; lia).
  simpl.
  split_and!; try done. unfold allSections, quiz. by destruct (_quiz st).
Qed.

(** *** [initializeQuiz] *)

Lemma addSection_eval (st : State) :
  addSection st
  = if validateQuiz (sections_update
                       (allSections st ++ [objectWithDefaults_QuizSection]))
    then (Ok objectWithDefaults_QuizSection,
          set_quiz {| question_sources :=
                        allSections st ++ [objectWithDefaults_QuizSection];
                      quiz_props := quiz_props (_quiz st) |}
                   (set_quizHasChanged true st))
    else (Throw TypeError, set_quizHasChanged true st).
Proof.
  unfold addSection, bind, gets, ret. simpl.
  change (question_sources (quiz st)) with (allSections st).
  destruct (validateQuiz _) eqn:Hvalid.
  - rewrite updateQuiz_valid by done. by rewrite spread_quiz_sections.
  - by rewrite updateQuiz_invalid.
Qed.

(** X13. [initializeQuiz].  When it returns, the quiz has at least one
    section and [quizHasChanged] is reset; the selection is never touched.
    For a new quiz the cache is kept, the quiz has the given collection,
    which is its one assignment, and the default value of every other
    property, and one default section; if this section makes an invalid
    update, the call throws a TypeError and leaves a quiz with no section
    and with [quizHasChanged] set.  For an existing quiz, a failed request
    rejects and leaves the state as it was; otherwise the fetched exercises
    are cached, the last one with a given id under this id, and the quiz
    has the fetched sections, or one default section when none was
    fetched. *)
Theorem initializeQuiz_spec (collection quizId : string)
    (fetched : option (QuizUpdates * list Exercise)) (st : State) :
  let r := initializeQuiz collection quizId fetched st in
  let new := objectWithDefaults_QuizSection in
  (r.1 = Ok tt →
   (1 ≤ length (allSections r.2))%nat ∧ quizHasChanged r.2 = false)
  ∧ selectedActiveQuestions r.2 = selectedActiveQuestions st
  ∧ (quizId = "new" →
     _exerciseMap r.2 = _exerciseMap st
     ∧ quiz_props (quiz r.2)
       = {[ "collection" := VStr collection;
            "assignments" := VStrs [collection] ]} ∪ defaultQuizProps
     ∧ (validateQuiz (sections_update [new]) = true →
        r.1 = Ok tt ∧ allSections r.2 = [new])
     ∧ (validateQuiz (sections_update [new]) = false →
        r.1 = Throw TypeError ∧ allSections r.2 = []
        ∧ quizHasChanged r.2 = true))
  ∧ (quizId ≠ "new" → fetched = None → r = (Throw Rejection, st))
  ∧ (quizId ≠ "new" →
     ∀ exam exercises, fetched = Some (exam, exercises) →
       let given := default [] (qupd_question_sources exam) in
       (∀ id, _exerciseMap r.2 !! id
              = match last_with_id exercises id with
                | Some e => Some e
                | None => _exerciseMap st !! id
                end)
       ∧ quiz_props (quiz r.2) = qupd_props exam ∪ defaultQuizProps
       ∧ (given ≠ [] → r.1 = Ok tt ∧ allSections r.2 = given)
       ∧ (given = [] → validateQuiz (sections_update [new]) = true →
          r.1 = Ok tt ∧ allSections r.2 = [new])
       ∧ (given = [] → validateQuiz (sections_update [new]) = false →
          r.1 = Throw TypeError ∧ allSections r.2 = []
          ∧ quizHasChanged r.2 = true)).
Proof.
  intros r new. subst r. unfold initializeQuiz.
  case_bool_decide as Hid.
  - unfold bind, modify. rewrite addSection_eval. simpl.
    fold new. destruct (validateQuiz (sections_update [new])); simpl.
    + split_and!; done.
    + split_and!; done.
  - destruct fetched as [[exam exercises]|]; [| by split_and!].
    unfold bind, modify, gets, ret.
    set (st0 := set_quiz (objectWithDefaults_Quiz exam)
                  (set_exerciseMap
                     (cache_exercises exercises (_exerciseMap st)) st)).
    assert (Hsec : allSections st0 = default [] (qupd_question_sources exam))
      by done.
    assert (Hcache : ∀ id, _exerciseMap st0 !! id
                           = match last_with_id exercises id with
                             | Some e => Some e
                             | None => _exerciseMap st !! id
                             end) by (intros; apply cache_exercises_last).
    rewrite Hsec.
    destruct (default [] (qupd_question_sources exam)) as [|s given'] eqn:Hgiven.
    + rewrite bool_decide_eq_true_2 by done.
      rewrite addSection_eval, Hsec. cbn [app]. fold new.
      destruct (validateQuiz (sections_update [new])); cbn [fst snd].
      * split_and!; try done.
        intros _ exam' exercises' [= <- <-]. cbv zeta. rewrite Hgiven.
        split_and!; done.
      * split_and!; try done.
        intros _ exam' exercises' [= <- <-]. cbv zeta. rewrite Hgiven.
        split_and!; done.
    + rewrite bool_decide_eq_false_2 by done. cbn [fst snd].
      split_and!; try done.
      * intros _. split; [| done].
        change (allSections (set_quizHasChanged false st0)) with (allSections st0).
        rewrite Hsec. simpl. lia.
      * intros _ exam' exercises' [= <- <-]. cbv zeta. rewrite Hgiven.
        split_and!; done.
Qed.

(** *** The number of sections *)

Lemma updateSection_length (i : Z) (u : SectionUpdates) (st : State) :
  length (allSections (updateSection i u st).2) = length (allSections st).
Proof.
  destruct (updateSection_cases i u st)
    as [(t & qs & _ & _ & ->) | [_ ->]]; [| done].
  simpl. rewrite updated_allSections. apply length_insert.
Qed.

Lemma initializeQuiz_returns (collection quizId : string)
    (fetched : option (QuizUpdates * list Exercise)) (st : State) :
  (initializeQuiz collection quizId fetched st).1 = Ok tt →
  (1 ≤ length (allSections (initializeQuiz collection quizId fetched st).2))%nat
  ∧ quizHasChanged (initializeQuiz collection quizId fetched st).2 = false.
Proof.
  unfold initializeQuiz. case_bool_decide as Hid.
  - unfold bind, modify. rewrite addSection_eval.
    destruct (validateQuiz _); [| done]. intros _. simpl.
    split; [| done]. unfold allSections. simpl. rewrite ?length_app. simpl. lia.
  - destruct fetched as [[exam exercises]|]; [| done].
    unfold bind, modify, gets, ret.
    set (st0 := set_quiz _ _).
    case_bool_decide as Hlen.
    + rewrite addSection_eval. destruct (validateQuiz _); [| done].
      intros _. simpl. split; [| done].
      unfold allSections at 1. simpl. rewrite ?length_app. simpl. lia.
    + intros _. simpl. split; [| done].
      change (allSections (set_quizHasChanged false st0)) with (allSections st0).
      lia.
Qed.

Lemma removeSection_returns (i : Z) (st : State) :
  (removeSection i st).1 = Ok tt →
  (1 ≤ length (allSections (removeSection i st).2))%nat.
Proof.
  unfold removeSection, bind, gets, ret, throw.
  destruct (js_index (allSections st) i) as [s|]; [| done].
  destruct (updateQuiz _ st) as [[[]|e] st1]; [| done].
  case_bool_decide as Hlen.
  - rewrite addSection_eval. destruct (validateQuiz _); [| done].
    intros _. simpl. unfold allSections at 1. simpl.
    rewrite ?length_app. simpl. lia.
  - intros _. simpl. lia.
Qed.

(** X14. The number of sections.  Every operation other than
    [initializeQuiz], [updateQuiz], [addSection] and [removeSection]
    leaves the quiz with as many sections as it had, whether it returns or
    throws.  [addSection] adds one section when it returns and none when
    it throws.  When [initializeQuiz], [addSection] or [removeSection]
    returns, the quiz has at least one section. *)
Theorem number_of_sections (op : operation) (st : State) :
  let r := run op st in
  (keeps_sections op = true →
   length (allSections r.2) = length (allSections st))
  ∧ (op = OpAddSection →
     (r.1 = Ok tt → length (allSections r.2) = S (length (allSections st)))
     ∧ (∀ e, r.1 = Throw e →
             length (allSections r.2) = length (allSections st)))
  ∧ (keeps_sections op = false → (∀ u, op ≠ OpUpdateQuiz u) → r.1 = Ok tt →
     (1 ≤ length (allSections r.2))%nat).
Proof.
  simpl. split_and!.
  - intros Hop. destruct op; try done; simpl.
    + by destruct (saveQuiz_state st) as [-> | [request ->]].
    + by rewrite saveQuiz_then_sections.
    + apply updateSection_length.
    + destruct (addQuestionsToSection_state sectionIndex qs resources
                  questionItemsToReplace st) as [-> | [u ->]];
        [done | apply updateSection_length].
    + destruct (addQuestionsToSectionFromResources_state sectionIndex
                  resourcePool questionCount seed st) as [-> | [u ->]];
        [done | apply updateSection_length].
    + destruct (autoReplaceQuestions_state shuffled questionItems st)
        as [-> | [u ->]]; [done | apply updateSection_length].
    + destruct (deleteActiveSelectedQuestions_state st) as [-> | [u [-> | ->]]];
        [done | apply updateSection_length |].
      apply (updateSection_length (activeSectionIndex st) u st).
    + unfold navigate. by case_bool_decide.
  - intros ->. simpl. rewrite addSection_eval.
    destruct (validateQuiz _); simpl; [| done]. split; [| done]. intros _.
    unfold allSections at 1. simpl. rewrite ?length_app. simpl. lia.
  - intros Hop Hraw. destruct op; try done; simpl.
    + intros Hok. by apply initializeQuiz_returns.
    + by destruct (Hraw updates).
    + rewrite addSection_eval. destruct (validateQuiz _); [| done].
      intros _. simpl. unfold allSections at 1. simpl.
      rewrite ?length_app. simpl. lia.
    + apply removeSection_returns.
Qed.

(** *** [quizHasChanged] *)

#[local] Instance change_marked_preorder : PreOrder change_marked.
Proof.
  split.
  - by intros st.
  - intros st1 st2 st3 [Hq12 Hc12] [Hq23 Hc23]. split; [| by auto].
    intros Hq13. destruct (decide (_quiz st2 = _quiz st1)) as [Heq|Hne].
    + apply Hq23. by rewrite Heq.
    + by apply Hc23, Hq12.
Qed.

Lemma change_marked_same (st st' : State) :
  _quiz st' = _quiz st → quizHasChanged st' = quizHasChanged st →
  change_marked st st'.
Proof. intros Hq Hc. split; [done | by rewrite Hc]. Qed.

Lemma change_marked_set (st st' : State) :
  quizHasChanged st' = true → change_marked st st'.
Proof. by intros Hc. Qed.

Lemma updateSection_marked (i : Z) (u : SectionUpdates) :
  preserves change_marked (updateSection i u).
Proof.
  intros st. apply change_marked_set.
  by destruct (updateSection_cases i u st)
    as [(t & qs & _ & _ & ->) | [_ ->]].
Qed.

Lemma updateQuiz_marked (u : QuizUpdates) : preserves change_marked (updateQuiz u).
Proof.
  intros st. apply change_marked_set. unfold updateQuiz. by destruct (negb _).
Qed.

Lemma addSection_marked : preserves change_marked addSection.
Proof.
  intros st. apply change_marked_set. rewrite addSection_eval.
  by destruct (validateQuiz _).
Qed.

Lemma removeSection_marked (i : Z) : preserves change_marked (removeSection i).
Proof.
  unfold removeSection.
  apply preserves_bind; [apply _ | apply preserves_gets; apply _ | intros sections].
  destruct (js_index sections i); [| apply preserves_throw; apply _].
  apply preserves_bind; [apply _ | apply updateQuiz_marked | intros _].
  apply preserves_bind; [apply _ | apply preserves_gets; apply _ | intros l].
  apply preserves_if; [| apply preserves_ret; apply _].
  apply preserves_bind; [apply _ | apply addSection_marked | intros _].
  apply preserves_ret; apply _.
Qed.

(** X15. [quizHasChanged] marks every change of the quiz.  After an
    operation other than [initializeQuiz] and the continuation of
    [saveQuiz], whether it returned or threw, the quiz differs from the
    quiz before only if [quizHasChanged] is set, and [quizHasChanged] is
    still set if it was set before.  When [initializeQuiz] or the
    continuation of [saveQuiz] returns, [quizHasChanged] is reset. *)
Theorem quizHasChanged_spec (op : operation) (st : State) :
  let r := run op st in
  (resets_changed op = false →
   (_quiz r.2 ≠ _quiz st → quizHasChanged r.2 = true)
   ∧ (quizHasChanged st = true → quizHasChanged r.2 = true))
  ∧ (resets_changed op = true → r.1 = Ok tt → quizHasChanged r.2 = false).
Proof.
  simpl. split.
  - intros Hop. change (change_marked st (run op st).2).
    destruct op; try done; simpl.
    + destruct (saveQuiz_state st) as [-> | [request ->]];
        by apply change_marked_same.
    + apply updateQuiz_marked.
    + apply updateSection_marked.
    + destruct (addQuestionsToSection_state sectionIndex qs resources
                  questionItemsToReplace st) as [-> | [u ->]];
        [reflexivity | apply updateSection_marked].
    + destruct (addQuestionsToSectionFromResources_state sectionIndex
                  resourcePool questionCount seed st) as [-> | [u ->]];
        [reflexivity | apply updateSection_marked].
    + destruct (autoReplaceQuestions_state shuffled questionItems st)
        as [-> | [u ->]]; [reflexivity | apply updateSection_marked].
    + destruct (deleteActiveSelectedQuestions_state st) as [-> | [u [-> | ->]]];
        [reflexivity | apply updateSection_marked |].
      etrans; [apply (updateSection_marked (activeSectionIndex st) u) |].
      by apply change_marked_same.
    + apply addSection_marked.
    + apply removeSection_marked.
    + unfold navigate. case_bool_decide; by apply change_marked_same.
  - intros Hop. destruct op; try done; simpl.
    + intros Hok. by apply initializeQuiz_returns.
    + unfold saveQuiz_then, bind, modify, ret.
      destruct (if bool_decide _ then _ else _) as [[[]|e] st1]; done.
Qed.

(** *** The id of a saved quiz *)

(** X16. A save that the server answers.  When [saveQuiz] has made its
    request and the server answers it with [exam], the continuation
    returns [exam] or throws a TypeError.  When it returns, the [id] of
    the quiz is the id of [exam], every other property and the sections
    of the quiz are as they were when the request was made, and
    [quizHasChanged] is reset.  It throws only when the id of [exam]
    differs from that of the request and is not a valid update; the quiz
    is then as before and [quizHasChanged] is set. *)
Theorem saveQuiz_then_id (st st1 : State) (request : SaveRequest) (exam : Exam) :
  saveQuiz st = (Ok request, st1) →
  let r := saveQuiz_then (req_id request) exam st1 in
  (r.1 = Ok exam ∨ r.1 = Throw TypeError)
  ∧ (r.1 = Ok exam →
     prop (quiz_props (_quiz r.2)) "id" = exam_id exam
     ∧ (∀ k, k ≠ "id" →
             quiz_props (_quiz r.2) !! k = quiz_props (_quiz st) !! k)
     ∧ allSections r.2 = allSections st
     ∧ quizHasChanged r.2 = false)
  ∧ (r.1 = Throw TypeError →
     req_id request ≠ exam_id exam
     ∧ _quiz r.2 = _quiz st
     ∧ quizHasChanged r.2 = true).
Proof.
  intros Hsave.
  assert (Hrequest : req_id request = prop (quiz_props (_quiz st)) "id"
                     ∧ _quiz st1 = _quiz st).
  { unfold saveQuiz in Hsave. destruct (negb _); [done |].
    destruct (finalQuiz st) as [data|e]; [| done].
    by injection Hsave as <- <-. }
  destruct Hrequest as [Hid Hquiz]. clear Hsave.
  unfold saveQuiz_then, bind, modify, ret. simpl.
  case_bool_decide as Hne.
  - unfold updateQuiz. destruct (negb _); simpl.
    + split_and!; try done. by right.
    + split_and!; try done; [by left | intros _].
      unfold allSections, quiz. simpl. rewrite Hquiz. split_and!; try done.
      * unfold prop. by rewrite lookup_union_l', lookup_singleton_eq
          by (by rewrite lookup_singleton_eq).
      * intros k Hk. rewrite lookup_union_r; [done |].
        by apply lookup_singleton_ne.
  - simpl.
    split_and!; try done; [by left | intros _].
    unfold allSections, quiz. simpl. rewrite Hquiz. split_and!; try done.
    by rewrite <- Hne, Hid.
Qed.

(** *** The working questions of the panel *)

(** X17. [removeFromWorkingQuestions] of the panel.  Afterwards a
    question is a working question exactly when it was one and its item is
    the item of none of the given questions, and an exercise is in the
    working pool exactly when it was there and a working question that is
    left belongs to it; the questions and the exercises that stay keep
    their order, and the settings are untouched. *)
Theorem removeFromWorkingQuestions_spec (questions : list QuizQuestion)
    (p : Panel) :
  let p' := removeFromWorkingQuestions questions p in
  (∀ q, q ∈ workingQuestions p'
        ↔ q ∈ workingQuestions p ∧ item q ∉ map item questions)
  ∧ workingQuestions p' `sublist_of` workingQuestions p
  ∧ (∀ r, r ∈ workingResourcePool p'
          ↔ r ∈ workingResourcePool p
            ∧ ∃ q, q ∈ workingQuestions p' ∧ exercise_id q = ex_id r)
  ∧ workingResourcePool p' `sublist_of` workingResourcePool p
  ∧ settings p' = settings p.
Proof.
  simpl. split_and!; [| apply sublist_filter | | apply sublist_filter | done].
  - intros q. rewrite list_elem_of_filter, Exists_exists, list_elem_of_fmap.
    split.
    + intros [Hq ?]. split; [done |]. intros (r & ? & ?). apply Hq. by exists r.
    + intros [? Hq]. split; [| done]. intros (r & ? & ?). apply Hq. by exists r.
  - set (left := filter _ (workingQuestions p)).
    intros r. rewrite list_elem_of_filter, Exists_exists. split.
    + intros [Hkept Hr]. split; [done |].
      destruct (decide (Exists (λ q, exercise_id q = ex_id r) left))
        as [(q & ? & ?)%Exists_exists | Hnone]; [by exists q |].
      destruct Hkept. exists r. split; [| done].
      by apply list_elem_of_filter.
    + intros [Hr (q & Hq & Hid)]. split; [| done].
      intros (r' & [Hnone _]%list_elem_of_filter & Hr').
      apply Hnone, Exists_exists. exists q. split; [done | congruence].
Qed.

Lemma not_Exists_item (l : list QuizQuestion) (c : string) :
  ¬ Exists (λ q, item q = c) l ↔ c ∉ map item l.
Proof.
  rewrite Exists_exists, list_elem_of_fmap. split.
  - intros Hc (q & -> & Hq). apply Hc. by exists q.
  - intros Hc (q & Hq & <-). apply Hc. by exists q.
Qed.

Lemma unusedQuestionsCount_Ok (st : State) (p : Panel) (content : Exercise)
    (all : list QuizQuestion) :
  allQuestionsInQuiz st = Ok all →
  unusedQuestionsCount st p content
  = Ok (length (filter (λ c, c ∉ map item (workingQuestions p))
                       (unused_composites st content))).
Proof.
  intros Hall. unfold unusedQuestionsCount, unused_composites.
  rewrite <- (allQuestionsInQuiz_items st all Hall).
  destruct (map _ (assessment_item_ids content)) as [|c cs] eqn:Hitems;
    [done |].
  rewrite Hall. simpl. do 2 f_equal.
  rewrite <- Hitems. clear Hitems.
  induction (map _ (assessment_item_ids content)) as [|x l IH]; [done |].
  rewrite !filter_cons.
  destruct (decide (¬ Exists (λ q, item q = x) all)) as [Hx|Hx];
    destruct (decide (x ∉ map item all)) as [Hx'|Hx'];
    try (by apply not_Exists_item in Hx);
    try (by apply not_Exists_item in Hx'); [| done].
  rewrite !filter_cons.
  destruct (decide (¬ Exists (λ q, item q = x) (workingQuestions p)))
    as [Hw|Hw];
    destruct (decide (x ∉ map item (workingQuestions p))) as [Hw'|Hw'];
    try (by apply not_Exists_item in Hw);
    try (by apply not_Exists_item in Hw'); [| done].
  by rewrite IH.
Qed.

Lemma unusedQuestionsCount_returns (st : State) (p : Panel) (content : Exercise)
    (n : nat) :
  unusedQuestionsCount st p content = Ok n →
  n = length (filter (λ c, c ∉ map item (workingQuestions p))
                     (unused_composites st content))
  ∧ (n ≠ 0%nat → ∃ all, allQuestionsInQuiz st = Ok all).
Proof.
  intros Hn. destruct (allQuestionsInQuiz st) as [all|e] eqn:Hall.
  - rewrite (unusedQuestionsCount_Ok st p content all Hall) in Hn.
    injection Hn as <-. split; [done |]. by exists all.
  - unfold unusedQuestionsCount in Hn. rewrite Hall in Hn.
    destruct (map _ (assessment_item_ids content)) as [|c cs] eqn:Hitems;
      [| done].
    injection Hn as <-. unfold unused_composites. rewrite Hitems. done.
Qed.

(** X18. [unusedQuestionsCount] of the panel.  When it returns, the
    count is the number of the composite keys of the assessment items of
    the exercise that are neither items of the quiz nor items of working
    questions, so at most the number of its assessment items; it returns
    whenever every section holds an array of questions.  With no working
    question, it is the number of unused questions that
    [activeExercisesUnusedQuestionsMap] lists for a cached exercise. *)
Theorem unusedQuestionsCount_spec (st : State) (p : Panel) (content : Exercise) :
  (∀ n, unusedQuestionsCount st p content = Ok n →
        n = length (filter (λ c, c ∉ map item (workingQuestions p))
                           (unused_composites st content))
        ∧ (n ≤ length (assessment_item_ids content))%nat)
  ∧ (sections_hold_arrays st → ∃ n, unusedQuestionsCount st p content = Ok n)
  ∧ (reachable st → sections_hold_arrays st → workingQuestions p = [] →
     ∀ unusedMap unused,
       activeExercisesUnusedQuestionsMap st = Ok unusedMap →
       _exerciseMap st !! ex_id content = Some content →
       unusedMap !! ex_id content = Some unused →
       unusedQuestionsCount st p content = Ok (length unused)).
Proof.
  assert (Hbound : (length (filter (λ c, c ∉ map item (workingQuestions p))
                              (unused_composites st content))
                    ≤ length (assessment_item_ids content))%nat).
  { unfold unused_composites.
    etrans; [apply length_filter |]. etrans; [apply length_filter |].
    by rewrite length_map. }
  split_and!.
  - intros n [-> _]%unusedQuestionsCount_returns. done.
  - intros (all & Hall)%allQuestionsInQuiz_Ok. eexists.
    by apply (unusedQuestionsCount_Ok st p content all).
  - intros Hreach (all & Hall)%allQuestionsInQuiz_Ok Hworking unusedMap unused
      Hmap Hcached Hunused.
    destruct (unusedMap_entry st unusedMap _ unused
                (reachable_cache_keyed st Hreach) Hmap Hunused)
      as (e & He & _ & ->).
    assert (e = content) as -> by congruence.
    rewrite (unusedQuestionsCount_Ok st p content all Hall), Hworking. simpl.
    by rewrite filter_all by (intros; apply not_elem_of_nil).
Qed.

(** *** The loop of [saveSelectedResource] for a practice quiz *)

Lemma chunked_spec {A} (n fuel : nat) (l : list A) :
  (1 ≤ n)%nat → (length l ≤ fuel)%nat →
  concat (chunked n fuel l) = l
  ∧ Forall (λ c, (1 ≤ length c ≤ n)%nat) (chunked n fuel l).
Proof.
  intros Hn. revert l. induction fuel as [|fuel IH]; intros l Hl.
  - destruct l; [done | simpl in Hl; lia].
  - destruct l as [|x l]; [done |].
    cbn [chunked concat].
    destruct (IH (drop n (x :: l))) as [Hconcat Hall].
    { rewrite length_drop. simpl in *. lia. }
    split.
    + by rewrite Hconcat, take_drop.
    + constructor; [| done]. rewrite length_take. simpl. lia.
Qed.

#[local] Instance same_session_preorder : PreOrder same_session.
Proof.
  split.
  - by intros st.
  - intros st1 st2 st3 (? & ? & ?) (? & ? & ?).
    unfold same_session. split_and!; congruence.
Qed.

Lemma updateSection_session (i : Z) (u : SectionUpdates) :
  preserves same_session (updateSection i u).
Proof.
  intros st.
  by destruct (updateSection_cases i u st)
    as [(t & qs & _ & _ & ->) | [_ ->]].
Qed.

Lemma addSection_session : preserves same_session addSection.
Proof. intros st. rewrite addSection_eval. by destruct (validateQuiz _). Qed.

Lemma fill_sections_session (fuel : nat) (pool : list Exercise)
    (remainder : list QuizQuestion) (sectionIndex : Z) :
  preserves same_session (fill_sections fuel pool remainder sectionIndex).
Proof.
  revert remainder sectionIndex.
  induction fuel as [|fuel IH]; intros [|q remainder] sectionIndex;
    cbn [fill_sections]; try (apply preserves_ret; apply _).
  apply preserves_bind; [apply _ | apply preserves_gets; apply _ | intros a].
  apply preserves_bind; [apply _ | | intros _].
  { apply preserves_if; [| apply preserves_ret; apply _].
    apply preserves_bind; [apply _ | apply addSection_session | intros _].
    apply preserves_ret; apply _. }
  apply preserves_bind; [apply _ | apply updateSection_session | intros _].
  apply IH.
Qed.

Lemma fill_sections_round (fuel : nat) (pool : list Exercise)
    (q : QuizQuestion) (remainder : list QuizQuestion) (i : nat) (st : State)
    (t : QuizSection) :
  let c := take MAX_QUESTIONS_PER_QUIZ_SECTION (q :: remainder) in
  let st1 := section_added (bool_decide (Z.of_nat i ≠ activeSectionIndex st)) st in
  (∀ l, validateQuiz (sections_update l) = true) →
  Forall (λ q, validateQuizQuestion q = true) (q :: remainder) →
  allSections st1 !! i = Some t →
  fill_sections (S fuel) pool (q :: remainder) (Z.of_nat i) st
  = fill_sections fuel pool
      (drop MAX_QUESTIONS_PER_QUIZ_SECTION (q :: remainder)) (Z.of_nat (S i))
      (updated (Z.of_nat i) (practice_update pool c) t (Some (QArray c)) st1).
Proof.
  intros c st1 Hquiz Hvalid Ht.
  cbn [fill_sections]. unfold bind at 1, gets.
  assert (Hadd : (if bool_decide (Z.of_nat i ≠ activeSectionIndex st)
                  then let* _ := addSection in ret tt else ret tt) st
                 = (Ok tt, st1)).
  { subst st1. unfold section_added. case_bool_decide; [| done].
    unfold bind, ret. by rewrite addSection_eval, Hquiz. }
  unfold bind at 1. rewrite Hadd. unfold bind at 1.
  fold c. change {| upd_questions := Some (ArgArray (map Some c)) |}
    with (practice_update pool c) at 1.
  rewrite (updateSection_Ok (Z.of_nat i) (practice_update pool c) st1 t
             (Some (QArray c))).
  - by rewrite Nat2Z.inj_succ, <- Z.add_1_r.
  - by rewrite js_index_nat.
  - apply check_questions_valid.
    + subst c. rewrite length_take. lia.
    + subst c. by apply Forall_take.
Qed.

Lemma section_added_sections (add : bool) (st : State) :
  allSections (section_added add st)
  = allSections st ++ (if add then [objectWithDefaults_QuizSection] else []).
Proof. destruct add; simpl; [done | by rewrite app_nil_r]. Qed.

Lemma default_section_lookup (sections : list QuizSection) (add : bool) (m : nat) :
  default objectWithDefaults_QuizSection
    ((sections ++ (if add then [objectWithDefaults_QuizSection] else [])) !! m)
  = default objectWithDefaults_QuizSection (sections !! m).
Proof.
  destruct add; [| by rewrite app_nil_r].
  destruct (decide (m < length sections)%nat) as [Hm|Hm].
  - by rewrite lookup_app_l.
  - rewrite lookup_app_r, (lookup_ge_None_2 sections) by lia.
    by destruct (m - length sections)%nat.
Qed.

Lemma practice_section (pool : list Exercise) (c : list QuizQuestion)
    (t : QuizSection) :
  questions (spread_section t (Some (QArray c)) (practice_update pool c))
  = QArray c
  ∧ section_props (spread_section t (Some (QArray c)) (practice_update pool c))
    = section_props t.
Proof.
  split; [done |]. unfold spread_section, resourcePool_prop. simpl.
  by rewrite !(left_id_L ∅ (∪)).
Qed.

Lemma fill_sections_spec (pool : list Exercise) :
  (1 ≤ MAX_QUESTIONS_PER_QUIZ_SECTION)%nat →
  (∀ l, validateQuiz (sections_update l) = true) →
  ∀ (fuel : nat) (remainder : list QuizQuestion) (i : nat) (st : State),
    Forall (λ q, validateQuizQuestion q = true) remainder →
    (length remainder ≤ fuel)%nat →
    (0 ≤ activeSectionIndex st)%Z →
    (Z.to_nat (activeSectionIndex st) ≤ i)%nat →
    (i < length (allSections st)
         + (if decide (i = Z.to_nat (activeSectionIndex st)) then 0 else 1))%nat →
    let new := objectWithDefaults_QuizSection in
    let cs := chunked MAX_QUESTIONS_PER_QUIZ_SECTION fuel remainder in
    let added := (length cs
                  - (if decide (i = Z.to_nat (activeSectionIndex st))
                     then 1 else 0))%nat in
    ∃ st',
      fill_sections fuel pool remainder (Z.of_nat i) st = (Ok true, st')
      ∧ quiz_props (quiz st') = quiz_props (quiz st)
      ∧ length (allSections st') = (length (allSections st) + added)%nat
      ∧ (∀ m, (m < i)%nat → allSections st' !! m = allSections st !! m)
      ∧ (∀ j c, cs !! j = Some c →
           ∃ s, allSections st' !! (i + j)%nat = Some s
                ∧ questions s = QArray c
                ∧ section_props s
                  = section_props (default new (allSections st !! (i + j)%nat)))
      ∧ (∀ m, (i + length cs ≤ m)%nat →
              allSections st' !! m
              = (allSections st ++ replicate added new) !! m)
      ∧ (cs = [] → st' = st)
      ∧ (cs ≠ [] →
         _exerciseMap st' = cache_exercises pool (_exerciseMap st)
         ∧ quizHasChanged st' = true).
Proof.
  intros Hmax Hquiz fuel.
  induction fuel as [|fuel IH]; intros remainder i st Hvalid Hfuel Hactive Hi Hroom.
  - destruct remainder; [| simpl in Hfuel; lia].
    exists st. simpl. rewrite Nat.add_0_r.
    split_and!; try done. intros m _. by rewrite app_nil_r.
  - destruct remainder as [|q remainder].
    { exists st. simpl. rewrite Nat.add_0_r.
      split_and!; try done. intros m _. by rewrite app_nil_r. }
    set (a := Z.to_nat (activeSectionIndex st)) in *.
    set (add := bool_decide (Z.of_nat i ≠ activeSectionIndex st)).
    set (c := take MAX_QUESTIONS_PER_QUIZ_SECTION (q :: remainder)).
    set (rest := drop MAX_QUESTIONS_PER_QUIZ_SECTION (q :: remainder)).
    set (st1 := section_added add st).
    assert (Hadd : (if decide (i = a) then 0 else 1)%nat
                   = length (if add then [objectWithDefaults_QuizSection]
                             else [])).
    { subst add. destruct (decide (i = a)) as [Heq|Hne].
      - rewrite bool_decide_eq_false_2; [done |]. intros Hne. apply Hne.
        subst a. lia.
      - rewrite bool_decide_eq_true_2; [done |]. intros Heq. apply Hne.
        subst a. lia. }
    assert (Hsections1 : allSections st1
                         = allSections st
                           ++ (if add then [objectWithDefaults_QuizSection]
                               else [])) by apply section_added_sections.
    assert (Hlen1 : (i < length (allSections st1))%nat).
    { rewrite Hsections1, length_app, <- Hadd. exact Hroom. }
    destruct (lookup_lt_is_Some_2 _ _ Hlen1) as [t Ht].
    rewrite (fill_sections_round fuel pool q remainder i st t Hquiz Hvalid Ht).
    fold add st1 c rest.
    set (st2 := updated (Z.of_nat i) (practice_update pool c) t
                  (Some (QArray c)) st1).
    assert (Hsections2 : allSections st2
                         = <[i := spread_section t (Some (QArray c))
                                    (practice_update pool c)]> (allSections st1)).
    { subst st2. by rewrite updated_allSections, Nat2Z.id. }
    assert (Hactive2 : activeSectionIndex st2 = activeSectionIndex st)
      by (subst st2 st1; by destruct add).
    destruct (IH rest (S i) st2) as (st' & Hrun & Hprops & Hlen & Hbefore
                                     & Hchunks & Hafter & Hnone & Hsome).
    { subst rest. by apply Forall_drop. }
    { subst rest. rewrite length_drop. simpl in *. lia. }
    { by rewrite Hactive2. }
    { rewrite Hactive2. fold a. lia. }
    { rewrite Hactive2. fold a. rewrite decide_False by lia.
      rewrite Hsections2, length_insert. lia. }
    rewrite Hactive2 in Hlen, Hafter. fold a in Hlen, Hafter.
    rewrite decide_False in Hlen, Hafter by lia.
    rewrite Nat.sub_0_r in Hlen, Hafter.
    set (cs' := chunked MAX_QUESTIONS_PER_QUIZ_SECTION fuel rest) in *.
    assert (Hadded : (length (c :: cs') - (if decide (i = a) then 1 else 0))%nat
                     = (length (if add then [objectWithDefaults_QuizSection]
                                else []) + length cs')%nat).
    { rewrite <- Hadd. simpl. destruct (decide (i = a)); lia. }
    assert (Hi_st' : allSections st' !! i
                     = Some (spread_section t (Some (QArray c))
                               (practice_update pool c))).
    { rewrite Hbefore by lia. rewrite Hsections2.
      by apply list_lookup_insert_eq. }
    exists st'. cbn [chunked]. fold c rest cs'. rewrite Hadded.
    split_and!.
    + exact Hrun.
    + rewrite Hprops. subst st2 st1. by destruct add.
    + rewrite Hlen, Hsections2, length_insert, Hsections1, length_app. lia.
    + intros m Hm. rewrite Hbefore by lia.
      rewrite Hsections2, list_lookup_insert_ne by lia.
      rewrite Hsections1. apply lookup_app_l.
      destruct (decide (i = a)); lia.
    + intros [|j] c' Hc'.
      * injection Hc' as <-. rewrite Nat.add_0_r, Hi_st'.
        eexists. split; [done |].
        destruct (practice_section pool c t) as [Hq Hp].
        split; [done |]. rewrite Hp.
        rewrite <- (default_section_lookup (allSections st) add i).
        by rewrite <- Hsections1, Ht.
      * destruct (Hchunks j c' Hc') as (s & Hs & Hqs & Hps).
        exists s. replace (i + S j)%nat with (S i + j)%nat by lia.
        split_and!; [done | done |]. rewrite Hps.
        rewrite Hsections2, list_lookup_insert_ne by lia.
        by rewrite Hsections1, default_section_lookup.
    + intros m Hm. simpl in Hm. rewrite Hafter by lia.
      rewrite Hsections2, <- insert_app_l by done.
      rewrite list_lookup_insert_ne by lia.
      rewrite Hsections1, <- (assoc_L (++)). do 2 f_equal.
      rewrite replicate_add. by destruct add.
    + done.
    + intros _.
      assert (Hst2 : _exerciseMap st2 = cache_exercises pool (_exerciseMap st)
                     ∧ quizHasChanged st2 = true).
      { subst st2 st1. by destruct add. }
      destruct cs' as [|c' cs''] eqn:Hcs'.
      * rewrite (Hnone eq_refl). exact Hst2.
      * destruct Hsome as [Hcache Hflag]; [done |]. split; [| done].
        rewrite Hcache. destruct Hst2 as [-> _]. apply cache_exercises_twice.
Qed.

Lemma chunked_fuel {A} (n fuel fuel' : nat) (l : list A) :
  (1 ≤ n)%nat → (length l ≤ fuel)%nat → (length l ≤ fuel')%nat →
  chunked n fuel l = chunked n fuel' l.
Proof.
  intros Hn. revert fuel' l.
  induction fuel as [|fuel IH]; intros fuel' l Hl Hl'.
  - destruct l; [by destruct fuel' | simpl in Hl; lia].
  - destruct l as [|x l]; [by destruct fuel' |].
    destruct fuel' as [|fuel']; [simpl in Hl'; lia |].
    cbn [chunked]. f_equal.
    apply IH; rewrite length_drop; simpl in *; lia.
Qed.

Lemma saveSelectedResource_closing (p : Panel) (st : State) :
  (let* _ := (if isInReplaceMode (settings p) then clearSelectedQuestions
              else ret tt) in
   let notified := notifyChanges p in
   let* p := handleClosePanel p in
   ret (Some (p, notified))) st
  = (Ok (Some (setWorkingResourcePool [] p, notifyChanges p)),
     set_questionItemsToReplace (Some [])
       (if isInReplaceMode (settings p) then set_selectedQuestionIds [] st
        else st)).
Proof. by destruct (isInReplaceMode (settings p)). Qed.

(** X19. [saveSelectedResource] for a practice quiz.  With
    [MAX_QUESTIONS_PER_QUIZ_SECTION] at least 1, an active section, one
    exercise in the working pool whose questions are valid, and section
    lists that are valid updates, the loop ends within as many rounds as
    the exercise has questions and the call returns, closing the panel.
    The questions of the exercise are cut, in order, into chunks of
    [MAX_QUESTIONS_PER_QUIZ_SECTION] questions (the last one may be
    shorter); the chunks become the questions of the consecutive sections
    from the active index on, each section keeping the other properties it
    had (those of a default section where there was none); one default
    section is added at the end of the quiz for every chunk after the
    first; the sections before the active one are untouched, and so are
    those past the last chunk.  The exercise is cached and the items to
    replace are the empty array. *)
Theorem saveSelectedResource_practice_quiz (fuel : nat) (seed : Z) (p : Panel)
    (exercise : Exercise) (st : State) :
  let qs := exerciseToQuestionArray exercise in
  let cs := chunked MAX_QUESTIONS_PER_QUIZ_SECTION (length qs) qs in
  let a := Z.to_nat (activeSectionIndex st) in
  let new := objectWithDefaults_QuizSection in
  let r := saveSelectedResource fuel seed p st in
  selectPracticeQuiz (settings p) = true →
  workingResourcePool p = [exercise] →
  (1 ≤ MAX_QUESTIONS_PER_QUIZ_SECTION)%nat →
  (∀ l, validateQuiz (sections_update l) = true) →
  Forall (λ q, validateQuizQuestion q = true) qs →
  is_Some (activeSection st) →
  (length qs ≤ fuel)%nat →
  r.1 = Ok (Some (setWorkingResourcePool [] p, notifyChanges p))
  ∧ concat cs = qs
  ∧ Forall (λ c, (1 ≤ length c ≤ MAX_QUESTIONS_PER_QUIZ_SECTION)%nat) cs
  ∧ length (allSections r.2)
    = (length (allSections st) + (length cs - 1))%nat
  ∧ (∀ m, (m < a)%nat → allSections r.2 !! m = allSections st !! m)
  ∧ (∀ j c, cs !! j = Some c →
       ∃ s, allSections r.2 !! (a + j)%nat = Some s
            ∧ questions s = QArray c
            ∧ section_props s
              = section_props (default new (allSections st !! (a + j)%nat)))
  ∧ (∀ m, (a + length cs ≤ m)%nat →
          allSections r.2 !! m
          = (allSections st ++ replicate (length cs - 1) new) !! m)
  ∧ (qs ≠ [] → _exerciseMap r.2 !! ex_id exercise = Some exercise)
  ∧ _questionItemsToReplace r.2 = Some [].
Proof.
  intros qs cs a new r Hpractice Hpool Hmax Hquiz Hvalid [t Ht] Hfuel.
  apply js_index_Some in Ht as [Hactive Ht].
  destruct (chunked_spec MAX_QUESTIONS_PER_QUIZ_SECTION (length qs) qs Hmax)
    as [Hconcat Hsizes]; [done |].
  destruct (fill_sections_spec [exercise] Hmax Hquiz fuel qs a st)
    as (st' & Hrun & _ & Hlen & Hbefore & Hchunks & Hafter & _ & Hsome);
    [done | done | done | done | |].
  { rewrite decide_True by done. apply lookup_lt_Some in Ht. fold a in Ht. lia. }
  rewrite decide_True in Hlen, Hafter by done.
  rewrite (chunked_fuel _ fuel (length qs)) in Hlen, Hchunks, Hafter, Hsome
    by done.
  fold cs in Hlen, Hchunks, Hafter, Hsome.
  assert (Hr : r = (Ok (Some (setWorkingResourcePool [] p, notifyChanges p)),
                    set_questionItemsToReplace (Some [])
                      (if isInReplaceMode (settings p)
                       then set_selectedQuestionIds [] st' else st'))).
  { subst r. unfold saveSelectedResource.
    unfold bind at 1, gets. rewrite Hpractice, Hpool.
    unfold bind at 1. fold qs. subst a. rewrite Z2Nat.id in Hrun by done.
    rewrite Hrun. apply saveSelectedResource_closing. }
  assert (Hsections : allSections r.2 = allSections st'
                      ∧ _exerciseMap r.2 = _exerciseMap st').
  { rewrite Hr. by destruct (isInReplaceMode (settings p)). }
  destruct Hsections as [Hsections Hcache]. rewrite Hsections, Hcache.
  split_and!; try done.
  - by rewrite Hr.
  - intros Hqs. destruct Hsome as [-> _].
    + intros Hcs. apply Hqs. unfold cs in Hcs. by rewrite <- Hconcat, Hcs.
    + rewrite cache_exercises_last.
      by rewrite (last_with_id_unique [exercise] exercise)
        by (apply NoDup_singleton || left).
  - rewrite Hr. done.
Qed.

(** *** [saveSelectedResource] *)

Lemma addQuestionsToSection_session (i : Z) (qs : option (list QuizQuestion))
    (resources : option (list Exercise)) (items : option (list string)) :
  preserves same_session (addQuestionsToSection i qs resources items).
Proof.
  intros st.
  destruct (addQuestionsToSection_state i qs resources items st)
    as [-> | [u ->]]; [reflexivity | apply updateSection_session].
Qed.

Lemma addQuestionsToSectionFromResources_session (i : Z)
    (pool : option (list Exercise)) (n : option Z) (seed : Z) :
  preserves same_session (addQuestionsToSectionFromResources i pool n seed).
Proof.
  intros st.
  destruct (addQuestionsToSectionFromResources_state i pool n seed st)
    as [-> | [u ->]]; [reflexivity | apply updateSection_session].
Qed.

Lemma saveSelectedResource_not_practice (fuel : nat) (seed : Z) (p : Panel)
    (st : State) :
  let s := settings p in
  let op :=
    if isChoosingManually s
    then addQuestionsToSection (activeSectionIndex st)
           (Some (workingQuestions p)) (Some (workingResourcePool p))
           (settings_questionItemsToReplace s) st
    else addQuestionsToSectionFromResources (activeSectionIndex st)
           (Some (workingResourcePool p)) (settings_questionCount s) seed st in
  selectPracticeQuiz s = false →
  saveSelectedResource fuel seed p st
  = match op with
    | (Ok _, st') =>
        (Ok (Some (setWorkingResourcePool [] p, notifyChanges p)),
         set_questionItemsToReplace (Some [])
           (if isInReplaceMode s then set_selectedQuestionIds [] st' else st'))
    | (Throw e, st') => (Throw e, st')
    end.
Proof.
  intros s op Hpractice. subst op.
  unfold saveSelectedResource. unfold bind at 1, gets.
  unfold bind at 1. fold s. rewrite Hpractice.
  destruct (isChoosingManually s); unfold bind at 1.
  - destruct (addQuestionsToSection _ _ _ _ st) as [[[]|e] st']; [| done].
    apply saveSelectedResource_closing.
  - destruct (addQuestionsToSectionFromResources _ _ _ _ st)
      as [[[]|e] st']; [| done].
    apply saveSelectedResource_closing.
Qed.

(** X20. [saveSelectedResource].  For a practice quiz it throws an
    Error and leaves the state as it was unless exactly one exercise is in
    the working pool.  Otherwise it calls [addQuestionsToSection] for the
    active section when the questions are chosen manually, and
    [addQuestionsToSectionFromResources] when they are not: when this call
    throws, [saveSelectedResource] throws the same error and leaves the
    state that the call has left; when it returns, the quiz and the cache
    are those that the call has left.  The panel is closed only when the
    save has succeeded: then the working pool is emptied, the items to
    replace are the empty array, and the selection of the quiz is cleared
    in replace mode and kept otherwise; the active index stays.  As long
    as the panel is not closed, the selection and the items to replace of
    the quiz are untouched. *)
Theorem saveSelectedResource_spec (fuel : nat) (seed : Z) (p : Panel)
    (st : State) :
  let s := settings p in
  let r := saveSelectedResource fuel seed p st in
  let op :=
    if isChoosingManually s
    then addQuestionsToSection (activeSectionIndex st)
           (Some (workingQuestions p)) (Some (workingResourcePool p))
           (settings_questionItemsToReplace s) st
    else addQuestionsToSectionFromResources (activeSectionIndex st)
           (Some (workingResourcePool p)) (settings_questionCount s) seed st in
  (selectPracticeQuiz s = true → length (workingResourcePool p) ≠ 1%nat →
   r = (Throw Error, st))
  ∧ (selectPracticeQuiz s = false →
     (∀ e, op.1 = Throw e → r = (Throw e, op.2))
     ∧ (op.1 = Ok tt →
        r.1 = Ok (Some (setWorkingResourcePool [] p, notifyChanges p))
        ∧ _quiz r.2 = _quiz op.2
        ∧ _exerciseMap r.2 = _exerciseMap op.2))
  ∧ (∀ p' c, r.1 = Ok (Some (p', c)) →
       p' = setWorkingResourcePool [] p
       ∧ c = notifyChanges p
       ∧ _questionItemsToReplace r.2 = Some []
       ∧ selectedActiveQuestions r.2
         = (if isInReplaceMode s then [] else selectedActiveQuestions st)
       ∧ activeSectionIndex r.2 = activeSectionIndex st)
  ∧ ((∀ x, r.1 ≠ Ok (Some x)) → same_session st r.2).
Proof.
  intros s r op.
  set (ended :=
    if selectPracticeQuiz s then
      match workingResourcePool p with
      | [exercise] =>
          fill_sections fuel (workingResourcePool p)
            (exerciseToQuestionArray exercise) (activeSectionIndex st)
      | _ => throw Error
      end
    else if isChoosingManually s then
      let* _ := addQuestionsToSection (activeSectionIndex st)
                  (Some (workingQuestions p)) (Some (workingResourcePool p))
                  (settings_questionItemsToReplace s) in
      ret true
    else
      let* _ := addQuestionsToSectionFromResources (activeSectionIndex st)
                  (Some (workingResourcePool p)) (settings_questionCount s)
                  seed in
      ret true).
  assert (Hr : r = match ended st with
                   | (Ok true, st') =>
                       (Ok (Some (setWorkingResourcePool [] p, notifyChanges p)),
                        set_questionItemsToReplace (Some [])
                          (if isInReplaceMode s
                           then set_selectedQuestionIds [] st' else st'))
                   | (Ok false, st') => (Ok None, st')
                   | (Throw e, st') => (Throw e, st')
                   end).
  { subst r. unfold saveSelectedResource. unfold bind at 1, gets.
    unfold bind at 1. fold s ended.
    destruct (ended st) as [[[]|e] st']; [| done | done].
    apply saveSelectedResource_closing. }
  assert (Hsession : same_session st (ended st).2).
  { subst ended. destruct (selectPracticeQuiz s).
    - destruct (workingResourcePool p) as [|e [|e' pool]]; [done | | done].
      apply fill_sections_session.
    - destruct (isChoosingManually s).
      + apply (preserves_bind same_session);
          [apply addQuestionsToSection_session |
           intros _; apply preserves_ret; apply _].
      + apply (preserves_bind same_session);
          [apply addQuestionsToSectionFromResources_session |
           intros _; apply preserves_ret; apply _]. }
  split_and!.
  - intros Hpractice Hpool. rewrite Hr. subst ended. rewrite Hpractice.
    by destruct (workingResourcePool p) as [|e [|e' pool]].
  - intros Hpractice.
    fold r in Hr. clear Hr.
    pose proof (saveSelectedResource_not_practice fuel seed p st Hpractice)
      as Hr.
    fold s op r in Hr. rewrite Hr. clearbody op.
    destruct op as [[[]|e] st']; simpl.
    + split; [done |]. intros _. by destruct (isInReplaceMode s).
    + split; [| done]. by intros e' [= <-].
  - intros p' c. rewrite Hr.
    destruct (ended st) as [[[]|e] st'] eqn:Hended; simpl; [| done | done].
    intros [= <- <-]. destruct Hsession as (Hindex & Hselected & _).
    unfold selectedActiveQuestions.
    by destruct (isInReplaceMode s).
  - rewrite Hr. intros Hopen.
    destruct (ended st) as [[[]|e] st'] eqn:Hended; simpl in *; try done.
    by destruct (Hopen (setWorkingResourcePool [] p, notifyChanges p)).
Qed.

(** *** The save button *)

Lemma length_filter_items (X : list string) (l : list QuizQuestion) :
  length (filter (λ q, item q ∉ X) l)
  = length (filter (λ c, c ∉ X) (map item l)).
Proof.
  induction l as [|q l IH]; [done |].
  cbn [map]. rewrite !filter_cons.
  destruct (decide (item q ∉ X)); simpl; by rewrite IH.
Qed.

Lemma available_questions_cons (st : State) (e : Exercise) (pool : list Exercise) :
  length (available_questions st (e :: pool))
  = (length (unused_composites st e) + length (available_questions st pool))%nat.
Proof.
  unfold available_questions, unused_composites.
  cbn [map concat]. rewrite filter_app, length_app. f_equal.
  by rewrite length_filter_items, exerciseToQuestionArray_items.
Qed.

Lemma count_unused_returns (st : State) (p : Panel) (pool : list Exercise)
    (acc count : nat) :
  count_unused st p acc pool = Ok count →
  (count ≤ acc + length (available_questions st pool))%nat
  ∧ (count ≠ acc → ∃ all, allQuestionsInQuiz st = Ok all).
Proof.
  revert acc. induction pool as [|e pool IH]; intros acc; simpl.
  - intros [= <-]. split; [lia | done].
  - destruct (unusedQuestionsCount st p e) as [n|err] eqn:Hn; [| done]. simpl.
    intros [Hle Hread]%IH.
    apply unusedQuestionsCount_returns in Hn as [-> Hread'].
    rewrite available_questions_cons. split.
    + pose proof (length_filter (λ c, c ∉ map item (workingQuestions p))
                    (unused_composites st e)). lia.
    + intros Hcount.
      destruct (decide (length (filter (λ c, c ∉ map item (workingQuestions p))
                                  (unused_composites st e)) = 0%nat))
        as [Hzero|Hpos]; [| by apply Hread'].
      apply Hread. lia.
Qed.

Lemma take_elem_of {A} (n : nat) (l : list A) (x : A) : x ∈ take n l → x ∈ l.
Proof. by intros (k & Hk%list_elem_of_lookup_2 & _)%elem_of_take. Qed.

(** X21. An enabled save button.  When the questions are not chosen
    manually, the panel is not for a practice quiz (neither by the query
    of the route nor by its settings), there is an active
    section, [maxQuestions] is what the panel sets it to (the room left in
    the active section), the questions of the active section and the
    unused questions of the working pool are valid and the seeded shuffle
    permutes: if [disableSave] is [false], then [saveSelectedResource]
    returns and closes the panel, and the active section holds its former
    questions followed by exactly [questionCount] new questions, which are
    questions of the exercises of the working pool that were not in the
    quiz. *)
Theorem save_enabled_automatic (fuel : nat) (seed : Z) (p : Panel) (st : State) :
  let s := settings p in
  let r := saveSelectedResource fuel seed p st in
  let available := available_questions st (workingResourcePool p) in
  query_selectPracticeQuiz p = false →
  selectPracticeQuiz s = false →
  isChoosingManually s = false →
  disableSave st p = Ok false →
  is_Some (activeSection st) →
  maxQuestions s
  = Some (Z.of_nat MAX_QUESTIONS_PER_QUIZ_SECTION
          - Z.of_nat (length (activeQuestions st)))%Z →
  (∀ l, seededShuffle seed l ≡ₚ l) →
  (∀ q, q ∈ activeQuestions st ++ available → validateQuizQuestion q = true) →
  ∃ (n : nat) (new : list QuizQuestion),
    settings_questionCount s = Some (Z.of_nat n)
    ∧ (1 ≤ n)%nat
    ∧ r.1 = Ok (Some (setWorkingResourcePool [] p, notifyChanges p))
    ∧ activeQuestions r.2 = activeQuestions st ++ new
    ∧ length new = n
    ∧ (∀ q, q ∈ new → q ∈ available)
    ∧ inactiveSections r.2 = inactiveSections st.
Proof.
  intros s r available Hquery Hpractice Hmanual Hsave [t Ht] Hmax Hshuffle
    Hvalid.
  (* what the enabled button tells *)
  unfold disableSave in Hsave. fold s in Hsave.
  rewrite Hquery, Hmanual in Hsave. simpl in Hsave.
  unfold workingPoolQuestionsCount in Hsave. fold s in Hsave.
  rewrite Hmanual in Hsave.
  destruct (count_unused st p 0 (workingResourcePool p)) as [count|e] eqn:Hcount;
    [| done].
  simpl in Hsave. injection Hsave as Hsave.
  rewrite !orb_false_iff in Hsave.
  destruct Hsave as (Hpool & Hone & _ & Hroom & Henough & _).
  apply bool_decide_eq_false in Hone, Hroom, Henough.
  destruct (settings_questionCount s) as [z|] eqn:Hz; [| simpl in Hone; lia].
  simpl in Hone, Hroom, Henough. rewrite Hmax in Hroom. simpl in Hroom.
  apply count_unused_returns in Hcount as [Hle Hread].
  destruct Hread as [all Hall]; [lia |].
  fold available in Hle.
  apply negb_false_iff in Hpool. unfold workingPoolHasChanged in Hpool.
  apply negb_true_iff, bool_decide_eq_false in Hpool.
  destruct (workingResourcePool p) as [|e pool] eqn:Hwp; [done |].
  (* the call of the composable *)
  pose proof (allQuestionsInQuiz_arrays st all Hall) as Harrays.
  pose proof Ht as [Hactive Hlookup]%js_index_Some.
  assert (Hold : questions t = QArray (activeQuestions st)).
  { unfold activeQuestions. rewrite Ht.
    unfold sections_hold_arrays in Harrays.
    rewrite Forall_lookup in Harrays. specialize (Harrays _ _ Hlookup).
    by destruct (questions t). }
  set (old := activeQuestions st) in *.
  set (new := take (Z.to_nat z) (seededShuffle seed available)).
  assert (Hnew : length new = Z.to_nat z).
  { subst new. rewrite length_take, (Permutation_length (Hshuffle available)).
    lia. }
  assert (Hop : addQuestionsToSectionFromResources (activeSectionIndex st)
                  (Some (e :: pool)) (Some z) seed st
                = updateSection (activeSectionIndex st)
                    {| upd_questions := Some (ArgArray (map Some (old ++ new)));
                       upd_resourcePool := Some (Some (e :: pool));
                       upd_props := ∅ |} st).
  { unfold addQuestionsToSectionFromResources.
    unfold activeSection in Ht. rewrite Ht.
    rewrite bool_decide_eq_false_2 by lia.
    rewrite Hall. cbn [rbind]. unfold selectQuestions.
    rewrite (allQuestionsInQuiz_items st all Hall).
    change (filter _ (concat (map exerciseToQuestionArray (e :: pool))))
      with available.
    rewrite bool_decide_eq_false_2 by lia.
    cbn [rbind]. unfold questions_array. rewrite Hold. done. }
  set (u := {| upd_questions := Some (ArgArray (map Some (old ++ new))) |}) in Hop.
  assert (Hcheck : check_questions (upd_questions u)
                   = Ok (Some (QArray (old ++ new)))).
  { apply check_questions_valid.
    - rewrite length_app, Hnew. lia.
    - apply Forall_forall. intros q [Hq | Hq]%elem_of_app.
      + apply Hvalid, elem_of_app. by left.
      + apply Hvalid, elem_of_app. right.
        apply (elem_of_Permutation_proper _ _ _ (Hshuffle available)).
        subst new. by eapply take_elem_of. }
  rewrite (updateSection_Ok _ u st t _ Ht Hcheck) in Hop.
  pose proof (saveSelectedResource_not_practice fuel seed p st Hpractice) as Hr.
  fold s r in Hr. rewrite Hmanual, Hwp, Hz, Hop in Hr.
  assert (Hstate : allSections r.2
                   = allSections (updated (activeSectionIndex st) u t
                                    (Some (QArray (old ++ new))) st)
                   ∧ activeSectionIndex r.2 = activeSectionIndex st).
  { rewrite Hr. by destruct (isInReplaceMode s). }
  destruct Hstate as [Hsections Hindex].
  exists (Z.to_nat z), new.
  split_and!.
  - by rewrite Z2Nat.id by lia.
  - lia.
  - by rewrite Hr.
  - unfold activeQuestions at 1, activeSection. rewrite Hsections, Hindex.
    by rewrite (updated_section _ u t _ st Ht).
  - done.
  - intros q Hq.
    apply (elem_of_Permutation_proper _ _ _ (Hshuffle available)).
    subst new. by eapply take_elem_of.
  - unfold inactiveSections at 1. rewrite Hsections, Hindex.
    exact (inactiveSections_updated u t (Some (QArray (old ++ new))) [] st Ht).
Qed.

(** *** The panel and the bound on the questions of a section *)

#[local] Instance bound_kept_preorder : PreOrder bound_kept.
Proof.
  split.
  - intros st. by split.
  - intros st1 st2 st3 [Hb12 Hl12] [Hb23 Hl23]. split; [| lia].
    intros Hb. by apply Hb23, Hb12.
Qed.

Lemma bound_kept_same (st st' : State) :
  allSections st' = allSections st → bound_kept st st'.
Proof.
  intros Hsections. split; [by apply sections_bounded_ext |].
  by rewrite Hsections.
Qed.

Lemma updateSection_bound_kept (i : Z) (u : SectionUpdates) :
  preserves bound_kept (updateSection i u).
Proof.
  intros st. split; [by apply updateSection_bounded |].
  by rewrite updateSection_length.
Qed.

Lemma addSection_bound_kept : preserves bound_kept addSection.
Proof.
  intros st. split; [by apply addSection_bounded |].
  destruct (addSection_sections st) as [-> | ->]; [done |].
  rewrite length_app. lia.
Qed.

Lemma addQuestionsToSection_bound_kept (i : Z) (qs : option (list QuizQuestion))
    (resources : option (list Exercise)) (items : option (list string)) :
  preserves bound_kept (addQuestionsToSection i qs resources items).
Proof.
  intros st.
  destruct (addQuestionsToSection_state i qs resources items st)
    as [-> | [u ->]]; [reflexivity | apply updateSection_bound_kept].
Qed.

Lemma addQuestionsToSectionFromResources_bound_kept (i : Z)
    (pool : option (list Exercise)) (n : option Z) (seed : Z) :
  preserves bound_kept (addQuestionsToSectionFromResources i pool n seed).
Proof.
  intros st.
  destruct (addQuestionsToSectionFromResources_state i pool n seed st)
    as [-> | [u ->]]; [reflexivity | apply updateSection_bound_kept].
Qed.

Lemma fill_sections_bound_kept (fuel : nat) (pool : list Exercise)
    (remainder : list QuizQuestion) (sectionIndex : Z) :
  preserves bound_kept (fill_sections fuel pool remainder sectionIndex).
Proof.
  revert remainder sectionIndex.
  induction fuel as [|fuel IH]; intros [|q remainder] sectionIndex;
    cbn [fill_sections]; try (apply preserves_ret; apply _).
  apply preserves_bind; [apply _ | apply preserves_gets; apply _ | intros a].
  apply preserves_bind; [apply _ | | intros _].
  { apply preserves_if; [| apply preserves_ret; apply _].
    apply preserves_bind; [apply _ | apply addSection_bound_kept | intros _].
    apply preserves_ret; apply _. }
  apply preserves_bind; [apply _ | apply updateSection_bound_kept | intros _].
  apply IH.
Qed.

(** X22. The panel keeps the bound on the questions of a section.
    Whatever the panel holds, and whether [saveSelectedResource] returns,
    throws or is still in its loop: if every section held at most
    [MAX_QUESTIONS_PER_QUIZ_SECTION] questions before the call, every
    section does after it; and the number of sections does not go down. *)
Theorem saveSelectedResource_bounded (fuel : nat) (seed : Z) (p : Panel)
    (st : State) :
  let r := saveSelectedResource fuel seed p st in
  (sections_bounded st → sections_bounded r.2)
  ∧ (length (allSections st) ≤ length (allSections r.2))%nat.
Proof.
  change (bound_kept st (saveSelectedResource fuel seed p st).2).
  unfold saveSelectedResource.
  apply preserves_bind; [apply _ | apply preserves_gets; apply _ | intros a].
  apply preserves_bind; [apply _ | | intros ended].
  - destruct (selectPracticeQuiz (settings p)).
    + destruct (workingResourcePool p) as [|e [|e' pool]];
        [apply preserves_throw; apply _ | | apply preserves_throw; apply _].
      apply fill_sections_bound_kept.
    + destruct (isChoosingManually (settings p)).
      * apply preserves_bind;
          [apply _ | apply addQuestionsToSection_bound_kept |
           intros _; apply preserves_ret; apply _].
      * apply preserves_bind;
          [apply _ | apply addQuestionsToSectionFromResources_bound_kept |
           intros _; apply preserves_ret; apply _].
  - destruct ended; [| apply preserves_ret; apply _].
    apply preserves_bind; [apply _ | | intros _].
    { destruct (isInReplaceMode (settings p));
        [| apply preserves_ret; apply _].
      apply preserves_modify. intros st0. by apply bound_kept_same. }
    apply preserves_bind; [apply _ | | intros p'; apply preserves_ret; apply _].
    unfold handleClosePanel.
    apply preserves_bind; [apply _ | | intros _; apply preserves_ret; apply _].
    apply preserves_modify. intros st0. by apply bound_kept_same.
Qed.

(** *** Leaving the panel *)

Lemma saveSelectedResource_closed (fuel : nat) (seed : Z) (p p' : Panel)
    (c : option Z) (st : State) :
  (saveSelectedResource fuel seed p st).1 = Ok (Some (p', c)) →
  p' = setWorkingResourcePool [] p ∧ c = notifyChanges p.
Proof.
  unfold saveSelectedResource. unfold bind at 1, gets. unfold bind at 1.
  destruct (_ st) as [[[]|e] st']; [| done | done].
  rewrite saveSelectedResource_closing. by intros [= <- <-].
Qed.

(** X23. The guard on leaving the panel.  With exercises in the working
    pool, leaving is aborted once and the confirmation is shown; asked
    again while the confirmation is shown, the guard lets the navigation
    go on.  With an empty working pool the guard lets it go on.
    [handleClosePanel] empties the working pool before it leaves, so
    closing the panel, and hence a save that has succeeded, is never
    stopped by the guard. *)
Theorem beforeRouteLeave_spec (show : bool) (p : Panel) :
  (workingPoolHasChanged p = true →
   beforeRouteLeave false p = (false, true)
   ∧ beforeRouteLeave (beforeRouteLeave false p).2 p = (true, true))
  ∧ (workingPoolHasChanged p = false → beforeRouteLeave show p = (true, show))
  ∧ (∀ st p', (handleClosePanel p st).1 = Ok p' →
              beforeRouteLeave show p' = (true, show))
  ∧ (∀ fuel seed st p' c,
       (saveSelectedResource fuel seed p st).1 = Ok (Some (p', c)) →
       beforeRouteLeave show p' = (true, show)).
Proof.
  unfold beforeRouteLeave. split_and!.
  - intros ->. done.
  - intros ->. by rewrite andb_false_r.
  - intros st p' [= <-]. by rewrite andb_false_r.
  - intros fuel seed st p' c [-> _]%saveSelectedResource_closed.
    by rewrite andb_false_r.
Qed.

(** X24. An enabled save button, with questions chosen manually.  When
    the panel is not for a practice quiz and not in replace mode, the
    questions are chosen manually and some are chosen, the active section
    holds an array of questions, [maxQuestions] is the room left in the
    active section, and the questions of the section and the working
    questions are valid: if [disableSave] is [false], then
    [saveSelectedResource] returns and closes the panel, the active
    section holds its former questions followed by the working questions
    whose item it did not hold, which are at most
    [MAX_QUESTIONS_PER_QUIZ_SECTION] in all, the other sections are
    unchanged, and every exercise of the working pool is cached. *)
Theorem save_enabled_manual (fuel : nat) (seed : Z) (p : Panel) (st : State)
    (t : QuizSection) (old : list QuizQuestion) :
  let s := settings p in
  let r := saveSelectedResource fuel seed p st in
  let new := filter (λ q, item q ∉ map item old) (workingQuestions p) in
  query_selectPracticeQuiz p = false →
  selectPracticeQuiz s = false →
  isChoosingManually s = true →
  isInReplaceMode s = false →
  settings_questionItemsToReplace s = None
  ∨ settings_questionItemsToReplace s = Some [] →
  disableSave st p = Ok false →
  workingQuestions p ≠ [] →
  activeSection st = Some t →
  questions t = QArray old →
  maxQuestions s
  = Some (Z.of_nat MAX_QUESTIONS_PER_QUIZ_SECTION - Z.of_nat (length old))%Z →
  (∀ q, q ∈ old ++ workingQuestions p → validateQuizQuestion q = true) →
  r.1 = Ok (Some (setWorkingResourcePool [] p, notifyChanges p))
  ∧ activeQuestions r.2 = old ++ new
  ∧ (length (activeQuestions r.2) ≤ MAX_QUESTIONS_PER_QUIZ_SECTION)%nat
  ∧ inactiveSections r.2 = inactiveSections st
  ∧ (∀ e, e ∈ workingResourcePool p → is_Some (_exerciseMap r.2 !! ex_id e)).
Proof.
  intros s r new Hquery Hpractice Hmanual Hreplace Hitems Hsave Hworking Ht
    Hold Hmax Hvalid.
  (* what the enabled button tells *)
  unfold disableSave in Hsave. fold s in Hsave.
  rewrite Hquery, Hmanual, Hreplace in Hsave. simpl in Hsave.
  injection Hsave as Hsave. rewrite !orb_false_iff in Hsave.
  destruct Hsave as (_ & _ & Hmany & Hroom & _).
  unfold tooManyQuestions in Hmany. fold s in Hmany. rewrite Hmanual in Hmany.
  apply bool_decide_eq_false in Hmany, Hroom.
  rewrite Hmax in Hroom. simpl in Hroom.
  (* the call of the composable *)
  assert (Hlength : (length (old ++ new) ≤ MAX_QUESTIONS_PER_QUIZ_SECTION)%nat).
  { rewrite length_app.
    pose proof (length_filter (λ q, item q ∉ map item old) (workingQuestions p))
      as Hfilter.
    fold new in Hfilter. lia. }
  set (u := {| upd_questions := Some (ArgArray (map Some (old ++ new)));
               upd_resourcePool := Some (Some (workingResourcePool p));
               upd_props := ∅ |}).
  assert (Hop : addQuestionsToSection (activeSectionIndex st)
                  (Some (workingQuestions p)) (Some (workingResourcePool p))
                  (settings_questionItemsToReplace s) st
                = updateSection (activeSectionIndex st) u st).
  { unfold addQuestionsToSection. unfold activeSection in Ht. rewrite Ht.
    destruct (workingQuestions p) as [|q0 wq] eqn:Hwq; [done |].
    unfold questions_array. rewrite Hold. cbn [rbind].
    by destruct Hitems as [-> | ->]. }
  assert (Hcheck : check_questions (upd_questions u)
                   = Ok (Some (QArray (old ++ new)))).
  { apply check_questions_valid; [done |].
    apply Forall_forall. intros q [Hq | [_ Hq]%list_elem_of_filter]%elem_of_app;
      apply Hvalid, elem_of_app; [by left | by right]. }
  rewrite (updateSection_Ok _ u st t _ Ht Hcheck) in Hop.
  pose proof (saveSelectedResource_not_practice fuel seed p st Hpractice) as Hr.
  fold s r in Hr. rewrite Hmanual, Hop, Hreplace in Hr.
  assert (Hstate : allSections r.2
                   = allSections (updated (activeSectionIndex st) u t
                                    (Some (QArray (old ++ new))) st)
                   ∧ activeSectionIndex r.2 = activeSectionIndex st
                   ∧ _exerciseMap r.2
                     = cache_exercises (workingResourcePool p) (_exerciseMap st))
    by (by rewrite Hr).
  destruct Hstate as (Hsections & Hindex & Hcache).
  assert (Hquestions : activeQuestions r.2 = old ++ new).
  { unfold activeQuestions at 1, activeSection. rewrite Hsections, Hindex.
    by rewrite (updated_section _ u t _ st Ht). }
  split_and!.
  - by rewrite Hr.
  - done.
  - by rewrite Hquestions.
  - unfold inactiveSections at 1. rewrite Hsections, Hindex.
    exact (inactiveSections_updated u t (Some (QArray (old ++ new))) [] st Ht).
  - intros e He. rewrite Hcache, cache_exercises_last.
    destruct (last_with_id (workingResourcePool p) (ex_id e)) as [e'|] eqn:Hlast;
      [done |].
    by destruct (last_with_id_None _ _ Hlast e He).
Qed.

Lemma replace_map_all_Some (base : list QuizQuestion) (items : list string)
    (repl : list QuizQuestion) :
  NoDup (map item base) → length items = length repl →
  ∃ l, replace_map base items repl = map Some l
       ∧ length l = length base
       ∧ ∀ i q, base !! i = Some q →
                l !! i = if includes items (item q)
                         then repl !! listed_before base items i
                         else Some q.
Proof.
  intros Hnd Hlen.
  assert (Hsome : ∀ i x, replace_map base items repl !! i = Some x → is_Some x).
  { intros i x Hx.
    assert (Hi : (i < length base)%nat).
    { rewrite <- (replace_map_length base items repl). by eapply lookup_lt_Some. }
    destruct (lookup_lt_is_Some_2 _ _ Hi) as [q Hq].
    rewrite (replace_map_lookup base items repl i q Hq) in Hx.
    injection Hx as <-. unfold includes. case_bool_decide as Hin; [| done].
    apply lookup_lt_is_Some. rewrite <- Hlen.
    by eapply listed_before_lt. }
  exists (omap id (replace_map base items repl)).
  assert (Hmap : replace_map base items repl
                 = map Some (omap id (replace_map base items repl))).
  { revert Hsome. generalize (replace_map base items repl). intros l Hl.
    induction l as [|x l IH]; [done |].
    destruct (Hl 0%nat x eq_refl) as [y ->]. csimpl. f_equal.
    apply IH. intros i z Hz. by apply (Hl (S i)). }
  split; [done |]. split.
  - rewrite <- (replace_map_length base items repl).
    rewrite Hmap at 2. by rewrite length_map.
  - intros i q Hq.
    pose proof (replace_map_lookup base items repl i q Hq) as Hlookup.
    rewrite Hmap, list_lookup_fmap in Hlookup.
    destruct (omap id (replace_map base items repl) !! i) as [y|]; [| done].
    simpl in Hlookup. injection Hlookup as Hy.
    destruct (includes items (item q)); [done | by injection Hy as ->].
Qed.

(** X25. An enabled save button, in replace mode.  When the panel is
    not for a practice quiz, it is in replace mode with the questions
    chosen manually, [questionCount] is the number of the items to replace
    (what the panel sets it to), the active section holds an array of at
    most [MAX_QUESTIONS_PER_QUIZ_SECTION] questions with pairwise distinct
    items, none of which is the item of a working question, and these
    questions and the working questions are valid: if [disableSave] is
    [false], then [saveSelectedResource] returns and closes the panel, as
    many working questions were chosen as there are items to replace, the
    active section holds as many questions as before, a question whose
    item is not listed is unchanged in place, the k-th question whose item
    is listed is replaced by the k-th working question, and nothing is
    selected in the quiz any more. *)
Theorem save_enabled_replace (fuel : nat) (seed : Z) (p : Panel) (st : State)
    (t : QuizSection) (old : list QuizQuestion) (items : list string) :
  let s := settings p in
  let r := saveSelectedResource fuel seed p st in
  query_selectPracticeQuiz p = false →
  selectPracticeQuiz s = false →
  isChoosingManually s = true →
  isInReplaceMode s = true →
  settings_questionItemsToReplace s = Some items →
  settings_questionCount s = Some (Z.of_nat (length items)) →
  disableSave st p = Ok false →
  activeSection st = Some t →
  questions t = QArray old →
  (length old ≤ MAX_QUESTIONS_PER_QUIZ_SECTION)%nat →
  NoDup (map item old) →
  (∀ q, q ∈ workingQuestions p → item q ∉ map item old) →
  (∀ q, q ∈ old ++ workingQuestions p → validateQuizQuestion q = true) →
  r.1 = Ok (Some (setWorkingResourcePool [] p, notifyChanges p))
  ∧ length (workingQuestions p) = length items
  ∧ length (activeQuestions r.2) = length old
  ∧ (∀ i q, old !! i = Some q → item q ∉ items →
            activeQuestions r.2 !! i = Some q)
  ∧ (∀ i q, old !! i = Some q → item q ∈ items →
            ∃ q', workingQuestions p !! listed_before old items i = Some q'
                  ∧ activeQuestions r.2 !! i = Some q')
  ∧ selectedActiveQuestions r.2 = []
  ∧ _questionItemsToReplace r.2 = Some [].
Proof.
  intros s r Hquery Hpractice Hmanual Hreplace Hitems Hcount Hsave Ht Hold
    Hbound Hnd Hfresh Hvalid.
  (* what the enabled button tells *)
  unfold disableSave in Hsave. fold s in Hsave.
  rewrite Hquery, Hmanual, Hreplace in Hsave. simpl in Hsave.
  unfold workingPoolQuestionsCount in Hsave. fold s in Hsave.
  rewrite Hmanual in Hsave. simpl in Hsave.
  injection Hsave as Hsave. rewrite !orb_false_iff in Hsave.
  destruct Hsave as (_ & Hone & Hmany & _ & Henough & _).
  unfold tooManyQuestions in Hmany. fold s in Hmany. rewrite Hmanual in Hmany.
  apply bool_decide_eq_false in Hone, Hmany, Henough.
  rewrite Hcount in Hone, Hmany, Henough. simpl in Hone, Hmany, Henough.
  assert (Hlen : length (workingQuestions p) = length items) by lia.
  (* the call of the composable *)
  set (new := filter (λ q, item q ∉ map item old) (workingQuestions p)).
  assert (Hnew : new = workingQuestions p) by (by apply filter_all).
  destruct (replace_map_all_Some old items (workingQuestions p) Hnd)
    as (l & Hmap & Hlength & Hlookup); [done |].
  set (u := {| upd_questions := Some (ArgArray (map Some l));
               upd_resourcePool := Some (Some (workingResourcePool p));
               upd_props := ∅ |}).
  assert (Hop : addQuestionsToSection (activeSectionIndex st)
                  (Some (workingQuestions p)) (Some (workingResourcePool p))
                  (settings_questionItemsToReplace s) st
                = updateSection (activeSectionIndex st) u st).
  { unfold addQuestionsToSection. unfold activeSection in Ht. rewrite Ht, Hitems.
    destruct (workingQuestions p) as [|q0 wq] eqn:Hwq; [simpl in *; lia |].
    unfold questions_array. rewrite Hold. cbn [rbind]. fold new. rewrite Hnew.
    destruct items as [|it items']; [simpl in *; lia |].
    unfold _replaceQuestions.
    rewrite bool_decide_eq_false_2 by (intros Hne; by apply Hne).
    by rewrite Hmap. }
  assert (Hcheck : check_questions (upd_questions u) = Ok (Some (QArray l))).
  { apply check_questions_valid; [lia |].
    apply Forall_forall. intros q Hq. apply Hvalid.
    eapply elem_of_submseteq; [| apply (replace_map_submseteq old items)].
    rewrite Hmap, omap_id_Some. exact Hq. }
  rewrite (updateSection_Ok _ u st t _ Ht Hcheck) in Hop.
  pose proof (saveSelectedResource_not_practice fuel seed p st Hpractice) as Hr.
  fold s r in Hr. rewrite Hmanual, Hop, Hreplace in Hr.
  assert (Hstate : allSections r.2
                   = allSections (updated (activeSectionIndex st) u t
                                    (Some (QArray l)) st)
                   ∧ activeSectionIndex r.2 = activeSectionIndex st)
    by (by rewrite Hr).
  destruct Hstate as (Hsections & Hindex).
  assert (Hquestions : activeQuestions r.2 = l).
  { unfold activeQuestions at 1, activeSection. rewrite Hsections, Hindex.
    by rewrite (updated_section _ u t _ st Ht). }
  rewrite Hquestions.
  split_and!; try done.
  - by rewrite Hr.
  - intros i q Hq Hout. rewrite (Hlookup i q Hq). unfold includes.
    by rewrite bool_decide_eq_false_2.
  - intros i q Hq Hin. rewrite (Hlookup i q Hq). unfold includes.
    rewrite bool_decide_eq_true_2 by done.
    destruct (lookup_lt_is_Some_2 (workingQuestions p)
                (listed_before old items i)) as [q' Hq'].
    { rewrite Hlen. by eapply listed_before_lt. }
    by exists q'.
  - by rewrite Hr.
  - by rewrite Hr.
Qed.

(** *** [updateQuiz] *)

(** X26. [updateQuiz] checks the updates alone.  When they are not a
    valid Quiz object it throws a TypeError and leaves the quiz as it was;
    when they are, it returns, every property of the updates has its new
    value, every other property keeps its value, and the sections are
    replaced only if the updates hold [question_sources].
    [quizHasChanged] is set in both cases, and the cache and the selection
    are untouched.  Two valid updates one after the other make the quiz
    that the later update spread over the earlier one makes. *)
Theorem updateQuiz_spec (updates : QuizUpdates) (st : State) :
  let r := updateQuiz updates st in
  (validateQuiz updates = false →
   r = (Throw TypeError, set_quizHasChanged true st))
  ∧ (validateQuiz updates = true →
     r.1 = Ok tt
     ∧ allSections r.2
       = default (allSections st) (qupd_question_sources updates)
     ∧ (∀ k v, qupd_props updates !! k = Some v →
               quiz_props (quiz r.2) !! k = Some v)
     ∧ (∀ k, qupd_props updates !! k = None →
             quiz_props (quiz r.2) !! k = quiz_props (quiz st) !! k))
  ∧ quizHasChanged r.2 = true
  ∧ _exerciseMap r.2 = _exerciseMap st
  ∧ selectedActiveQuestions r.2 = selectedActiveQuestions st
  ∧ (∀ later,
       validateQuiz updates = true → validateQuiz later = true →
       _quiz (updateQuiz later r.2).2
       = spread_quiz (_quiz st)
           {| qupd_question_sources :=
                match qupd_question_sources later with
                | Some l => Some l
                | None => qupd_question_sources updates
                end;
              qupd_props := qupd_props later ∪ qupd_props updates |}).
Proof.
  simpl. destruct (validateQuiz updates) eqn:Hvalid.
  - rewrite updateQuiz_valid by done. simpl.
    split_and!; try done.
    + intros _. split_and!; try done.
      * intros k v Hk. by apply lookup_union_Some_l.
      * intros k Hk. by apply lookup_union_r.
    + intros later _ Hlater. rewrite updateQuiz_valid by done.
      unfold spread_quiz. simpl. f_equal.
      * by destruct (qupd_question_sources later).
      * by rewrite (assoc_L (∪)).
  - rewrite updateQuiz_invalid by done. by split_and!.
Qed.

End useQuizCreation.

(** * Concrete runs *)

Example run_new_quiz :
  allSections
    (run 50 accept_question accept_quiz ∅ ∅ keep_order
       (OpInitializeQuiz "class" "new" None)
       (initial_state ∅ 0)).2
  = [objectWithDefaults_QuizSection ∅].
Proof. vm_compute. reflexivity. Qed.

Example run_removeSection_last :
  let st := state_of [section_of [question_1a]] ∅ ∅ 0 in
  let r := removeSection accept_quiz ∅ 0 st in
  r.1 = Ok tt ∧ allSections r.2 = [objectWithDefaults_QuizSection ∅].
Proof. split; by vm_compute. Qed.

Example run_removeSection_missing :
  let st := state_of [section_of [question_1a]] ∅ ∅ 0 in
  removeSection accept_quiz ∅ 1 st = (Throw Error, st).
Proof. by vm_compute. Qed.

Example run_addQuestionsToSection_append :
  let st := state_of [section_of [question_1a]] ∅ ∅ 0 in
  let r := addQuestionsToSection 50 accept_question 0
             (Some [question_1a; question_1b]) (Some [exercise_1]) None st in
  r.1 = Ok tt
  ∧ activeQuestions r.2 = [question_1a; question_1b]
  ∧ _exerciseMap r.2 = {[ "e1" := exercise_1 ]}.
Proof. repeat split; by vm_compute. Qed.

Example run_addQuestionsToSection_replace :
  let st := state_of [section_of [question_1a; question_2c]] ∅ ∅ 0 in
  let r := addQuestionsToSection 50 accept_question 0
             (Some [question_1b]) None (Some ["e1:a"]) st in
  r.1 = Ok tt ∧ activeQuestions r.2 = [question_1b; question_2c].
Proof. split; by vm_compute. Qed.

Example run_addQuestionsToSection_mismatch :
  let st := state_of [section_of [question_1a; question_2c]] ∅ ∅ 0 in
  addQuestionsToSection 50 accept_question 0
    (Some [question_1b]) None (Some ["e1:a"; "e2:c"]) st
  = (Throw TypeError, st).
Proof. by vm_compute. Qed.

Example run_addQuestionsToSectionFromResources :
  let st := state_of [section_of [question_1a]] ∅ ∅ 0 in
  let r := addQuestionsToSectionFromResources 50 accept_question keep_order 0
             (Some [exercise_1; exercise_2]) (Some 2%Z) 7 st in
  r.1 = Ok tt ∧ activeQuestions r.2 = [question_1a; question_1b; question_2c].
Proof. split; by vm_compute. Qed.

Example run_addQuestionsToSectionFromResources_few :
  let st := state_of [section_of [question_1a]] ∅ ∅ 0 in
  addQuestionsToSectionFromResources 50 accept_question keep_order 0
    (Some [exercise_1]) (Some 2%Z) 7 st
  = (Throw Error, st).
Proof. by vm_compute. Qed.

Example run_deleteActiveSelectedQuestions :
  let st := set_selectedQuestionIds ["e1:a"]
              (state_of [section_of [question_1a; question_2c]] ∅ ∅ 0) in
  let r := deleteActiveSelectedQuestions 50 accept_question st in
  r.1 = Ok tt
  ∧ activeQuestions r.2 = [question_2c]
  ∧ _selectedQuestionIds r.2 = [].
Proof. repeat split; by vm_compute. Qed.

Example run_updateSection_too_long :
  let st := state_of [section_of []] ∅ ∅ 0 in
  updateSection 1 accept_question 0
    (questions_update (ArgArray [Some question_1a; Some question_1b])) st
  = (Throw TypeError, set_quizHasChanged true st).
Proof. by vm_compute. Qed.

Example run_saveQuiz_draft :
  let st := state_of [section_of [question_1a]]
              {[ "id" := VStr "quiz"; "title" := VStr "Quiz";
                 "draft" := VBool true; "date_created" := VStr "today" ]} ∅ 0 in
  let r := saveQuiz accept_quiz st in
  (req_id <$> saveModel_calls r.2) = [VStr "quiz"]
  ∧ (λ request, req_data request !! "title") <$> saveModel_calls r.2
    = [Some (PValue (VStr "Quiz"))]
  ∧ (λ request, req_data request !! "archive") <$> saveModel_calls r.2
    = [Some (PValue VUndefined)]
  ∧ (λ request, req_data request !! "date_created") <$> saveModel_calls r.2
    = [None]
  ∧ (λ request, req_data request !! "question_sources") <$> saveModel_calls r.2
    = [Some (PSections
               [{| saved_questions :=
                     [ {[ "exercise_id" := VStr "e1"; "question_id" := VStr "a";
                          "title" := VStr ""; "counter_in_exercise" := VNum 1 ]} ];
                   saved_props := ∅ |}])].
Proof. repeat split; by vm_compute. Qed.

(** C1, counterexample. After [initializeQuiz] of a new quiz,
    [updateSection] accepts an array that holds the same question twice:
    the quiz then has two questions with the same item. *)
Lemma duplicate_questions_accepted :
  let new_quiz :=
    (run 50 accept_question accept_quiz ∅ ∅ keep_order
       (OpInitializeQuiz "class" "new" None) (initial_state ∅ 0)).2 in
  let r :=
    run 50 accept_question accept_quiz ∅ ∅ keep_order
      (OpUpdateSection 0
         (questions_update (ArgArray [Some question_1a; Some question_1a])))
      new_quiz in
  r.1 = Ok tt
  ∧ quiz_items r.2 = ["e1:a"; "e1:a"]
  ∧ ¬ unique_items r.2.
Proof.
  split; [by vm_compute |]. split; [by vm_compute |].
  unfold unique_items.
  assert (quiz_items
            (run 50 accept_question accept_quiz ∅ ∅ keep_order
               (OpUpdateSection 0
                  (questions_update
                     (ArgArray [Some question_1a; Some question_1a])))
               (run 50 accept_question accept_quiz ∅ ∅ keep_order
                  (OpInitializeQuiz "class" "new" None) (initial_state ∅ 0)).2).2
          = ["e1:a"; "e1:a"]) as -> by (by vm_compute).
  intros [Hnotin _]%NoDup_cons. apply Hnotin. by left.
Qed.

(** C2, counterexample. With two base questions of the same item, one
    item to replace and one replacement, [_replaceQuestions] replaces the
    second question by [undefined], not by a replacement. *)
Lemma replacements_exhausted :
  _replaceQuestions [question_1a; question_1a] ["e1:a"] [question_1b]
  = Ok [Some question_1b; None].
Proof. by vm_compute. Qed.

(** C3, counterexample. [updateSection] with [questions: null], a value
    that is not an array, does not throw: it returns and the section holds
    [null] as its questions. *)
Lemma null_questions_not_validated :
  let st := state_of [section_of [question_1a]] ∅ ∅ 0 in
  let r := updateSection 50 accept_question 0 (questions_update ArgNull) st in
  r.1 = Ok tt
  ∧ questions <$> js_index (allSections r.2) 0 = Some QNull.
Proof. split; by vm_compute. Qed.

(** C6, the code at the failing input. The active section holds a question
    of exercise e1 and then a question of exercise e2, each exercise has one
    unused question, and the items are listed in the other order:
    [autoReplaceQuestions] returns, and the question of e1 is replaced by
    the unused question of e2, the question of e2 by the unused question of
    e1. *)
Theorem autoReplaceQuestions_crosses_exercises :
  let st := state_of [section_of [question_1a; question_2c]] ∅
              {[ "e1" := exercise_1; "e2" := exercise_2 ]} 0 in
  let r := autoReplaceQuestions 50 accept_question (λ l, l)
             ["e2:c"; "e1:a"] st in
  activeQuestions st = [question_1a; question_2c]
  ∧ activeExercisesUnusedQuestionsMap st
    = Ok {[ "e1" := ["e1:b"]; "e2" := ["e2:d"] ]}
  ∧ r.1 = Ok tt
  ∧ activeQuestions r.2 = [question_2d; question_1b]
  ∧ exercise_id <$> activeQuestions r.2 = ["e2"; "e1"].
Proof. repeat split; by vm_compute. Qed.

(** C7, witness: removing a section keeps a cached exercise. *)
Lemma exerciseMap_never_evicted_witness :
  let st := state_of [section_of [question_1a]; section_of []] ∅
              {[ "e1" := exercise_1 ]} 0 in
  is_Some (_exerciseMap st !! "e1")
  ∧ is_Some
      (_exerciseMap
         (run 50 accept_question accept_quiz ∅ ∅ keep_order
            (OpRemoveSection 0) st).2 !! "e1").
Proof.
  assert (H : is_Some ({[ "e1" := exercise_1 ]} !! "e1" : option Exercise))
    by (eexists; apply lookup_singleton_eq).
  split; [exact H |].
  apply (exerciseMap_never_evicted 50 accept_question accept_quiz ∅ ∅ keep_order).
  exact H.
Defined.

(** C8, witness: in the state reached by a new quiz whose section is given
    a question of exercise e1 together with the exercise, the unused
    questions of e1 are its other question. *)
Lemma activeExercisesUnusedQuestionsMap_spec_witness :
  let st :=
    (run 50 accept_question accept_quiz ∅ ∅ keep_order
       (OpUpdateSection 0
          {| upd_questions := Some (ArgArray [Some question_1a]);
             upd_resourcePool := Some (Some [exercise_1]);
             upd_props := ∅ |})
       (run 50 accept_question accept_quiz ∅ ∅ keep_order
          (OpInitializeQuiz "class" "new" None) (initial_state ∅ 0)).2).2 in
  reachable 50 accept_question accept_quiz ∅ ∅ keep_order st
  ∧ ∀ unusedMap,
      activeExercisesUnusedQuestionsMap st = Ok unusedMap →
      unusedMap !! "e1" = Some ["e1:b"].
Proof.
  assert (Hreach : reachable 50 accept_question accept_quiz ∅ ∅ keep_order
    (run 50 accept_question accept_quiz ∅ ∅ keep_order
       (OpUpdateSection 0
          {| upd_questions := Some (ArgArray [Some question_1a]);
             upd_resourcePool := Some (Some [exercise_1]);
             upd_props := ∅ |})
       (run 50 accept_question accept_quiz ∅ ∅ keep_order
          (OpInitializeQuiz "class" "new" None) (initial_state ∅ 0)).2).2).
  { apply reachable_step, reachable_step, reachable_initial. }
  split; [exact Hreach |].
  intros unusedMap HunusedMap.
  destruct (activeExercisesUnusedQuestionsMap_spec
              50 accept_question accept_quiz ∅ ∅ keep_order _ Hreach)
    as [Hspec _].
  destruct (Hspec unusedMap HunusedMap) as [Hentry _].
  apply (Hentry "e1" exercise_1). vm_compute. by left.
Defined.

(** X1, witness: in the state reached by a new quiz whose section is given
    a question of exercise e1 together with the exercise, replacing this
    question keeps the number of questions of the section. *)
Lemma autoReplaceQuestions_spec_witness :
  let st :=
    (run 50 accept_question accept_quiz ∅ ∅ keep_order
       (OpUpdateSection 0
          {| upd_questions := Some (ArgArray [Some question_1a]);
             upd_resourcePool := Some (Some [exercise_1]);
             upd_props := ∅ |})
       (run 50 accept_question accept_quiz ∅ ∅ keep_order
          (OpInitializeQuiz "class" "new" None) (initial_state ∅ 0)).2).2 in
  let r := autoReplaceQuestions 50 accept_question reversed ["e1:a"] st in
  reachable 50 accept_question accept_quiz ∅ ∅ keep_order st
  ∧ (∀ l, reversed l ≡ₚ l)
  ∧ r.1 = Ok tt
  ∧ length (activeQuestions r.2) = length (activeQuestions st).
Proof.
  assert (Hreach : reachable 50 accept_question accept_quiz ∅ ∅ keep_order
    (run 50 accept_question accept_quiz ∅ ∅ keep_order
       (OpUpdateSection 0
          {| upd_questions := Some (ArgArray [Some question_1a]);
             upd_resourcePool := Some (Some [exercise_1]);
             upd_props := ∅ |})
       (run 50 accept_question accept_quiz ∅ ∅ keep_order
          (OpInitializeQuiz "class" "new" None) (initial_state ∅ 0)).2).2).
  { apply reachable_step, reachable_step, reachable_initial. }
  assert (Hshuffle : ∀ l, reversed l ≡ₚ l) by (intros l; apply reverse_Permutation).
  split; [exact Hreach |]. split; [exact Hshuffle |].
  assert (Hok : (autoReplaceQuestions 50 accept_question reversed ["e1:a"]
    (run 50 accept_question accept_quiz ∅ ∅ keep_order
       (OpUpdateSection 0
          {| upd_questions := Some (ArgArray [Some question_1a]);
             upd_resourcePool := Some (Some [exercise_1]);
             upd_props := ∅ |})
       (run 50 accept_question accept_quiz ∅ ∅ keep_order
          (OpInitializeQuiz "class" "new" None) (initial_state ∅ 0)).2).2).1
    = Ok tt) by (by vm_compute).
  split; [exact Hok |].
  destruct (autoReplaceQuestions_spec 50 accept_question accept_quiz ∅ ∅
              keep_order reversed ["e1:a"] _ Hreach Hshuffle) as [Hreturns _].
  by destruct (Hreturns Hok) as [Hlength _].
Defined.

Lemma addQuestionsToSection_idempotent_witness :
  let st := state_of [section_of [question_1a]] ∅ ∅ 0 in
  let call := addQuestionsToSection 50 accept_question 0
                (Some [question_1a; question_1b]) (Some [exercise_1]) None in
  (call st).1 = Ok tt
  ∧ activeQuestions (call st).2 = [question_1a; question_1b]
  ∧ call (call st).2 = (Ok tt, (call st).2).
Proof.
  split; [by vm_compute |]. split; [by vm_compute |].
  apply (addQuestionsToSection_idempotent 50 accept_question 0
           (Some [question_1a; question_1b]) (Some [exercise_1]) None
           (state_of [section_of [question_1a]] ∅ ∅ 0)).
  - by left.
  - by vm_compute.
Defined.

Lemma addSection_removeSection_witness :
  let st := state_of [section_of [question_1a]] ∅ ∅ 0 in
  let r1 := addSection accept_quiz ∅ st in
  let r2 := removeSection accept_quiz ∅ 1 r1.2 in
  (1 ≤ length (allSections st))%nat
  ∧ length (allSections r1.2) = 2%nat
  ∧ r2.1 = Ok tt
  ∧ _quiz r2.2 = _quiz st.
Proof.
  split; [simpl; lia |]. split; [by vm_compute |].
  destruct (addSection_removeSection accept_quiz ∅
              (state_of [section_of [question_1a]] ∅ ∅ 0))
    as (_ & Hreturns & Hquiz & _); [simpl; lia | done | done |].
  split; [exact Hreturns | exact Hquiz].
Defined.

Lemma saveQuiz_then_id_witness :
  let st := state_of [section_of [question_1a]] {[ "draft" := VBool true ]} ∅ 0 in
  let exam := {| exam_id := VNum 7 |} in
  let r0 := saveQuiz accept_quiz st in
  ∃ request,
    r0 = (Ok request, r0.2)
    ∧ req_id request = VUndefined
    ∧ prop (quiz_props
              (_quiz (saveQuiz_then accept_quiz (req_id request) exam r0.2).2))
           "id" = VNum 7.
Proof.
  eexists. split; [by vm_compute |]. split; [done |].
  match goal with
  | |- prop (quiz_props (_quiz (saveQuiz_then _ (req_id ?request) ?exam ?st1).2)) _ = _ =>
      destruct (saveQuiz_then_id accept_quiz
                  (state_of [section_of [question_1a]]
                     {[ "draft" := VBool true ]} ∅ 0) st1 request exam)
        as (_ & Hreturns & _); [by vm_compute |]
  end.
  apply Hreturns. by vm_compute.
Defined.

(** With one question per section, the two questions of [exercise_1] go
    to the active section and to the next one: the question that the next
    section held is lost, and the section that was added stays empty. *)
Example run_saveSelectedResource_practice :
  let st := state_of [section_of []; section_of [question_2c]] ∅ ∅ 0 in
  let r := saveSelectedResource 1 accept_question accept_quiz ∅ keep_order
             2 0 practice_panel st in
  map questions (allSections r.2)
  = [QArray [question_of "e1" "a" 1]; QArray [question_of "e1" "b" 2];
     QArray []].
Proof. by vm_compute. Qed.

Lemma saveSelectedResource_practice_quiz_witness :
  let st := state_of [section_of []] ∅ ∅ 0 in
  let r := saveSelectedResource 1 accept_question accept_quiz ∅ keep_order
             2 0 practice_panel st in
  is_Some (activeSection st)
  ∧ Forall (λ q, accept_question q = true) (exerciseToQuestionArray exercise_1)
  ∧ r.1 = Ok (Some (setWorkingResourcePool [] practice_panel, None))
  ∧ length (allSections r.2) = 2%nat.
Proof.
  assert (Hactive : is_Some (activeSection (state_of [section_of []] ∅ ∅ 0)))
    by (by eexists).
  assert (Hvalid : Forall (λ q, accept_question q = true)
                     (exerciseToQuestionArray exercise_1))
    by (by apply Forall_forall).
  split; [exact Hactive |]. split; [exact Hvalid |].
  destruct (saveSelectedResource_practice_quiz 1 accept_question accept_quiz ∅
              keep_order 2 0 practice_panel exercise_1
              (state_of [section_of []] ∅ ∅ 0))
    as (Hreturns & _ & _ & Hlength & _);
    [done | done | lia | done | exact Hvalid | exact Hactive | simpl; lia |].
  split; [exact Hreturns | exact Hlength].
Defined.

Lemma save_enabled_automatic_witness :
  let st := state_of [section_of [question_1a]] ∅ ∅ 0 in
  let r := saveSelectedResource 50 accept_question accept_quiz ∅ keep_order
             0 0 automatic_panel st in
  disableSave st automatic_panel = Ok false
  ∧ r.1 = Ok (Some (setWorkingResourcePool [] automatic_panel, Some 1%Z))
  ∧ length (activeQuestions r.2) = 2%nat.
Proof.
  assert (Hsave : disableSave (state_of [section_of [question_1a]] ∅ ∅ 0)
                    automatic_panel = Ok false) by (by vm_compute).
  split; [exact Hsave |].
  destruct (save_enabled_automatic 50 accept_question accept_quiz ∅ keep_order
              0 0 automatic_panel (state_of [section_of [question_1a]] ∅ ∅ 0))
    as (n & new & Hcount & _ & Hreturns & Hquestions & Hlength & _);
    [done | done | done | exact Hsave | by eexists | done | done | done |].
  split; [exact Hreturns |].
  rewrite Hquestions, length_app, Hlength.
  injection Hcount as Hn. simpl. lia.
Defined.

Lemma save_enabled_manual_witness :
  let st := state_of [section_of [question_1a]] ∅ ∅ 0 in
  let r := saveSelectedResource 50 accept_question accept_quiz ∅ keep_order
             0 0 manual_panel st in
  disableSave st manual_panel = Ok false
  ∧ r.1 = Ok (Some (setWorkingResourcePool [] manual_panel, Some 2%Z))
  ∧ activeQuestions r.2 = [question_1a; question_1b].
Proof.
  assert (Hsave : disableSave (state_of [section_of [question_1a]] ∅ ∅ 0)
                    manual_panel = Ok false) by (by vm_compute).
  split; [exact Hsave |].
  destruct (save_enabled_manual 50 accept_question accept_quiz ∅ keep_order
              0 0 manual_panel (state_of [section_of [question_1a]] ∅ ∅ 0)
              (section_of [question_1a]) [question_1a])
    as (Hreturns & Hquestions & _);
    [done | done | done | done | by left | exact Hsave | done | done | done
    | done | done |].
  split; [exact Hreturns | exact Hquestions].
Defined.

Lemma save_enabled_replace_witness :
  let st := state_of [section_of [question_1a; question_2c]] ∅ ∅ 0 in
  let r := saveSelectedResource 50 accept_question accept_quiz ∅ keep_order
             0 0 replace_panel st in
  disableSave st replace_panel = Ok false
  ∧ r.1 = Ok (Some (setWorkingResourcePool [] replace_panel, Some 1%Z))
  ∧ length (activeQuestions r.2) = 2%nat
  ∧ activeQuestions r.2 !! 1%nat = Some question_2c.
Proof.
  assert (Hsave : disableSave
                    (state_of [section_of [question_1a; question_2c]] ∅ ∅ 0)
                    replace_panel = Ok false) by (by vm_compute).
  split; [exact Hsave |].
  destruct (save_enabled_replace 50 accept_question accept_quiz ∅ keep_order
              0 0 replace_panel
              (state_of [section_of [question_1a; question_2c]] ∅ ∅ 0)
              (section_of [question_1a; question_2c])
              [question_1a; question_2c] ["e1:a"])
    as (Hreturns & _ & Hlength & Hkept & _);
    [done | done | done | done | done | done | exact Hsave | done | done
    | simpl; lia | | | done |].
  - change (NoDup ["e1:a"; "e2:c"]).
    apply NoDup_cons. split; [| apply NoDup_singleton].
    by intros ?%list_elem_of_singleton.
  - intros q ->%list_elem_of_singleton.
    change ("e1:b" ∉ ["e1:a"; "e2:c"]).
    by intros [? | ?%list_elem_of_singleton]%elem_of_cons.
  - split; [exact Hreturns |]. split; [exact Hlength |].
    apply (Hkept 1%nat question_2c); [done |].
    change ("e2:c" ∉ ["e1:a"]). by intros ?%list_elem_of_singleton.
Defined.
